(** * Vehicle-Parking-App: spot inventory, reservation and release

    A shallow embedding of the two copies of the application kept in the
    repository:

    - [src/app.py], the single-file application (module [App] below);
    - [src/parking_app/models.py] and [src/parking_app/controllers.py], the
      blueprint version (module [Controllers] below), with the JSON routes
      of [src/parking_app/api.py] (module [Api]).

    Both run on the same three tables ([Parking_lot], [Parking_spot],
    [Booking]).  A table is a list of rows in primary-key order: SQLite gives
    a new row of an [INTEGER PRIMARY KEY] table the key [max + 1], and a
    query without [ORDER BY] scans the table in key order, so that
    [Query.all()] is the filtered list and [Query.first()] its head. *)

From Stdlib Require Import ZArith List String Ascii Bool Lia QArith Qround.
From Stdlib Require Import Permutation Sorted.
Import ListNotations.

Local Open Scope string_scope.
Local Open Scope list_scope.
Local Open Scope Z_scope.

(* ================================================================== *)
(** * Python primitives used by the source *)
(* ================================================================== *)

Module Py.

(** Values a Python function may be handed where the source tests
    [isinstance(number, int)] and [isinstance(number, str)]. *)
Inductive value :=
| Int (n : Z)
| Str (s : string).

Definition is_lower (c : ascii) : bool :=
  (97 <=? nat_of_ascii c)%nat && (nat_of_ascii c <=? 122)%nat.

Definition is_digit (c : ascii) : bool :=
  (48 <=? nat_of_ascii c)%nat && (nat_of_ascii c <=? 57)%nat.

(** The ASCII characters [str.isspace] accepts: TAB, LF, VT, FF, CR,
    FS, GS, RS, US and the space. *)
Definition is_space (c : ascii) : bool :=
  let n := nat_of_ascii c in
  ((9 <=? n)%nat && (n <=? 13)%nat) || ((28 <=? n)%nat && (n <=? 32)%nat).

Definition upper_char (c : ascii) : ascii :=
  if is_lower c then ascii_of_nat (nat_of_ascii c - 32) else c.

(** [s.upper()] on an ASCII string. *)
Fixpoint upper (s : string) : string :=
  match s with
  | EmptyString => EmptyString
  | String c s' => String (upper_char c) (upper s')
  end.

(** [s.replace(c, '')] for a one-character pattern [c]. *)
Fixpoint remove_char (c : ascii) (s : string) : string :=
  match s with
  | EmptyString => EmptyString
  | String c' s' =>
      if Ascii.eqb c' c then remove_char c s' else String c' (remove_char c s')
  end.

(** [s[1:]] *)
Definition tail (s : string) : string :=
  match s with
  | EmptyString => EmptyString
  | String _ s' => s'
  end.

Fixpoint lstrip (s : string) : string :=
  match s with
  | EmptyString => EmptyString
  | String c s' => if is_space c then lstrip s' else s
  end.

Fixpoint rstrip (s : string) : string :=
  match s with
  | EmptyString => EmptyString
  | String c s' =>
      match rstrip s' with
      | EmptyString => if is_space c then EmptyString else String c EmptyString
      | r => String c r
      end
  end.

Definition digit_val (c : ascii) : Z := Z.of_nat (nat_of_ascii c) - 48.

Definition digit_char (d : Z) : ascii := ascii_of_nat (48 + Z.to_nat d).

(** The digit loop of [int(s)]: decimal digits, with single underscores
    allowed between two digits only. [prev] tells whether the previous
    character was a digit. *)
Fixpoint int_digits (prev : bool) (acc : Z) (s : string) : option Z :=
  match s with
  | EmptyString => if prev then Some acc else None
  | String c s' =>
      if is_digit c then int_digits true (10 * acc + digit_val c) s'
      else if Ascii.eqb c "_" then
             if prev then int_digits false acc s' else None
           else None
  end.

(** [int(s)] in base 10 on an ASCII string; [None] is [ValueError]. *)
Definition int (s : string) : option Z :=
  match lstrip s with
  | String "-" r => option_map Z.opp (int_digits false 0 (rstrip r))
  | String "+" r => int_digits false 0 (rstrip r)
  | r => int_digits false 0 (rstrip r)
  end.

Fixpoint str_digits (fuel : nat) (n : Z) (acc : string) : string :=
  match fuel with
  | O => acc
  | S f =>
      let acc' := String (digit_char (n mod 10)) acc in
      if n <? 10 then acc' else str_digits f (n / 10) acc'
  end.

(** [str(n)], which is also what [f"{n}"] prints for an [int]. *)
Definition str (n : Z) : string :=
  if n <? 0
  then String "-" (str_digits (S (Z.to_nat (Z.log2 (- n)))) (- n) EmptyString)
  else str_digits (S (Z.to_nat (Z.log2 n))) n EmptyString.

(** [l[:n]] for a list. *)
Definition slice_to {A} (n : Z) (l : list A) : list A :=
  if n <? 0 then firstn (List.length l - Z.to_nat (- n)) l else firstn (Z.to_nat n) l.

(** [l[n:]] for a list. *)
Definition slice_from {A} (n : Z) (l : list A) : list A :=
  if n <? 0 then skipn (List.length l - Z.to_nat (- n)) l else skipn (Z.to_nat n) l.

(** ** [list.sort(key=...)]: the stable sort, as an insertion sort.
    With [reverse=True] the keys are compared downwards and equal keys
    still keep their original order. *)
Section Sort.
Context {A : Type} (key : A -> Z).

Fixpoint insert_asc (x : A) (l : list A) : list A :=
  match l with
  | [] => [x]
  | y :: l' => if key x <=? key y then x :: l else y :: insert_asc x l'
  end.

Fixpoint insert_desc (x : A) (l : list A) : list A :=
  match l with
  | [] => [x]
  | y :: l' => if key y <=? key x then x :: l else y :: insert_desc x l'
  end.

Definition sort (reverse : bool) (l : list A) : list A :=
  fold_right (if reverse then insert_desc else insert_asc) [] l.
End Sort.

(** [enumerate(l, start)] *)
Fixpoint enumerate {A} (start : Z) (l : list A) : list (Z * A) :=
  match l with
  | [] => []
  | x :: l' => (start, x) :: enumerate (start + 1) l'
  end.

(** [range(a, b)] as the list of its values. *)
Definition range (a b : Z) : list Z :=
  map (fun i => a + Z.of_nat i) (seq 0 (Z.to_nat (b - a))).

(** [round(x, 2)]: to the nearest hundredth, ties to the even one.
    Costs and prices are exact rationals here, where the source has
    binary floating point. *)
Definition round_half_even (x : Q) : Z :=
  let f := Qfloor x in
  match Qcompare (x - inject_Z f)%Q (1 # 2)%Q with
  | Lt => f
  | Gt => f + 1
  | Eq => if Z.even f then f else f + 1
  end.

Definition round2 (x : Q) : Q := Qmake (round_half_even (x * 100)%Q) 100.

End Py.

(* ================================================================== *)
(** * The model classes ([models.py], and the same classes in [app.py]) *)
(* ================================================================== *)

(** The columns the request handlers below read or write.  [username],
    [email], [password_hash] and [created_at] play no part in them. *)

Module User.
Record t := mk { id : Z; role : string }.

Definition is_admin (self : t) : bool := String.eqb (role self) "admin".
End User.

Module Parking_lot.
Record t := mk {
  id : Z;
  name : string;
  address : string;
  pincode : string;
  price_per_hour : Q;
  max_no_spots : Z
}.
End Parking_lot.

Module Parking_spot.
(** [status] is ['A'] for Available and ['O'] for Occupied; [user_id]
    tracks who parked. *)
Record t := mk {
  id : Z;
  parking_lot_id : Z;
  spot_number : string;
  status : string;
  user_id : option Z
}.

Definition set_spot_number (v : string) (s : t) : t :=
  mk (id s) (parking_lot_id s) v (status s) (user_id s).

Definition set_occupant (st : string) (u : option Z) (s : t) : t :=
  mk (id s) (parking_lot_id s) (spot_number s) st u.
End Parking_spot.

Module Booking.
(** Times are microseconds on the clock the handler reads; [out_time]
    and [cost] are nullable. *)
Record t := mk {
  id : Z;
  user_id : Z;
  parking_lot_id : Z;
  parking_spot_id : Z;
  vehicle_number : string;
  in_time : Z;
  out_time : option Z;
  cost : option Q
}.

Definition close (now : Z) (c : Q) (b : t) : t :=
  mk (id b) (user_id b) (parking_lot_id b) (parking_spot_id b)
     (vehicle_number b) (in_time b) (Some now) (Some c).

Definition active (b : t) : bool :=
  match out_time b with None => true | Some _ => false end.
End Booking.

(** ** The database session *)

Record db := mkdb {
  lots : list Parking_lot.t;
  spots : list Parking_spot.t;
  bookings : list Booking.t
}.

Definition empty_db : db := mkdb [] [] [].

(** The key SQLite gives the next inserted row. *)
Definition next_id (ids : list Z) : Z := fold_right Z.max 0 ids + 1.

Definition mem (x : Z) (l : list Z) : bool := existsb (Z.eqb x) l.

(** [Parking_lot.query.get(lot_id)] *)
Definition get_lot (lot_id : Z) (d : db) : option Parking_lot.t :=
  find (fun l => Parking_lot.id l =? lot_id) (lots d).

Definition get_spot (spot_id : Z) (d : db) : option Parking_spot.t :=
  find (fun s => Parking_spot.id s =? spot_id) (spots d).

Definition get_booking (booking_id : Z) (d : db) : option Booking.t :=
  find (fun b => Booking.id b =? booking_id) (bookings d).

(** [Parking_spot.query.filter_by(parking_lot_id=lot_id).all()] *)
Definition spots_of (lot_id : Z) (d : db) : list Parking_spot.t :=
  filter (fun s => Parking_spot.parking_lot_id s =? lot_id) (spots d).

(** [Parking_spot.query.filter_by(parking_lot_id=lot_id, status=st).all()] *)
Definition spots_with_status (lot_id : Z) (st : string) (d : db)
  : list Parking_spot.t :=
  filter (fun s => (Parking_spot.parking_lot_id s =? lot_id)
                   && String.eqb (Parking_spot.status s) st) (spots d).

(** [Booking.query.filter_by(user_id=uid, out_time=None).first()] *)
Definition active_booking_of (uid : Z) (d : db) : option Booking.t :=
  find (fun b => (Booking.user_id b =? uid) && Booking.active b) (bookings d).

(** Writing through a loaded row: the row with that key is replaced. *)
Definition update_spot (spot_id : Z) (f : Parking_spot.t -> Parking_spot.t)
  (l : list Parking_spot.t) : list Parking_spot.t :=
  map (fun s => if Parking_spot.id s =? spot_id then f s else s) l.

Definition update_booking (booking_id : Z) (f : Booking.t -> Booking.t)
  (l : list Booking.t) : list Booking.t :=
  map (fun b => if Booking.id b =? booking_id then f b else b) l.

Definition update_lot (lot_id : Z) (f : Parking_lot.t -> Parking_lot.t)
  (l : list Parking_lot.t) : list Parking_lot.t :=
  map (fun x => if Parking_lot.id x =? lot_id then f x else x) l.

(** [db.session.add(Parking_spot(spot_number=..., parking_lot_id=...))]:
    the column defaults give status ['A'] and no occupant. *)
Definition add_spot (lot_id : Z) (number : string) (l : list Parking_spot.t)
  : list Parking_spot.t :=
  l ++ [Parking_spot.mk (next_id (map Parking_spot.id l)) lot_id number "A" None].

(** [db.session.delete(spot)] for each spot of [doomed].  The relationship
    [Parking_spot.bookings] has [cascade="all, delete-orphan"], so the
    bookings of a deleted spot go with it. *)
Definition delete_spots (doomed : list Parking_spot.t) (d : db) : db :=
  let ids := map Parking_spot.id doomed in
  mkdb (lots d)
       (filter (fun s => negb (mem (Parking_spot.id s) ids)) (spots d))
       (filter (fun b => negb (mem (Booking.parking_spot_id b) ids)) (bookings d)).

(** ** Requests and what the handlers answer *)

Inductive http_method := GET | POST.

(** The fields of the lot form, after [float(...)] and [int(...)]. *)
Record lot_form := mkform {
  form_name : string;
  form_address : string;
  form_pincode : string;
  form_price_per_hour : Q;
  form_max_no_spots : Z
}.

Definition apply_form (f : lot_form) (lot : Parking_lot.t) : Parking_lot.t :=
  Parking_lot.mk (Parking_lot.id lot) (form_name f) (form_address f)
                 (form_pincode f) (form_price_per_hour f)
                 (Parking_lot.max_no_spots lot).

Definition set_max_no_spots (n : Z) (lot : Parking_lot.t) : Parking_lot.t :=
  Parking_lot.mk (Parking_lot.id lot) (Parking_lot.name lot)
                 (Parking_lot.address lot) (Parking_lot.pincode lot)
                 (Parking_lot.price_per_hour lot) n.

(** One constructor per way a handler returns; the flashed message is
    quoted where there is one. *)
Inductive outcome :=
| RedirectHome   (* the caller is not an admin *)
| NotFound       (* [get_or_404] found no row *)
| ServerError    (* an exception left the handler; nothing is committed *)
| RenderForm     (* the page of a GET request *)
| AlreadyParked  (* 'You already have an active booking.' *)
| LotFull        (* 'Sorry, no spots are available in this lot.' *)
| Reserved (spot : Parking_spot.t) (booking : Booking.t)
                 (* 'Spot ... in ... reserved successfully!' *)
| NotYourBooking (* 'This is not your booking.' *)
| Released (cost : Q)
                 (* 'Spot released. Total cost: ...' *)
| InvalidCapacity
                 (* 'A parking lot must have at least 1 spot.' *)
| CapacityBelowOccupancy (occupied : Z)
                 (* 'Cannot reduce spots below current occupancy (...).' *)
| LotUpdated     (* 'Parking lot updated successfully!' *)
| LotCreated.    (* 'Parking lot and spots created successfully!' *)

(** [(out_time - in_time).total_seconds() / 3600] *)
Definition hours_between (in_time out_time : Z) : Q :=
  (Qmake (out_time - in_time) 1000000 / 3600)%Q.

(** [max(0, x)]: [x] when [x > 0], else [0]. *)
Definition max0 (x : Q) : Q := if Qle_bool x 0 then 0%Q else x.

(** What [delete_parking_lot] answers. *)
Inductive delete_outcome :=
| DeleteRedirectHome  (* the caller is not an admin *)
| DeleteNotFound      (* [get_or_404] found no lot *)
| DeleteServerError   (* [IntegrityError] at the commit; nothing is committed *)
| LotHasOccupants     (* 'Cannot delete a lot with occupied spots.' *)
| LotDeleted.         (* 'Parking lot deleted successfully.' *)

(** [db.session.delete(lot); db.session.commit()].  The relationship
    [Parking_lot.spots] has [cascade="all, delete-orphan"]: the spots of
    the lot are deleted, and their bookings with them.  [lot.bookings] is
    a plain backref: a booking of the lot that hangs on no deleted spot
    would get [parking_lot_id = NULL], which the column refuses. *)
Definition delete_lot (lot : Parking_lot.t) (d : db) : option db :=
  let d1 := delete_spots (spots_of (Parking_lot.id lot) d) d in
  if existsb (fun b => Booking.parking_lot_id b =? Parking_lot.id lot) (bookings d1)
  then None
  else Some (mkdb (filter (fun l => negb (Parking_lot.id l =? Parking_lot.id lot)) (lots d1))
                  (spots d1) (bookings d1)).

(** The figures the dashboards attach to a lot. *)
Record lot_figures := mkfigures {
  figures_lot : Parking_lot.t;
  occupied_spots : Z;
  available_spots : Z
}.

(* ================================================================== *)
(** * [parking_app/controllers.py] *)
(* ================================================================== *)

Module Controllers.

(** Helper of the source that standardises a spot number: an [int] is
    printed after an upper-case S; a string is stripped of every S or s,
    read as a number and printed again, or kept whole behind an S when it
    is no number. *)
Definition format_spot_number (number : Py.value) : string :=
  match number with
  | Py.Int n => String "S" (Py.str n)
  | Py.Str s =>
      match Py.int (Py.remove_char "S" (Py.upper s)) with
      | Some num => String "S" (Py.str num)
      | None => String "S" s
      end
  end.

(** The sort key of [edit_parking_lot]: the number after the S, or 0
    when there is none. *)
Definition get_spot_number (spot : Parking_spot.t) : Z :=
  match Py.int (Py.remove_char "S" (Py.upper (Parking_spot.spot_number spot))) with
  | Some n => n
  | None => 0
  end.

Definition create_parking_lot (current_user : User.t) (method : http_method)
  (form : lot_form) (d : db) : outcome * db :=
  if negb (User.is_admin current_user) then (RedirectHome, d) else
  match method with
  | GET => (RenderForm, d)
  | POST =>
      let new_lot :=
        Parking_lot.mk (next_id (map Parking_lot.id (lots d)))
          (form_name form) (form_address form) (form_pincode form)
          (form_price_per_hour form) (form_max_no_spots form) in
      let max_spots := Parking_lot.max_no_spots new_lot in
      let spots' :=
        fold_left
          (fun tbl i =>
             add_spot (Parking_lot.id new_lot) (format_spot_number (Py.Int i)) tbl)
          (Py.range 1 (max_spots + 1)) (spots d) in
      (LotCreated, mkdb (lots d ++ [new_lot]) spots' (bookings d))
  end.

Definition reserve_spot (current_user : User.t) (now : Z) (method : http_method)
  (lot_id : Z) (vehicle_number : string) (d : db) : outcome * db :=
  match active_booking_of (User.id current_user) d with
  | Some _ => (AlreadyParked, d)
  | None =>
      match get_lot lot_id d with
      | None => (NotFound, d)
      | Some lot =>
          match method with
          | GET => (RenderForm, d)
          | POST =>
              (* Auto-assign the first available spot *)
              match spots_with_status lot_id "A" d with
              | [] => (LotFull, d)
              | spot :: _ =>
                  let spot' :=
                    Parking_spot.set_occupant "O" (Some (User.id current_user)) spot in
                  let new_booking :=
                    Booking.mk (next_id (map Booking.id (bookings d)))
                      (User.id current_user) (Parking_lot.id lot)
                      (Parking_spot.id spot) vehicle_number now None None in
                  (Reserved spot' new_booking,
                   mkdb (lots d)
                        (update_spot (Parking_spot.id spot)
                           (Parking_spot.set_occupant "O" (Some (User.id current_user)))
                           (spots d))
                        (bookings d ++ [new_booking]))
              end
          end
      end
  end.

(** [now] is [datetime.utcnow()]. *)
Definition release_spot (current_user : User.t) (now : Z) (booking_id : Z)
  (d : db) : outcome * db :=
  match get_booking booking_id d with
  | None => (NotFound, d)
  | Some booking =>
      if negb (Booking.user_id booking =? User.id current_user)
      then (NotYourBooking, d)
      else
        match get_spot (Booking.parking_spot_id booking) d,
              get_lot (Booking.parking_lot_id booking) d with
        | Some spot, Some lot =>
            let duration_hours := hours_between (Booking.in_time booking) now in
            let cost :=
              Py.round2 (duration_hours * Parking_lot.price_per_hour lot)%Q in
            (Released cost,
             mkdb (lots d)
                  (update_spot (Parking_spot.id spot)
                     (Parking_spot.set_occupant "A" None) (spots d))
                  (update_booking booking_id (Booking.close now cost) (bookings d)))
        | _, _ => (ServerError, d)
        end
  end.

(** The first loop of the growing branch: every spot of the lot gets its
    number standardised. *)
Definition normalize_spots (lot_id : Z) (l : list Parking_spot.t)
  : list Parking_spot.t :=
  map (fun s =>
         if Parking_spot.parking_lot_id s =? lot_id
         then Parking_spot.set_spot_number
                (format_spot_number (Py.Str (Parking_spot.spot_number s))) s
         else s) l.

(** The second loop: the highest spot number currently in use. *)
Definition highest_number (current_spots : list Parking_spot.t) : Z :=
  fold_left
    (fun highest spot =>
       match Py.int (Py.remove_char "S" (Py.upper (Parking_spot.spot_number spot))) with
       | Some num => if num >? highest then num else highest
       | None => highest
       end)
    current_spots 0.

Definition grow (lot : Parking_lot.t) (new_max_spots : Z) (d : db) : db :=
  let tbl := normalize_spots (Parking_lot.id lot) (spots d) in
  let current_spots :=
    filter (fun s => Parking_spot.parking_lot_id s =? Parking_lot.id lot) tbl in
  let highest := highest_number current_spots in
  let spots_to_add := new_max_spots - Parking_lot.max_no_spots lot in
  mkdb (lots d)
       (fold_left
          (fun tbl i =>
             add_spot (Parking_lot.id lot)
                      (format_spot_number (Py.Int (highest + i))) tbl)
          (Py.range 1 (spots_to_add + 1)) tbl)
       (bookings d).

(** The spots the shrinking branch deletes. *)
Definition spots_to_remove (lot : Parking_lot.t) (new_max_spots : Z) (d : db)
  : list Parking_spot.t :=
  let all_spots := Py.sort get_spot_number false (spots_of (Parking_lot.id lot) d) in
  let occupied_spots :=
    filter (fun s => String.eqb (Parking_spot.status s) "O") all_spots in
  let available_spots :=
    filter (fun s => String.eqb (Parking_spot.status s) "A") all_spots in
  let available_spots_to_keep :=
    new_max_spots - Z.of_nat (List.length occupied_spots) in
  if available_spots_to_keep <? Z.of_nat (List.length available_spots) then
    let available_spots := Py.sort get_spot_number true available_spots in
    Py.slice_to (Z.of_nat (List.length available_spots) - available_spots_to_keep)
                available_spots
  else [].

Definition shrink (lot : Parking_lot.t) (new_max_spots : Z) (d : db) : db :=
  delete_spots (spots_to_remove lot new_max_spots d) d.

(** The last loop: the spots of the lot, sorted by their current number,
    are numbered from 1. *)
Definition renumber (lot_id : Z) (d : db) : db :=
  let all_spots := Py.sort get_spot_number false (spots_of lot_id d) in
  mkdb (lots d)
       (fold_left
          (fun tbl '(i, spot) =>
             update_spot (Parking_spot.id spot)
               (Parking_spot.set_spot_number (format_spot_number (Py.Int i))) tbl)
          (Py.enumerate 1 all_spots) (spots d))
       (bookings d).

Definition edit_parking_lot (current_user : User.t) (method : http_method)
  (lot_id : Z) (form : lot_form) (d : db) : outcome * db :=
  if negb (User.is_admin current_user) then (RedirectHome, d) else
  match get_lot lot_id d with
  | None => (NotFound, d)
  | Some lot =>
      let occupied_spots :=
        Z.of_nat (List.length (spots_with_status (Parking_lot.id lot) "O" d)) in
      match method with
      | GET => (RenderForm, d)
      | POST =>
          let new_max_spots := form_max_no_spots form in
          if new_max_spots <? occupied_spots
          then (CapacityBelowOccupancy occupied_spots, d)
          else
            let d1 :=
              if new_max_spots >? Parking_lot.max_no_spots lot
              then grow lot new_max_spots d
              else if new_max_spots <? Parking_lot.max_no_spots lot
                   then shrink lot new_max_spots d
                   else d in
            let d2 :=
              mkdb (update_lot (Parking_lot.id lot)
                      (fun l => set_max_no_spots new_max_spots (apply_form form l))
                      (lots d1))
                   (spots d1) (bookings d1) in
            (LotUpdated, renumber (Parking_lot.id lot) d2)
      end
  end.

Definition delete_parking_lot (current_user : User.t) (lot_id : Z) (d : db)
  : delete_outcome * db :=
  if negb (User.is_admin current_user) then (DeleteRedirectHome, d) else
  match get_lot lot_id d with
  | None => (DeleteNotFound, d)
  | Some lot =>
      if Z.of_nat (List.length (spots_with_status lot_id "O" d)) >? 0
      then (LotHasOccupants, d)
      else match delete_lot lot d with
           | Some d' => (LotDeleted, d')
           | None => (DeleteServerError, d)
           end
  end.

(** The figures of [admin_dashboard]: for every lot the number of
    occupied spots and [max_no_spots] minus that number, and the two
    totals [total_spots] and [occupied_spots] of [stats].  The number of
    users and the chart data are left out.  [None] is the redirection of
    a caller who is no admin. *)
Definition admin_dashboard (current_user : User.t) (d : db)
  : option (list lot_figures * (Z * Z)) :=
  if negb (User.is_admin current_user) then None else
  let figures :=
    map (fun lot =>
           let occupied :=
             Z.of_nat (List.length (spots_with_status (Parking_lot.id lot) "O" d)) in
           mkfigures lot occupied (Parking_lot.max_no_spots lot - occupied))
        (lots d) in
  Some (figures,
        (fold_left (fun total f => total + Parking_lot.max_no_spots (figures_lot f))
                   figures 0,
         fold_left (fun total f => total + occupied_spots f) figures 0)).

(** The figures of [user_dashboard]: for every lot the number of
    Available spots, and the active booking of the user.  The booking
    history is left out. *)
Definition user_dashboard (current_user : User.t) (d : db)
  : list (Parking_lot.t * Z) * option Booking.t :=
  (map (fun lot =>
          (lot, Z.of_nat (List.length (spots_with_status (Parking_lot.id lot) "A" d))))
       (lots d),
   active_booking_of (User.id current_user) d).

End Controllers.

(* ================================================================== *)
(** * [app.py] *)
(* ================================================================== *)

Module App.

(** [f"S{i}"] *)
Definition spot_label (i : Z) : string := String "S" (Py.str i).

(** [Parking_lot.name] and [Parking_lot.address] are [unique=True] in
    this file: writing a lot whose name or address another lot has
    raises [IntegrityError]. *)
Definition violates_unique (lot : Parking_lot.t) (tbl : list Parking_lot.t) : bool :=
  existsb
    (fun l => negb (Parking_lot.id l =? Parking_lot.id lot)
              && (String.eqb (Parking_lot.name l) (Parking_lot.name lot)
                  || String.eqb (Parking_lot.address l) (Parking_lot.address lot)))
    tbl.

Definition create_parking_lot (current_user : User.t) (method : http_method)
  (form : lot_form) (d : db) : outcome * db :=
  if negb (User.is_admin current_user) then (RedirectHome, d) else
  match method with
  | GET => (RenderForm, d)
  | POST =>
      let new_lot :=
        Parking_lot.mk (next_id (map Parking_lot.id (lots d)))
          (form_name form) (form_address form) (form_pincode form)
          (form_price_per_hour form) (form_max_no_spots form) in
      if violates_unique new_lot (lots d) then (ServerError, d) else
      let spots' :=
        fold_left
          (fun tbl i => add_spot (Parking_lot.id new_lot) (spot_label i) tbl)
          (Py.range 1 (Parking_lot.max_no_spots new_lot + 1)) (spots d) in
      (LotCreated, mkdb (lots d ++ [new_lot]) spots' (bookings d))
  end.

(** [now] is [datetime.now(pytz.timezone('Asia/Kolkata'))]. *)
Definition reserve_spot (current_user : User.t) (now : Z) (method : http_method)
  (lot_id : Z) (vehicle_number : string) (d : db) : outcome * db :=
  match active_booking_of (User.id current_user) d with
  | Some _ => (AlreadyParked, d)
  | None =>
      match get_lot lot_id d with
      | None => (NotFound, d)
      | Some lot =>
          match method with
          | GET => (RenderForm, d)
          | POST =>
              (* Auto-assign the first available spot *)
              match spots_with_status lot_id "A" d with
              | [] => (LotFull, d)
              | spot :: _ =>
                  let spot' :=
                    Parking_spot.set_occupant "O" (Some (User.id current_user)) spot in
                  let new_booking :=
                    Booking.mk (next_id (map Booking.id (bookings d)))
                      (User.id current_user) (Parking_lot.id lot)
                      (Parking_spot.id spot) vehicle_number now None None in
                  (Reserved spot' new_booking,
                   mkdb (lots d)
                        (update_spot (Parking_spot.id spot)
                           (Parking_spot.set_occupant "O" (Some (User.id current_user)))
                           (spots d))
                        (bookings d ++ [new_booking]))
              end
          end
      end
  end.

(** [now] is [datetime.now(pytz.timezone('Asia/Kolkata'))]. *)
Definition release_spot (current_user : User.t) (now : Z) (booking_id : Z)
  (d : db) : outcome * db :=
  match get_booking booking_id d with
  | None => (NotFound, d)
  | Some booking =>
      if negb (Booking.user_id booking =? User.id current_user)
      then (NotYourBooking, d)
      else
        match get_spot (Booking.parking_spot_id booking) d,
              get_lot (Booking.parking_lot_id booking) d with
        | Some spot, Some lot =>
            (* Ensure non-negative duration *)
            let duration_hours :=
              max0 (hours_between (Booking.in_time booking) now) in
            let cost :=
              Py.round2 (duration_hours * Parking_lot.price_per_hour lot)%Q in
            (Released cost,
             mkdb (lots d)
                  (update_spot (Parking_spot.id spot)
                     (Parking_spot.set_occupant "A" None) (spots d))
                  (update_booking booking_id (Booking.close now cost) (bookings d)))
        | _, _ => (ServerError, d)
        end
  end.

Definition grow (lot : Parking_lot.t) (new_max_spots : Z) (d : db) : db :=
  mkdb (lots d)
       (fold_left
          (fun tbl i => add_spot (Parking_lot.id lot) (spot_label i) tbl)
          (Py.range (Parking_lot.max_no_spots lot + 1) (new_max_spots + 1))
          (spots d))
       (bookings d).

(** The sort key [int(x.spot_number[1:])] of every available spot;
    [None] when one of them raises [ValueError]. *)
Fixpoint sort_keys (l : list Parking_spot.t) : option (list (Z * Parking_spot.t)) :=
  match l with
  | [] => Some []
  | x :: l' =>
      match Py.int (Py.tail (Parking_spot.spot_number x)), sort_keys l' with
      | Some k, Some r => Some ((k, x) :: r)
      | _, _ => None
      end
  end.

(** The spots the shrinking branch deletes: unoccupied ones, from the
    highest numbers first. *)
Definition spots_to_remove (lot : Parking_lot.t) (new_max_spots : Z) (d : db)
  : option (list Parking_spot.t) :=
  let available_spots := spots_with_status (Parking_lot.id lot) "A" d in
  match sort_keys available_spots with
  | None => None
  | Some keyed =>
      let available_spots := map snd (Py.sort fst true keyed) in
      let spots_to_remove_count := Parking_lot.max_no_spots lot - new_max_spots in
      Some (Py.slice_to spots_to_remove_count available_spots)
  end.

Definition edit_parking_lot (current_user : User.t) (method : http_method)
  (lot_id : Z) (form : lot_form) (d : db) : outcome * db :=
  if negb (User.is_admin current_user) then (RedirectHome, d) else
  match get_lot lot_id d with
  | None => (NotFound, d)
  | Some lot =>
      let occupied_spots :=
        Z.of_nat (List.length (spots_with_status (Parking_lot.id lot) "O" d)) in
      match method with
      | GET => (RenderForm, d)
      | POST =>
          let new_max_spots := form_max_no_spots form in
          if new_max_spots <? 1 then (InvalidCapacity, d)
          else if new_max_spots <? occupied_spots
          then (CapacityBelowOccupancy occupied_spots, d)
          else
            let lot' := set_max_no_spots new_max_spots (apply_form form lot) in
            let changed :=
              if new_max_spots >? Parking_lot.max_no_spots lot
              then Some (grow lot new_max_spots d)
              else if new_max_spots <? Parking_lot.max_no_spots lot
                   then option_map (fun doomed => delete_spots doomed d)
                                   (spots_to_remove lot new_max_spots d)
                   else Some d in
            match changed with
            | None => (ServerError, d)
            | Some d1 =>
                if violates_unique lot' (lots d) then (ServerError, d)
                else
                  (LotUpdated,
                   mkdb (update_lot (Parking_lot.id lot) (fun _ => lot') (lots d1))
                        (spots d1) (bookings d1))
            end
      end
  end.

Definition delete_parking_lot (current_user : User.t) (lot_id : Z) (d : db)
  : delete_outcome * db :=
  if negb (User.is_admin current_user) then (DeleteRedirectHome, d) else
  match get_lot lot_id d with
  | None => (DeleteNotFound, d)
  | Some lot =>
      if Z.of_nat (List.length (spots_with_status lot_id "O" d)) >? 0
      then (LotHasOccupants, d)
      else match delete_lot lot d with
           | Some d' => (LotDeleted, d')
           | None => (DeleteServerError, d)
           end
  end.

End App.

(** ** Runs of requests *)

Inductive request :=
| CreateLot (current_user : User.t) (form : lot_form)
| ResizeLot (current_user : User.t) (lot_id : Z) (form : lot_form)
| Reserve (current_user : User.t) (now : Z) (lot_id : Z) (vehicle_number : string)
| Release (current_user : User.t) (now : Z) (booking_id : Z).

(** The two applications answer the same POST requests. *)
Inductive application := AppPy | ControllersPy.

Definition handle (a : application) (r : request) (d : db) : outcome * db :=
  match a, r with
  | AppPy, CreateLot u f => App.create_parking_lot u POST f d
  | AppPy, ResizeLot u l f => App.edit_parking_lot u POST l f d
  | AppPy, Reserve u now l v => App.reserve_spot u now POST l v d
  | AppPy, Release u now b => App.release_spot u now b d
  | ControllersPy, CreateLot u f => Controllers.create_parking_lot u POST f d
  | ControllersPy, ResizeLot u l f => Controllers.edit_parking_lot u POST l f d
  | ControllersPy, Reserve u now l v => Controllers.reserve_spot u now POST l v d
  | ControllersPy, Release u now b => Controllers.release_spot u now b d
  end.

(** The database after a list of requests, served one after the other. *)
Definition run (a : application) (rs : list request) (d : db) : db :=
  fold_left (fun d r => snd (handle a r d)) rs d.

(* ================================================================== *)
(** * Notions the statements below are written with *)
(* ================================================================== *)

(** Strings of decimal digits. *)
Fixpoint digits_only (s : string) : bool :=
  match s with
  | EmptyString => true
  | String c s' => Py.is_digit c && digits_only s'
  end.

(** A spot whose number is [number]; the other columns play no part in
    the numbering. *)
Definition spot_numbered (number : string) : Parking_spot.t :=
  Parking_spot.mk 1 1 number "A" None.

(** ** People and forms of the worked examples *)

Definition admin : User.t := User.mk 1 "admin".

Definition driver (n : Z) : User.t := User.mk n "user".

(** The form of a lot with a price of 60 an hour and [n] spots. *)
Definition form_of (n : Z) : lot_form := mkform "Central" "1 Main Road" "600001" 60 n.

(** A user has an active booking: one of theirs has no [out_time]. *)
Definition has_active_booking (uid : Z) (d : db) : Prop :=
  exists b, In b (bookings d) /\ Booking.user_id b = uid /\ Booking.out_time b = None.

(** The number of occupied spots of a lot, as [edit_parking_lot] counts it. *)
Definition occupied_count (lot_id : Z) (d : db) : Z :=
  Z.of_nat (List.length (spots_with_status lot_id "O" d)).

(** A lot of one spot, taken by driver 2. *)
Definition one_spot_taken : db :=
  run AppPy [CreateLot admin (form_of 1); Reserve (driver 2) 0 1 "TN01"] empty_db.

(** The hours [release_spot] charges for: [app.py] clamps them at 0,
    [controllers.py] takes the difference as it is. *)
Definition duration_hours (a : application) (in_time now : Z) : Q :=
  match a with
  | AppPy => max0 (hours_between in_time now)
  | ControllersPy => hours_between in_time now
  end.

(** One hour, in microseconds. *)
Definition hour : Z := 3600000000.

(** A lot of one spot in the blueprint application.  Driver 2 parks at
    00:00 UTC; [in_time] is the wall clock of Asia/Kolkata, 05:30. *)
Definition parked_at_midnight_utc : db :=
  run ControllersPy
      [CreateLot admin (form_of 1); Reserve (driver 2) (5 * hour + hour / 2) 1 "TN01"]
      empty_db.

(** The ordinal of a spot: the numeric part of its spot number. *)
Definition ordinal (s : Parking_spot.t) : Z := Controllers.get_spot_number s.

(** A lot of [app.py] that was made, filled, emptied from the low
    numbers, cut down to the one spot still taken, enlarged again and
    emptied: spot 3 is stored before the new spot 2. *)
Definition shuffled_lot : db :=
  run AppPy
      [CreateLot admin (form_of 3);
       Reserve (driver 2) 0 1 "TN02"; Reserve (driver 3) 0 1 "TN03";
       Reserve (driver 4) 0 1 "TN04";
       Release (driver 2) hour 1; Release (driver 3) hour 2;
       ResizeLot admin 1 (form_of 1); ResizeLot admin 1 (form_of 2);
       Release (driver 4) hour 3]
      empty_db.

(** Primary keys of the spot table are unique. *)
Definition keys_unique (d : db) : Prop := NoDup (map Parking_spot.id (spots d)).

(** The rows of the spot table of [before] that [after] no longer has. *)
Definition deleted_spots (before after : db) : list Parking_spot.t :=
  filter (fun s => negb (mem (Parking_spot.id s) (map Parking_spot.id (spots after))))
         (spots before).

(** The rows deleted by the requests of a run, each as it was when its
    request deleted it. *)
Fixpoint deleted_along (a : application) (rs : list request) (d : db)
  : list Parking_spot.t :=
  match rs with
  | [] => []
  | r :: rs' =>
      let d' := snd (handle a r d) in
      deleted_spots d d' ++ deleted_along a rs' d'
  end.

(** The requests that fill a lot of three spots and then free its spots
    1 and 2: S1 and S2 are Available, S3 is Occupied by driver 4. *)
Definition fill_and_free : list request :=
  [CreateLot admin (form_of 3);
   Reserve (driver 2) 0 1 "TN02"; Reserve (driver 3) 0 1 "TN03";
   Reserve (driver 4) 0 1 "TN04";
   Release (driver 2) hour 1; Release (driver 3) hour 2].

Definition last_spot_taken (a : application) : db := run a fill_and_free empty_db.

(** The capacity a lot has on record. *)
Definition capacity (lot_id : Z) (d : db) : option Z :=
  option_map Parking_lot.max_no_spots (get_lot lot_id d).

(** The ordinals of the spots of a lot, in table order. *)
Definition ordinals (lot_id : Z) (d : db) : list Z :=
  map ordinal (spots_of lot_id d).

(** [one_spot_taken] after driver 2 released booking 1 an hour after
    parking, and after a second release of the same booking an hour later. *)
Definition released_once (a : application) : db :=
  snd (handle a (Release (driver 2) hour 1) one_spot_taken).

Definition released_twice (a : application) : db :=
  snd (handle a (Release (driver 2) (2 * hour) 1) (released_once a)).

(* ================================================================== *)
(** * Notions for the renumbering and the inventory *)
(* ================================================================== *)

(** The place of a key in a list of keys, counted from 0. *)
Fixpoint index_of (k : Z) (ids : list Z) : option Z :=
  match ids with
  | [] => None
  | x :: rest => if x =? k then Some 0 else option_map Z.succ (index_of k rest)
  end.

(** The row [s] after the renumbering loop ran over [sorted], counting
    from [start]: a row of [sorted] gets the number of its place, any
    other row is left alone. *)
Definition renumbered (sorted : list Parking_spot.t) (start : Z)
  (s : Parking_spot.t) : Parking_spot.t :=
  match index_of (Parking_spot.id s) (map Parking_spot.id sorted) with
  | Some j =>
      Parking_spot.set_spot_number
        (Controllers.format_spot_number (Py.Int (start + j))) s
  | None => s
  end.

(** Every spot is Available or Occupied. *)
Definition statuses_ok (d : db) : Prop :=
  forall s, In s (spots d) ->
            Parking_spot.status s = "A" \/ Parking_spot.status s = "O".

(** The spot of key [spot_id] after the request, if it is still there. *)
Definition ordinal_of (spot_id : Z) (d : db) : option Z :=
  option_map ordinal (get_spot spot_id d).

(** The order a sort by [key] puts the rows in. *)
Definition key_le {A : Type} (key : A -> Z) (x y : A) : Prop := key x <= key y.

(** ** The inventory invariant *)

(** Every spot belongs to a lot of the table. *)
Definition spots_have_lots (d : db) : Prop :=
  forall s, In s (spots d) ->
            In (Parking_spot.parking_lot_id s) (map Parking_lot.id (lots d)).

(** Every lot has as many spots as its recorded capacity. *)
Definition capacities_met (d : db) : Prop :=
  forall lot, In lot (lots d) ->
              Parking_lot.max_no_spots lot
              = Z.of_nat (List.length (spots_of (Parking_lot.id lot) d)).

(** The inventory is consistent: keys are unique in the lot table and in
    the spot table, every spot is Available or Occupied and belongs to a
    lot, and every lot has as many spots as its capacity says. *)
Definition inventory_ok (d : db) : Prop :=
  keys_unique d
  /\ NoDup (map Parking_lot.id (lots d))
  /\ statuses_ok d
  /\ spots_have_lots d
  /\ capacities_met d.

(** A request whose form, if it creates a lot, asks for no negative
    number of spots. *)
Definition sane (r : request) : Prop :=
  match r with
  | CreateLot _ form => 0 <= form_max_no_spots form
  | _ => True
  end.

(** The spots of every lot are stored in the order of their ordinals,
    which are 1, ..., capacity. *)
Definition numbered (d : db) : Prop :=
  forall lot, In lot (lots d) ->
              ordinals (Parking_lot.id lot) d
              = Py.range 1 (Parking_lot.max_no_spots lot + 1).

(** The order a sort by [key] with [reverse=True] puts the rows in. *)
Definition key_ge {A : Type} (key : A -> Z) (x y : A) : Prop := key y <= key x.

(** The sort key of [app.py]: [int(x.spot_number[1:])]. *)
Definition app_key (s : Parking_spot.t) : option Z :=
  Py.int (Py.tail (Parking_spot.spot_number s)).

(** Every spot number is one [app.py] prints: an S and an integer. *)
Definition labelled (d : db) : Prop :=
  forall s, In s (spots d) -> exists i, Parking_spot.spot_number s = App.spot_label i.

(* ================================================================== *)
(** * [parking_app/api.py] (and the same routes of [app.py]) *)
(* ================================================================== *)

Module Api.

(** The object [get_lots] returns for a lot. *)
Record lot_json := mklot {
  id : Z;
  name : string;
  address : string;
  pincode : string;
  price_per_hour : Q;
  capacity : Z
}.

(** The object [get_spot] returns. *)
Record spot_json := mkspot {
  spot_id : Z;
  spot_number : string;
  lot_id : Z;
  status : string
}.

Definition get_lots (d : db) : list lot_json :=
  map (fun lot =>
         mklot (Parking_lot.id lot) (Parking_lot.name lot) (Parking_lot.address lot)
               (Parking_lot.pincode lot) (Parking_lot.price_per_hour lot)
               (Parking_lot.max_no_spots lot))
      (lots d).

(** [None] is the 404 of [get_or_404]. *)
Definition get_spot (spot_id : Z) (d : db) : option spot_json :=
  match get_spot spot_id d with
  | None => None
  | Some spot =>
      let status :=
        if String.eqb (Parking_spot.status spot) "A" then "Available" else "Occupied" in
      Some (mkspot (Parking_spot.id spot) (Parking_spot.spot_number spot)
                   (Parking_spot.parking_lot_id spot) status)
  end.

End Api.

(* ================================================================== *)
(** * Spot numbering: printing and reading back *)
(* ================================================================== *)

Section Numbering.

Lemma digit_cases (d : Z) :
  0 <= d < 10 ->
  d = 0 \/ d = 1 \/ d = 2 \/ d = 3 \/ d = 4 \/
  d = 5 \/ d = 6 \/ d = 7 \/ d = 8 \/ d = 9.
Proof. lia. Qed.

Lemma is_digit_digit_char (d : Z) :
  0 <= d < 10 -> Py.is_digit (Py.digit_char d) = true.
Proof.
  intros H. destruct (digit_cases d H) as [E|[E|[E|[E|[E|[E|[E|[E|[E|E]]]]]]]]];
    subst d; reflexivity.
Qed.

Lemma digit_val_digit_char (d : Z) :
  0 <= d < 10 -> Py.digit_val (Py.digit_char d) = d.
Proof.
  intros H. destruct (digit_cases d H) as [E|[E|[E|[E|[E|[E|[E|[E|[E|E]]]]]]]]];
    subst d; reflexivity.
Qed.

(** A digit is no lower-case letter, no S, no blank and no sign. *)
Lemma is_digit_plain (c : ascii) :
  Py.is_digit c = true ->
  Py.upper_char c = c /\ Ascii.eqb c "S" = false /\ Py.is_space c = false
  /\ c <> "-"%char /\ c <> "+"%char.
Proof.
  destruct c as [[] [] [] [] [] [] [] []]; intros H;
    try (vm_compute in H; discriminate H);
    repeat split; try reflexivity; discriminate.
Qed.

Lemma digits_only_upper (s : string) :
  digits_only s = true -> Py.upper s = s.
Proof.
  induction s as [|c s IH]; simpl; intros H; trivial.
  apply andb_true_iff in H. destruct H as [Hc Hs].
  destruct (is_digit_plain c Hc) as (-> & _). now rewrite IH.
Qed.

Lemma digits_only_remove_S (s : string) :
  digits_only s = true -> Py.remove_char "S" s = s.
Proof.
  induction s as [|c s IH]; simpl; intros H; trivial.
  apply andb_true_iff in H. destruct H as [Hc Hs].
  destruct (is_digit_plain c Hc) as (_ & -> & _). now rewrite IH.
Qed.

Lemma digits_only_rstrip (s : string) :
  digits_only s = true -> Py.rstrip s = s.
Proof.
  induction s as [|c s IH]; simpl; intros H; trivial.
  apply andb_true_iff in H. destruct H as [Hc Hs].
  destruct (is_digit_plain c Hc) as (_ & _ & Hsp & _).
  rewrite IH by trivial. rewrite Hsp. now destruct s.
Qed.

Lemma str_digits_S (f : nat) (n : Z) (acc : string) :
  Py.str_digits (S f) n acc
  = if n <? 10 then String (Py.digit_char (n mod 10)) acc
    else Py.str_digits f (n / 10) (String (Py.digit_char (n mod 10)) acc).
Proof. reflexivity. Qed.

Lemma int_digits_digit (prev : bool) (acc d : Z) (rest : string) :
  0 <= d < 10 ->
  Py.int_digits prev acc (String (Py.digit_char d) rest)
  = Py.int_digits true (10 * acc + d) rest.
Proof.
  intros Hd. cbn [Py.int_digits].
  rewrite is_digit_digit_char, digit_val_digit_char by trivial. reflexivity.
Qed.

Lemma digits_only_str_digits (fuel : nat) :
  forall n acc, 0 <= n -> digits_only acc = true ->
                digits_only (Py.str_digits fuel n acc) = true.
Proof.
  induction fuel as [|f IH]; intros n acc Hn Hacc; [exact Hacc|].
  rewrite str_digits_S.
  assert (Hd : digits_only (String (Py.digit_char (n mod 10)) acc) = true).
  { cbn [digits_only]. rewrite is_digit_digit_char by (apply Z.mod_pos_bound; lia).
    exact Hacc. }
  destruct (n <? 10); trivial.
  apply IH; trivial. apply Z.div_pos; lia.
Qed.

Lemma str_digits_nonempty (fuel : nat) (n : Z) (acc : string) :
  Py.str_digits (S fuel) n acc <> EmptyString.
Proof.
  revert n acc. induction fuel as [|f IH]; intros n acc; rewrite str_digits_S.
  - destruct (n <? 10); discriminate.
  - destruct (n <? 10); [discriminate | apply IH].
Qed.

(** Reading the digits [str_digits] printed in front of [rest] adds
    exactly [n] to the shifted accumulator. *)
Lemma int_digits_str_digits (fuel : nat) :
  forall n prev acc rest,
    0 <= n < 2 ^ Z.of_nat (S fuel) ->
    exists k, 0 <= k /\
      Py.int_digits prev acc (Py.str_digits (S fuel) n rest)
      = Py.int_digits true (acc * 10 ^ k + n) rest.
Proof.
  induction fuel as [|f IH]; intros n prev acc rest Hn; rewrite str_digits_S.
  - assert (Hlt : n < 10) by (change (2 ^ Z.of_nat 1) with 2 in Hn; lia).
    exists 1. split; [lia|].
    destruct (Z.ltb_spec n 10) as [_|Hge]; [|lia].
    rewrite Z.mod_small, int_digits_digit by lia.
    f_equal. lia.
  - destruct (Z.ltb_spec n 10) as [Hlt|Hge].
    + exists 1. split; [lia|].
      rewrite Z.mod_small, int_digits_digit by lia.
      f_equal. lia.
    + assert (Hq : 0 <= n / 10 < 2 ^ Z.of_nat (S f)).
      { split; [apply Z.div_pos; lia|].
        apply Z.div_lt_upper_bound; [lia|].
        replace (Z.of_nat (S (S f))) with (Z.succ (Z.of_nat (S f))) in Hn by lia.
        rewrite Z.pow_succ_r in Hn by lia. lia. }
      destruct (IH (n / 10) prev acc
                   (String (Py.digit_char (n mod 10)) rest) Hq)
        as (k & Hk & E).
      exists (k + 1). split; [lia|]. rewrite E.
      assert (Hm : 0 <= n mod 10 < 10) by (apply Z.mod_pos_bound; lia).
      rewrite int_digits_digit by trivial.
      f_equal. rewrite Z.pow_add_r by lia.
      pose proof (Z.div_mod n 10 ltac:(lia)). lia.
Qed.

Lemma log2_fuel (n : Z) :
  0 <= n -> n < 2 ^ Z.of_nat (S (Z.to_nat (Z.log2 n))).
Proof.
  intros Hn.
  replace (Z.of_nat (S (Z.to_nat (Z.log2 n)))) with (Z.succ (Z.log2 n))
    by (pose proof (Z.log2_nonneg n); lia).
  destruct (Z.eq_dec n 0) as [->|Hz]; [reflexivity|].
  apply Z.log2_spec. lia.
Qed.

(** What [str] prints for a natural number: digits only, at least one,
    and [int_digits] reads the number back. *)
Lemma str_nonneg (n : Z) :
  0 <= n ->
  digits_only (Py.str n) = true /\ Py.str n <> EmptyString
  /\ Py.int_digits false 0 (Py.str n) = Some n.
Proof.
  intros Hn. unfold Py.str.
  destruct (n <? 0) eqn:E; [apply Z.ltb_lt in E; lia|].
  split; [|split].
  - now apply digits_only_str_digits.
  - apply str_digits_nonempty.
  - destruct (int_digits_str_digits (Z.to_nat (Z.log2 n)) n false 0 EmptyString)
      as (k & _ & ->).
    + split; [trivial | now apply log2_fuel].
    + simpl. f_equal.
Qed.

Lemma int_of_digits (s : string) :
  digits_only s = true -> s <> EmptyString ->
  Py.int s = Py.int_digits false 0 s.
Proof.
  intros Hd Hne. destruct s as [|c s]; [congruence|].
  cbn [digits_only] in Hd. apply andb_true_iff in Hd. destruct Hd as [Hc Hs].
  destruct (is_digit_plain c Hc) as (_ & _ & Hsp & Hm & Hp).
  assert (Hr : Py.rstrip (String c s) = String c s).
  { apply digits_only_rstrip. cbn [digits_only]. now rewrite Hc. }
  unfold Py.int. cbn [Py.lstrip]. rewrite Hsp.
  destruct c as [[] [] [] [] [] [] [] []]; try congruence;
    cbv beta iota; rewrite Hr; reflexivity.
Qed.

Lemma str_negative (n : Z) : n < 0 -> Py.str n = String "-" (Py.str (- n)).
Proof.
  intros Hn. unfold Py.str.
  destruct (Z.ltb_spec n 0); [|lia].
  destruct (Z.ltb_spec (- n) 0); [lia|reflexivity].
Qed.

Lemma int_minus (r : string) :
  Py.int (String "-" r) = option_map Z.opp (Py.int_digits false 0 (Py.rstrip r)).
Proof. reflexivity. Qed.

(** [int(str(n)) == n] for every integer. *)
Lemma int_str (n : Z) : Py.int (Py.str n) = Some n.
Proof.
  destruct (Z.ltb_spec n 0) as [Hneg|Hpos].
  - assert (Hm : 0 <= - n) by lia.
    destruct (str_nonneg (- n) Hm) as (Hd & Hne & Hi).
    rewrite str_negative, int_minus, digits_only_rstrip, Hi by trivial.
    cbn [option_map]. f_equal. lia.
  - destruct (str_nonneg n Hpos) as (Hd & Hne & Hi).
    rewrite int_of_digits by trivial. exact Hi.
Qed.

(** After [upper()] and [replace('S', '')] nothing is left of the tag,
    whichever case it was in, and [str(n)] passes unchanged. *)
Lemma strip_tag_str (n : Z) :
  Py.remove_char "S" (Py.upper (Py.str n)) = Py.str n.
Proof.
  destruct (Z.ltb_spec n 0) as [Hneg|Hpos].
  - assert (Hm : 0 <= - n) by lia.
    destruct (str_nonneg (- n) Hm) as (Hd & _).
    rewrite str_negative by trivial.
    change (Py.remove_char "S" (Py.upper (String "-" (Py.str (- n)))))
      with (String "-" (Py.remove_char "S" (Py.upper (Py.str (- n))))).
    now rewrite digits_only_upper, digits_only_remove_S.
  - destruct (str_nonneg n Hpos) as (Hd & _).
    now rewrite digits_only_upper, digits_only_remove_S.
Qed.

Lemma upper_idempotent (s : string) : Py.upper (Py.upper s) = Py.upper s.
Proof.
  induction s as [|c s IH]; simpl; [trivial|]. rewrite IH. f_equal.
  unfold Py.upper_char at 1.
  destruct (Py.is_lower (Py.upper_char c)) eqn:E; trivial.
  exfalso. revert E. unfold Py.upper_char, Py.is_lower.
  destruct c as [[] [] [] [] [] [] [] []]; vm_compute; discriminate.
Qed.

End Numbering.

(** C8: for every ordinal [n >= 1], the sort key [get_spot_number] reads
    [n] back from the spot number [format_spot_number] printed for [n];
    it reads the same [n] when the tag is a lower-case s, and
    [format_spot_number] itself turns the lower-case number into the
    upper-case one. *)
Theorem get_spot_number_format_spot_number (n : Z) (spot : Parking_spot.t) :
  1 <= n ->
  Controllers.get_spot_number
    (Parking_spot.set_spot_number (Controllers.format_spot_number (Py.Int n)) spot) = n
  /\ Controllers.get_spot_number
       (Parking_spot.set_spot_number (String "s" (Py.str n)) spot) = n
  /\ Controllers.format_spot_number (Py.Str (String "s" (Py.str n)))
     = Controllers.format_spot_number (Py.Int n).
Proof.
  intros _. unfold Controllers.get_spot_number, Controllers.format_spot_number.
  simpl. rewrite strip_tag_str, int_str. auto.
Qed.

Lemma get_spot_number_format_spot_number_witness :
  1 <= 12
  /\ Controllers.get_spot_number
       (Parking_spot.set_spot_number (Controllers.format_spot_number (Py.Int 12))
          (spot_numbered "S1")) = 12.
Proof.
  split; [lia|].
  apply (get_spot_number_format_spot_number 12 (spot_numbered "S1")). lia.
Defined.

(** C9, at the ordinals 2 and 10: 2 is below 10, yet the spot number of 10
    sorts before the spot number of 2 as a string, in [controllers.py] and
    in [app.py] alike. *)
Theorem format_spot_number_order_2_10 :
  2 < 10
  /\ Controllers.format_spot_number (Py.Int 2) = "S2"
  /\ Controllers.format_spot_number (Py.Int 10) = "S10"
  /\ String.ltb (Controllers.format_spot_number (Py.Int 10))
                (Controllers.format_spot_number (Py.Int 2)) = true
  /\ String.ltb (Controllers.format_spot_number (Py.Int 2))
                (Controllers.format_spot_number (Py.Int 10)) = false
  /\ String.ltb (App.spot_label 10) (App.spot_label 2) = true.
Proof. repeat split; reflexivity. Qed.

(* ================================================================== *)
(** * Queries *)
(* ================================================================== *)

Section Queries.

Lemma find_In_some {A} (p : A -> bool) (l : list A) (x : A) :
  In x l -> p x = true -> exists y, find p l = Some y.
Proof.
  intros Hin Hp. destruct (find p l) as [y|] eqn:E; [now exists y|].
  pose proof (find_none p l E x Hin). congruence.
Qed.

Lemma active_booking_of_some (uid : Z) (d : db) :
  has_active_booking uid d -> exists b, active_booking_of uid d = Some b.
Proof.
  intros (b & Hin & Hu & Ho). unfold active_booking_of.
  apply find_In_some with (x := b); trivial.
  unfold Booking.active. rewrite Ho, Hu, Z.eqb_refl. reflexivity.
Qed.

Lemma get_lot_id (lot_id : Z) (d : db) (lot : Parking_lot.t) :
  get_lot lot_id d = Some lot -> Parking_lot.id lot = lot_id.
Proof.
  unfold get_lot. intros H. apply find_some in H. now apply Z.eqb_eq.
Qed.

Lemma get_booking_id (booking_id : Z) (d : db) (b : Booking.t) :
  get_booking booking_id d = Some b -> Booking.id b = booking_id.
Proof.
  unfold get_booking. intros H. apply find_some in H. now apply Z.eqb_eq.
Qed.

Lemma get_spot_id (spot_id : Z) (d : db) (s : Parking_spot.t) :
  get_spot spot_id d = Some s -> Parking_spot.id s = spot_id.
Proof.
  unfold get_spot. intros H. apply find_some in H. now apply Z.eqb_eq.
Qed.

End Queries.

(** C10: a user who has an active booking is answered 'You already have
    an active booking.' by [reserve_spot], whatever the lot id (known or
    not), the method and the vehicle, and the database stays as it was;
    the same in [app.py] and in [controllers.py]. *)
Theorem reserve_spot_already_parked
  (current_user : User.t) (now : Z) (method : http_method) (lot_id : Z)
  (vehicle_number : string) (d : db) :
  has_active_booking (User.id current_user) d ->
  App.reserve_spot current_user now method lot_id vehicle_number d = (AlreadyParked, d)
  /\ Controllers.reserve_spot current_user now method lot_id vehicle_number d
     = (AlreadyParked, d).
Proof.
  intros H. destruct (active_booking_of_some _ _ H) as (b & E).
  unfold App.reserve_spot, Controllers.reserve_spot. now rewrite E.
Qed.

Lemma reserve_spot_already_parked_witness :
  get_lot 99 one_spot_taken = None
  /\ App.reserve_spot (driver 2) 5 POST 99 "TN01" one_spot_taken
     = (AlreadyParked, one_spot_taken).
Proof.
  split; [reflexivity|].
  apply (reserve_spot_already_parked (driver 2) 5 POST 99 "TN01" one_spot_taken).
  eexists. split; [left; reflexivity|]. split; reflexivity.
Defined.

(** C3, as the claim states it, fails in [app.py]: with one occupied spot
    and a target of 0, the answer is 'A parking lot must have at least 1
    spot.' and not the message about the occupancy. *)
Lemma edit_parking_lot_below_one :
  form_max_no_spots (form_of 0) < occupied_count 1 one_spot_taken
  /\ App.edit_parking_lot admin POST 1 (form_of 0) one_spot_taken
     = (InvalidCapacity, one_spot_taken)
  /\ InvalidCapacity <> CapacityBelowOccupancy (occupied_count 1 one_spot_taken).
Proof. split; [reflexivity|]. split; [reflexivity|discriminate]. Qed.

(** C3, amended: when the target is below the number of occupied spots
    of the lot, an admin's POST to [edit_parking_lot] changes nothing in
    the database.  [controllers.py] answers with the occupancy message;
    [app.py] does too when the target is at least 1, and answers 'A
    parking lot must have at least 1 spot.' when it is not. *)
Theorem edit_parking_lot_below_occupancy
  (current_user : User.t) (lot_id : Z) (form : lot_form) (d : db)
  (lot : Parking_lot.t) :
  User.is_admin current_user = true ->
  get_lot lot_id d = Some lot ->
  form_max_no_spots form < occupied_count lot_id d ->
  Controllers.edit_parking_lot current_user POST lot_id form d
  = (CapacityBelowOccupancy (occupied_count lot_id d), d)
  /\ App.edit_parking_lot current_user POST lot_id form d
     = (if form_max_no_spots form <? 1 then InvalidCapacity
        else CapacityBelowOccupancy (occupied_count lot_id d), d).
Proof.
  intros Ha Hl Hlt.
  unfold Controllers.edit_parking_lot, App.edit_parking_lot.
  rewrite Ha, Hl. simpl negb. cbv iota.
  rewrite (get_lot_id _ _ _ Hl). fold (occupied_count lot_id d).
  apply Z.ltb_lt in Hlt. rewrite Hlt.
  split; [reflexivity|]. now destruct (form_max_no_spots form <? 1).
Qed.

Lemma edit_parking_lot_below_occupancy_witness :
  Controllers.edit_parking_lot admin POST 1 (form_of 0) one_spot_taken
  = (CapacityBelowOccupancy 1, one_spot_taken).
Proof.
  apply (edit_parking_lot_below_occupancy admin 1 (form_of 0) one_spot_taken
           (Parking_lot.mk 1 "Central" "1 Main Road" "600001" 60 1));
    reflexivity.
Defined.

(* ================================================================== *)
(** * Release *)
(* ================================================================== *)

Section Release.

Lemma find_update {A} (key : A -> Z) (f : A -> A) (k k' : Z) (l : list A) :
  (forall x, key (f x) = key x) ->
  find (fun x => key x =? k) (map (fun x => if key x =? k' then f x else x) l)
  = option_map (fun x => if key x =? k' then f x else x)
               (find (fun x => key x =? k) l).
Proof.
  intros Hf. induction l as [|x l IH]; simpl; trivial.
  assert (E : key (if key x =? k' then f x else x) = key x)
    by (destruct (key x =? k'); auto).
  rewrite E. destruct (key x =? k); simpl; auto.
Qed.

Lemma get_booking_update (k k' : Z) (f : Booking.t -> Booking.t)
      (ls : list Parking_lot.t) (ss : list Parking_spot.t) (d : db) :
  (forall b, Booking.id (f b) = Booking.id b) ->
  get_booking k (mkdb ls ss (update_booking k' f (bookings d)))
  = option_map (fun b => if Booking.id b =? k' then f b else b) (get_booking k d).
Proof.
  intros Hf. unfold get_booking, update_booking. cbn [bookings].
  now apply find_update with (key := Booking.id).
Qed.

Lemma get_spot_update (k k' : Z) (f : Parking_spot.t -> Parking_spot.t)
      (ls : list Parking_lot.t) (bs : list Booking.t) (d : db) :
  (forall s, Parking_spot.id (f s) = Parking_spot.id s) ->
  get_spot k (mkdb ls (update_spot k' f (spots d)) bs)
  = option_map (fun s => if Parking_spot.id s =? k' then f s else s) (get_spot k d).
Proof.
  intros Hf. unfold get_spot, update_spot. cbn [spots].
  now apply find_update with (key := Parking_spot.id).
Qed.

(** What a release by the owner does, in either application. *)
Lemma release_spot_owner (a : application) (current_user : User.t) (now : Z)
      (booking_id : Z) (d : db)
      (booking : Booking.t) (spot : Parking_spot.t) (lot : Parking_lot.t) :
  get_booking booking_id d = Some booking ->
  Booking.user_id booking = User.id current_user ->
  get_spot (Booking.parking_spot_id booking) d = Some spot ->
  get_lot (Booking.parking_lot_id booking) d = Some lot ->
  let cost :=
    Py.round2 (duration_hours a (Booking.in_time booking) now
               * Parking_lot.price_per_hour lot)%Q in
  handle a (Release current_user now booking_id) d
  = (Released cost,
     mkdb (lots d)
          (update_spot (Parking_spot.id spot)
             (Parking_spot.set_occupant "A" None) (spots d))
          (update_booking booking_id (Booking.close now cost) (bookings d))).
Proof.
  intros Hb Hu Hs Hl.
  destruct a; simpl; unfold App.release_spot, Controllers.release_spot;
    rewrite Hb, Hu, Z.eqb_refl, Hs, Hl; reflexivity.
Qed.




(** [app.py] keeps the branch of [max(0, ...)] the clock decides. *)
Lemma max0_cases (x : Q) :
  ((0 < x)%Q /\ max0 x = x) \/ ((x <= 0)%Q /\ max0 x = 0%Q).
Proof.
  unfold max0. destruct (Qle_bool x 0) eqn:E.
  - right. split; [now apply Qle_bool_iff|trivial].
  - left. split; trivial. apply Qnot_le_lt. intros H.
    apply Qle_bool_iff in H. congruence.
Qed.


End Release.

(** C6, as the claim states it, fails: a booking released after one hour
    costs 60; released a second time an hour later, by the same owner, the
    answer is again 'Spot released', [out_time] moves and the cost is now
    120.  The same happens in [app.py] and in [controllers.py]. *)
Lemma release_spot_second_call_charges_again :
  (fst (handle AppPy (Release (driver 2) hour 1) one_spot_taken)
   = Released (6000 # 100)
   /\ fst (handle AppPy (Release (driver 2) (2 * hour) 1) (released_once AppPy))
      = Released (12000 # 100)
   /\ option_map Booking.out_time (get_booking 1 (released_once AppPy))
      = Some (Some hour)
   /\ option_map Booking.cost (get_booking 1 (released_once AppPy))
      = Some (Some (6000 # 100))
   /\ option_map Booking.out_time (get_booking 1 (released_twice AppPy))
      = Some (Some (2 * hour))
   /\ option_map Booking.cost (get_booking 1 (released_twice AppPy))
      = Some (Some (12000 # 100)))
  /\ (fst (handle ControllersPy (Release (driver 2) hour 1) one_spot_taken)
      = Released (6000 # 100)
      /\ fst (handle ControllersPy (Release (driver 2) (2 * hour) 1)
                (released_once ControllersPy))
         = Released (12000 # 100)
      /\ option_map Booking.cost (get_booking 1 (released_once ControllersPy))
         = Some (Some (6000 # 100))
      /\ option_map Booking.cost (get_booking 1 (released_twice ControllersPy))
         = Some (Some (12000 # 100))).
Proof. vm_compute. repeat split; reflexivity. Qed.

(** C6, amended: [release_spot] has no guard on [out_time].  When the
    owner releases the same booking twice, both calls answer 'Spot
    released'; the second call sets [out_time] to its own clock reading and
    computes the cost anew from [in_time] to that reading. *)
Theorem release_spot_twice (a : application) (current_user : User.t)
  (now1 now2 : Z) (booking_id : Z) (d : db)
  (booking : Booking.t) (spot : Parking_spot.t) (lot : Parking_lot.t) :
  get_booking booking_id d = Some booking ->
  Booking.user_id booking = User.id current_user ->
  get_spot (Booking.parking_spot_id booking) d = Some spot ->
  get_lot (Booking.parking_lot_id booking) d = Some lot ->
  exists cost1 d1 cost2 d2,
    handle a (Release current_user now1 booking_id) d = (Released cost1, d1)
    /\ handle a (Release current_user now2 booking_id) d1 = (Released cost2, d2)
    /\ cost1 = Py.round2 (duration_hours a (Booking.in_time booking) now1
                          * Parking_lot.price_per_hour lot)%Q
    /\ cost2 = Py.round2 (duration_hours a (Booking.in_time booking) now2
                          * Parking_lot.price_per_hour lot)%Q
    /\ get_booking booking_id d1 = Some (Booking.close now1 cost1 booking)
    /\ get_booking booking_id d2 = Some (Booking.close now2 cost2 booking).
Proof.
  intros Hb Hu Hs Hl.
  pose proof (get_booking_id _ _ _ Hb) as Hbid.
  pose proof (get_spot_id _ _ _ Hs) as Hsid.
  pose proof (release_spot_owner a current_user now1 booking_id d
                booking spot lot Hb Hu Hs Hl) as E1.
  cbv zeta in E1.
  set (cost1 := Py.round2 _) in E1. set (d1 := mkdb _ _ _) in E1.
  assert (Hb1 : get_booking booking_id d1 = Some (Booking.close now1 cost1 booking)).
  { unfold d1. rewrite get_booking_update, Hb by reflexivity. cbn [option_map].
    now rewrite Hbid, Z.eqb_refl. }
  assert (Hs1 : get_spot (Booking.parking_spot_id (Booking.close now1 cost1 booking)) d1
                = Some (Parking_spot.set_occupant "A" None spot)).
  { unfold d1. cbn [Booking.parking_spot_id Booking.close].
    rewrite get_spot_update, Hs by reflexivity. cbn [option_map].
    now rewrite Z.eqb_refl. }
  assert (Hl1 : get_lot (Booking.parking_lot_id (Booking.close now1 cost1 booking)) d1
                = Some lot) by exact Hl.
  pose proof (release_spot_owner a current_user now2 booking_id d1
                (Booking.close now1 cost1 booking) _ lot Hb1 Hu Hs1 Hl1) as E2.
  cbv zeta in E2. cbn [Booking.in_time Booking.close] in E2.
  set (cost2 := Py.round2 _) in E2. set (d2 := mkdb _ _ _) in E2.
  exists cost1, d1, cost2, d2.
  split; [exact E1|]. split; [exact E2|]. split; [reflexivity|].
  split; [reflexivity|]. split; [exact Hb1|].
  unfold d2. rewrite get_booking_update, Hb1 by reflexivity. cbn [option_map].
  cbn [Booking.id Booking.close]. now rewrite Hbid, Z.eqb_refl.
Qed.

Lemma release_spot_twice_witness :
  exists cost1 d1 cost2 d2,
    handle AppPy (Release (driver 2) hour 1) one_spot_taken = (Released cost1, d1)
    /\ handle AppPy (Release (driver 2) (2 * hour) 1) d1 = (Released cost2, d2)
    /\ Qeq cost2 120.
Proof.
  destruct (release_spot_twice AppPy (driver 2) hour (2 * hour) 1 one_spot_taken
              (Booking.mk 1 2 1 1 "TN01" 0 None None)
              (Parking_spot.mk 1 1 "S1" "O" (Some 2))
              (Parking_lot.mk 1 "Central" "1 Main Road" "600001" 60 1)
              eq_refl eq_refl eq_refl eq_refl)
    as (cost1 & d1 & cost2 & d2 & E1 & E2 & _ & E4 & _).
  exists cost1, d1, cost2, d2. split; [exact E1|]. split; [exact E2|].
  rewrite E4. reflexivity.
Defined.

(** C7, in [controllers.py]: a driver parks at 00:00 UTC, so that
    [in_time] is 05:30 on the Asia/Kolkata clock, and leaves an hour
    later, when [datetime.utcnow()] reads 01:00.  The duration is not
    clamped: the cost is 60 times -4.5 hours, -270.  [app.py], which
    clamps, charges 0 for the same clock readings. *)
Theorem controllers_release_spot_negative_cost :
  let r := Controllers.release_spot (driver 2) hour 1 parked_at_midnight_utc in
  option_map Booking.in_time (get_booking 1 parked_at_midnight_utc)
  = Some (5 * hour + hour / 2)
  /\ fst r = Released (-27000 # 100)
  /\ option_map Booking.cost (get_booking 1 (snd r)) = Some (Some (-27000 # 100))
  /\ (-27000 # 100 < 0)%Q
  /\ fst (App.release_spot (driver 2) hour 1 parked_at_midnight_utc)
     = Released (0 # 100).
Proof. vm_compute. repeat split; reflexivity. Qed.

(* ================================================================== *)
(** * Reserve *)
(* ================================================================== *)

Section ReserveFacts.

Lemma filter_head_split {A} (p : A -> bool) (l : list A) (x : A) (rest : list A) :
  filter p l = x :: rest ->
  exists before after,
    l = before ++ x :: after /\ (forall y, In y before -> p y = false)
    /\ p x = true.
Proof.
  induction l as [|y l IH]; simpl; [discriminate|].
  destruct (p y) eqn:E; intros H.
  - injection H as -> _. exists [], l. simpl. repeat split; trivial.
    intros ? [].
  - destruct (IH H) as (before & after & -> & Hb & Hx).
    exists (y :: before), after. repeat split; trivial.
    intros z [<-|Hz]; auto.
Qed.

Lemma reserve_spot_same (current_user : User.t) (now : Z) (method : http_method)
      (lot_id : Z) (vehicle_number : string) (d : db) :
  App.reserve_spot current_user now method lot_id vehicle_number d
  = Controllers.reserve_spot current_user now method lot_id vehicle_number d.
Proof. reflexivity. Qed.

End ReserveFacts.

(** C5, as the claim states it, fails: in [shuffled_lot], a database
    [app.py] reaches from the empty one, the spots S3 and S2 of lot 1 are
    both Available; [reserve_spot] gives the driver S3, although S2 has
    the lower ordinal. *)
Lemma reserve_spot_not_lowest_ordinal :
  let s3 := Parking_spot.mk 3 1 "S3" "A" None in
  let s2 := Parking_spot.mk 4 1 "S2" "A" None in
  spots_with_status 1 "A" shuffled_lot = [s3; s2]
  /\ fst (App.reserve_spot (driver 2) (2 * hour) POST 1 "TN02" shuffled_lot)
     = Reserved (Parking_spot.mk 3 1 "S3" "O" (Some 2))
                (Booking.mk 4 2 1 3 "TN02" (2 * hour) None None)
  /\ ordinal s2 < ordinal s3.
Proof. vm_compute. repeat split; reflexivity. Qed.

(** C5, amended: for a user without an active booking and a lot that
    exists, [reserve_spot] (the same function in both applications)
    answers 'no spots are available' and changes nothing when the lot has
    no Available spot; otherwise it takes the first Available spot of the
    lot in table order, that is in the order of the primary key: no row
    stored before it is an Available spot of the lot.  That spot has the
    lowest ordinal among the Available spots of the lot whenever these are
    stored in ascending order of their ordinals. *)
Theorem reserve_spot_first_available
  (a : application) (current_user : User.t) (now : Z) (lot_id : Z)
  (vehicle_number : string) (d : db) (lot : Parking_lot.t) :
  active_booking_of (User.id current_user) d = None ->
  get_lot lot_id d = Some lot ->
  (spots_with_status lot_id "A" d = [] ->
   handle a (Reserve current_user now lot_id vehicle_number) d = (LotFull, d))
  /\ (forall spot rest,
         spots_with_status lot_id "A" d = spot :: rest ->
         (exists booking d',
             handle a (Reserve current_user now lot_id vehicle_number) d
             = (Reserved (Parking_spot.set_occupant "O" (Some (User.id current_user)) spot)
                         booking, d'))
         /\ (exists before after,
                spots d = before ++ spot :: after
                /\ forall s, In s before ->
                             ~ (Parking_spot.parking_lot_id s = lot_id
                                /\ Parking_spot.status s = "A"))
         /\ (StronglySorted Z.le (map ordinal (spot :: rest)) ->
             forall s, In s (spots_with_status lot_id "A" d) ->
                       ordinal spot <= ordinal s)).
Proof.
  intros Hb Hl.
  assert (E : handle a (Reserve current_user now lot_id vehicle_number) d
              = App.reserve_spot current_user now POST lot_id vehicle_number d)
    by (destruct a; reflexivity).
  rewrite E. unfold App.reserve_spot. rewrite Hb, Hl. split.
  - intros ->. reflexivity.
  - intros spot rest Hs. rewrite Hs. split; [eauto|]. split.
    + destruct (filter_head_split _ _ _ _ Hs) as (before & after & Hd & Hbefore & _).
      exists before, after. split; trivial.
      intros s Hin [H1 H2]. specialize (Hbefore s Hin).
      rewrite H1, H2, Z.eqb_refl in Hbefore. discriminate.
    + intros Hsorted s [<-|Hin]; [lia|].
      simpl in Hsorted. apply StronglySorted_inv in Hsorted.
      destruct Hsorted as [_ Hall]. rewrite Forall_forall in Hall.
      apply Hall. now apply in_map.
Qed.

Lemma reserve_spot_first_available_witness :
  exists booking d',
    handle AppPy (Reserve (driver 2) (2 * hour) 1 "TN02") shuffled_lot
    = (Reserved (Parking_spot.mk 3 1 "S3" "O" (Some 2)) booking, d').
Proof.
  destruct (reserve_spot_first_available AppPy (driver 2) (2 * hour) 1 "TN02"
              shuffled_lot
              (Parking_lot.mk 1 "Central" "1 Main Road" "600001" 60 2)
              eq_refl eq_refl) as [_ H].
  destruct (H (Parking_spot.mk 3 1 "S3" "A" None)
              [Parking_spot.mk 4 1 "S2" "A" None] eq_refl)
    as [(booking & d' & E) _].
  exists booking, d'. exact E.
Defined.

(* ================================================================== *)
(** * The spot table: keys, insertions, updates, deletions, sorting *)
(* ================================================================== *)

Section Tables.

Lemma mem_In (x : Z) (l : list Z) : mem x l = true <-> In x l.
Proof.
  unfold mem. rewrite existsb_exists. split.
  - intros (y & Hy & E). apply Z.eqb_eq in E. now subst.
  - intros H. exists x. split; [trivial | apply Z.eqb_refl].
Qed.

Lemma next_id_fresh (ids : list Z) (x : Z) : In x ids -> x < next_id ids.
Proof.
  unfold next_id. induction ids as [|y ids IH]; simpl; [intros []|].
  intros [->|H]; [lia|]. specialize (IH H). lia.
Qed.

Lemma NoDup_snoc_fresh (ids : list Z) :
  NoDup ids -> NoDup (ids ++ [next_id ids]).
Proof.
  intros H. apply NoDup_app; [trivial | repeat constructor; intros [] |].
  intros x Hx [<-|[]]. apply next_id_fresh in Hx. lia.
Qed.

Lemma map_id_add_spot (lot_id : Z) (number : string) (l : list Parking_spot.t) :
  map Parking_spot.id (add_spot lot_id number l)
  = map Parking_spot.id l ++ [next_id (map Parking_spot.id l)].
Proof. unfold add_spot. now rewrite map_app. Qed.

(** A loop of [db.session.add(Parking_spot(...))] appends its spots, in
    the order of the loop, Available and with the labels of the loop;
    the keys stay unique. *)
Lemma add_spots_spec (lot_id : Z) (label : Z -> string) (idxs : list Z) :
  forall tbl,
  exists new,
    fold_left (fun tbl i => add_spot lot_id (label i) tbl) idxs tbl = tbl ++ new
    /\ map Parking_spot.spot_number new = map label idxs
    /\ Forall (fun s => Parking_spot.parking_lot_id s = lot_id
                        /\ Parking_spot.status s = "A"
                        /\ Parking_spot.user_id s = None) new
    /\ (NoDup (map Parking_spot.id tbl) -> NoDup (map Parking_spot.id (tbl ++ new))).
Proof.
  induction idxs as [|i idxs IH]; intros tbl; cbn [fold_left].
  - exists []. rewrite app_nil_r. repeat split; auto.
  - destruct (IH (add_spot lot_id (label i) tbl)) as (new & E & Hn & Hall & Hnd).
    exists (Parking_spot.mk (next_id (map Parking_spot.id tbl)) lot_id (label i) "A" None
              :: new).
    rewrite E. unfold add_spot in *. rewrite <- app_assoc.
    split; [reflexivity|]. split; [cbn [map Parking_spot.spot_number]; now rewrite Hn|].
    split.
    + constructor; auto.
    + intros H. rewrite <- app_assoc in Hnd. apply Hnd.
      rewrite map_app. now apply NoDup_snoc_fresh.
Qed.

Lemma map_id_update_spot (k : Z) (f : Parking_spot.t -> Parking_spot.t)
      (l : list Parking_spot.t) :
  (forall s, Parking_spot.id (f s) = Parking_spot.id s) ->
  map Parking_spot.id (update_spot k f l) = map Parking_spot.id l.
Proof.
  intros Hf. unfold update_spot. rewrite map_map. apply map_ext.
  intros s. destruct (Parking_spot.id s =? k); auto.
Qed.

(** A [filter_by] of a table with unique keys has unique keys. *)
Lemma keys_unique_filter (keep : Parking_spot.t -> bool) (tbl : list Parking_spot.t) :
  NoDup (map Parking_spot.id tbl) ->
  NoDup (map Parking_spot.id (filter keep tbl)).
Proof.
  induction tbl as [|row tbl IH]; intros Hu; [constructor|].
  cbn [map] in Hu. apply NoDup_cons_iff in Hu. destruct Hu as [Hfresh Hu].
  cbn [filter]. destruct (keep row); [|now apply IH].
  cbn [map]. apply NoDup_cons; [|now apply IH].
  intros Hin. apply Hfresh. apply in_map_iff in Hin.
  destruct Hin as (other & Hid & Hother). apply filter_In in Hother.
  rewrite <- Hid. apply in_map. tauto.
Qed.

(** Rows of a table with unique keys are told apart by their key. *)
Lemma same_key_same_row (l : list Parking_spot.t) (s t : Parking_spot.t) :
  NoDup (map Parking_spot.id l) -> In s l -> In t l ->
  Parking_spot.id s = Parking_spot.id t -> s = t.
Proof.
  induction l as [|x l IH]; simpl; intros H Hs Ht E; [contradiction|].
  inversion H as [|? ? Hx Hl]; subst.
  destruct Hs as [<-|Hs], Ht as [<-|Ht]; trivial.
  - exfalso. apply Hx. rewrite E. now apply in_map.
  - exfalso. apply Hx. rewrite <- E. now apply in_map.
  - auto.
Qed.

(** A slice [l[:n]] holds elements of [l] only. *)
Lemma In_slice_to {A} (n : Z) (l : list A) (x : A) : In x (Py.slice_to n l) -> In x l.
Proof.
  unfold Py.slice_to.
  destruct (n <? 0); intros H;
    match type of H with
    | In _ (firstn ?k _) => rewrite <- (firstn_skipn k l)
    end; apply in_or_app; now left.
Qed.

Section SortFacts.
Context {A : Type} (key : A -> Z).

Lemma insert_asc_perm (x : A) (l : list A) :
  Permutation (Py.insert_asc key x l) (x :: l).
Proof.
  induction l as [|y l IH]; simpl; [reflexivity|].
  destruct (key x <=? key y); [reflexivity|].
  rewrite IH. apply perm_swap.
Qed.

Lemma insert_desc_perm (x : A) (l : list A) :
  Permutation (Py.insert_desc key x l) (x :: l).
Proof.
  induction l as [|y l IH]; simpl; [reflexivity|].
  destruct (key y <=? key x); [reflexivity|].
  rewrite IH. apply perm_swap.
Qed.

Lemma sort_perm (reverse : bool) (l : list A) :
  Permutation (Py.sort key reverse l) l.
Proof.
  unfold Py.sort. induction l as [|x l IH]; simpl; [reflexivity|].
  destruct reverse.
  - rewrite insert_desc_perm. now constructor.
  - rewrite insert_asc_perm. now constructor.
Qed.

Lemma sort_In (reverse : bool) (l : list A) (x : A) :
  In x (Py.sort key reverse l) <-> In x l.
Proof.
  split; apply Permutation_in; [|symmetry]; apply sort_perm.
Qed.

Lemma sort_length (reverse : bool) (l : list A) :
  List.length (Py.sort key reverse l) = List.length l.
Proof. apply Permutation_length, sort_perm. Qed.
End SortFacts.

Lemma sort_keys_snd (l : list Parking_spot.t) (keyed : list (Z * Parking_spot.t)) :
  App.sort_keys l = Some keyed -> map snd keyed = l.
Proof.
  revert keyed. induction l as [|x l IH]; simpl; intros keyed H.
  - now injection H as <-.
  - destruct (Py.int _); [|discriminate].
    destruct (App.sort_keys l) as [r|]; [|discriminate].
    injection H as <-. simpl. now rewrite (IH r).
Qed.

End Tables.

(* ================================================================== *)
(** * What a resize deletes *)
(* ================================================================== *)

Section Deletions.

(** The spots [controllers.py] marks for deletion are Available spots of
    the table. *)
Lemma controllers_spots_to_remove_available
      (lot : Parking_lot.t) (n : Z) (d : db) (s : Parking_spot.t) :
  In s (Controllers.spots_to_remove lot n d) ->
  In s (spots d) /\ Parking_spot.status s = "A"
  /\ Parking_spot.parking_lot_id s = Parking_lot.id lot.
Proof.
  unfold Controllers.spots_to_remove.
  destruct (_ <? _); [|intros []].
  intros H. apply In_slice_to, sort_In, filter_In in H.
  destruct H as [H Hst]. apply sort_In in H. unfold spots_of in H.
  apply filter_In in H. destruct H as [H Hl].
  apply String.eqb_eq in Hst. apply Z.eqb_eq in Hl. auto.
Qed.

(** So are the spots [app.py] marks. *)
Lemma app_spots_to_remove_available
      (lot : Parking_lot.t) (n : Z) (d : db) (doomed : list Parking_spot.t)
      (s : Parking_spot.t) :
  App.spots_to_remove lot n d = Some doomed ->
  In s doomed ->
  In s (spots d) /\ Parking_spot.status s = "A"
  /\ Parking_spot.parking_lot_id s = Parking_lot.id lot.
Proof.
  unfold App.spots_to_remove.
  destruct (App.sort_keys _) as [keyed|] eqn:E; [|discriminate].
  intros H. injection H as <-. intros H.
  apply In_slice_to in H. apply in_map_iff in H.
  destruct H as ([k x] & <- & H). apply sort_In in H.
  apply (in_map snd) in H. rewrite (sort_keys_snd _ _ E) in H. simpl in *.
  unfold spots_with_status in H. apply filter_In in H.
  destruct H as [H Hp]. apply andb_true_iff in Hp. destruct Hp as [Hl Hst].
  apply String.eqb_eq in Hst. apply Z.eqb_eq in Hl. auto.
Qed.

Lemma deleted_spots_none (before after : db) :
  incl (map Parking_spot.id (spots before)) (map Parking_spot.id (spots after)) ->
  deleted_spots before after = [].
Proof.
  intros H. unfold deleted_spots.
  destruct (filter _ _) as [|s l] eqn:E; trivial.
  assert (Hin : In s (s :: l)) by now left.
  rewrite <- E in Hin. apply filter_In in Hin. destruct Hin as [Hin Hm].
  apply negb_true_iff in Hm.
  assert (mem (Parking_spot.id s) (map Parking_spot.id (spots after)) = true)
    by (apply mem_In, H; now apply in_map).
  congruence.
Qed.

(** Deleting Available rows of a table with unique keys removes
    Available rows only. *)
Lemma deleted_spots_delete (doomed : list Parking_spot.t) (d after : db) :
  keys_unique d ->
  (forall s, In s doomed -> In s (spots d) /\ Parking_spot.status s = "A") ->
  map Parking_spot.id (spots after)
  = map Parking_spot.id (spots (delete_spots doomed d)) ->
  Forall (fun s => Parking_spot.status s = "A") (deleted_spots d after).
Proof.
  intros Hu Hd Hids. apply Forall_forall. intros s Hs.
  unfold deleted_spots in Hs. apply filter_In in Hs. destruct Hs as [Hin Hm].
  apply negb_true_iff in Hm. rewrite Hids in Hm. simpl in Hm.
  destruct (mem (Parking_spot.id s) (map Parking_spot.id doomed)) eqn:Hdoomed.
  - apply mem_In, in_map_iff in Hdoomed. destruct Hdoomed as (t & E & Ht).
    destruct (Hd t Ht) as [Htin Hst].
    now rewrite (same_key_same_row (spots d) s t Hu Hin Htin (eq_sym E)).
  - exfalso.
    assert (Hc : mem (Parking_spot.id s)
                   (map Parking_spot.id
                      (filter (fun s0 => negb (mem (Parking_spot.id s0)
                                                 (map Parking_spot.id doomed)))
                              (spots d))) = true).
    { apply mem_In, in_map, filter_In. split; trivial. now rewrite Hdoomed. }
    congruence.
Qed.

Lemma renumber_ids (lot_id : Z) (d : db) :
  map Parking_spot.id (spots (Controllers.renumber lot_id d))
  = map Parking_spot.id (spots d).
Proof.
  unfold Controllers.renumber. simpl.
  generalize (Py.enumerate 1 (Py.sort Controllers.get_spot_number false
                                (spots_of lot_id d))).
  intros l. generalize (spots d). induction l as [|[i s] l IH]; intros tbl; simpl.
  - reflexivity.
  - rewrite IH. now apply map_id_update_spot.
Qed.

Lemma normalize_ids (lot_id : Z) (l : list Parking_spot.t) :
  map Parking_spot.id (Controllers.normalize_spots lot_id l) = map Parking_spot.id l.
Proof.
  unfold Controllers.normalize_spots. rewrite map_map. apply map_ext.
  intros s. now destruct (_ =? _).
Qed.

(** The growing branch of [controllers.py] keeps every row, with its
    number standardised, and appends the new spots. *)
Lemma controllers_grow_spots (lot : Parking_lot.t) (n : Z) (d : db) :
  exists new,
    spots (Controllers.grow lot n d)
    = Controllers.normalize_spots (Parking_lot.id lot) (spots d) ++ new
    /\ map Parking_spot.spot_number new
       = map (fun i => Controllers.format_spot_number
                         (Py.Int (Controllers.highest_number
                                    (filter (fun s => Parking_spot.parking_lot_id s
                                                      =? Parking_lot.id lot)
                                            (Controllers.normalize_spots
                                               (Parking_lot.id lot) (spots d)))
                                  + i)))
             (Py.range 1 (n - Parking_lot.max_no_spots lot + 1))
    /\ Forall (fun s => Parking_spot.parking_lot_id s = Parking_lot.id lot
                        /\ Parking_spot.status s = "A"
                        /\ Parking_spot.user_id s = None) new
    /\ (keys_unique d -> keys_unique (Controllers.grow lot n d)).
Proof.
  unfold Controllers.grow, keys_unique. cbn [spots].
  match goal with
  | |- context [fold_left (fun tbl i => add_spot ?l (@?g i) tbl) ?r ?t] =>
      destruct (add_spots_spec l g r t) as (new & E & Hn & Hall & Hnd)
  end.
  exists new. rewrite E. repeat split; trivial.
  intros H. apply Hnd. now rewrite normalize_ids.
Qed.

(** The keys after a request: all the old ones are still there, unless
    the request is a resize that shrinks. *)
Lemma handle_keys (a : application) (r : request) (d : db) :
  keys_unique d ->
  keys_unique (snd (handle a r d))
  /\ Forall (fun s => Parking_spot.status s = "A")
            (deleted_spots d (snd (handle a r d))).
Proof.
  intros Hu.
  assert (Hsame : forall d', map Parking_spot.id (spots d')
                             = map Parking_spot.id (spots d) ->
                             keys_unique d'
                             /\ Forall (fun s => Parking_spot.status s = "A")
                                       (deleted_spots d d')).
  { intros d' E. split; [unfold keys_unique; now rewrite E|].
    rewrite deleted_spots_none; [constructor | rewrite E; apply incl_refl]. }
  assert (Hadd : forall d' new, spots d' = spots d ++ new ->
                                NoDup (map Parking_spot.id (spots d ++ new)) ->
                                keys_unique d'
                                /\ Forall (fun s => Parking_spot.status s = "A")
                                          (deleted_spots d d')).
  { intros d' new E Hn. split; [unfold keys_unique; now rewrite E|].
    rewrite deleted_spots_none; [constructor|].
    rewrite E, map_app. apply incl_appl, incl_refl. }
  assert (Hdel : forall d' doomed,
             (forall s, In s doomed -> In s (spots d) /\ Parking_spot.status s = "A") ->
             map Parking_spot.id (spots d')
             = map Parking_spot.id (spots (delete_spots doomed d)) ->
             keys_unique d'
             /\ Forall (fun s => Parking_spot.status s = "A") (deleted_spots d d')).
  { intros d' doomed Hd E. split.
    - unfold keys_unique. rewrite E. simpl. now apply keys_unique_filter.
    - now apply deleted_spots_delete with (doomed := doomed). }
  assert (Hreserve : forall u now l v,
             let d' := snd (App.reserve_spot u now POST l v d) in
             keys_unique d'
             /\ Forall (fun s => Parking_spot.status s = "A") (deleted_spots d d')).
  { intros u now l v. unfold App.reserve_spot.
    destruct (active_booking_of _ _); [now apply Hsame|].
    destruct (get_lot _ _); [|now apply Hsame].
    destruct (spots_with_status _ _ _); [now apply Hsame|].
    apply Hsame. simpl. now apply map_id_update_spot. }
  assert (Hrelease : forall (c : Q -> Q) u now b,
             let d' := snd (match get_booking b d with
                            | None => (NotFound, d)
                            | Some booking =>
                                if negb (Booking.user_id booking =? User.id u)
                                then (NotYourBooking, d)
                                else
                                  match get_spot (Booking.parking_spot_id booking) d,
                                        get_lot (Booking.parking_lot_id booking) d with
                                  | Some spot, Some lot =>
                                      let cost :=
                                        Py.round2
                                          (c (hours_between (Booking.in_time booking) now)
                                           * Parking_lot.price_per_hour lot)%Q in
                                      (Released cost,
                                       mkdb (lots d)
                                            (update_spot (Parking_spot.id spot)
                                               (Parking_spot.set_occupant "A" None)
                                               (spots d))
                                            (update_booking b (Booking.close now cost)
                                                            (bookings d)))
                                  | _, _ => (ServerError, d)
                                  end
                            end) in
             keys_unique d'
             /\ Forall (fun s => Parking_spot.status s = "A") (deleted_spots d d')).
  { intros c u now b.
    destruct (get_booking _ _); [|now apply Hsame].
    destruct (negb _); [now apply Hsame|].
    destruct (get_spot _ _); [|now apply Hsame].
    destruct (get_lot _ _); [|now apply Hsame].
    apply Hsame. simpl. now apply map_id_update_spot. }
  destruct a, r as [u f|u l f|u now l v|u now b]; simpl.
  - (* app.py, create *)
    unfold App.create_parking_lot.
    destruct (negb _); [now apply Hsame|].
    destruct (App.violates_unique _ _); [now apply Hsame|].
    destruct (add_spots_spec (next_id (map Parking_lot.id (lots d))) App.spot_label
                (Py.range 1 (form_max_no_spots f + 1)) (spots d))
      as (new & E & _ & _ & Hn).
    apply Hadd with (new := new); [exact E | now apply Hn].
  - (* app.py, resize *)
    unfold App.edit_parking_lot.
    destruct (negb _); [now apply Hsame|].
    destruct (get_lot _ _) as [lot|]; [|now apply Hsame].
    destruct (_ <? 1); [now apply Hsame|].
    destruct (_ <? _); [now apply Hsame|].
    destruct (_ >? _).
    + destruct (App.violates_unique _ _); [now apply Hsame|].
      destruct (add_spots_spec (Parking_lot.id lot) App.spot_label
                  (Py.range (Parking_lot.max_no_spots lot + 1)
                            (form_max_no_spots f + 1)) (spots d))
        as (new & E & _ & _ & Hn).
      apply Hadd with (new := new); [exact E | now apply Hn].
    + destruct (_ <? _).
      * destruct (App.spots_to_remove _ _ _) as [doomed|] eqn:E; simpl;
          [|now apply Hsame].
        destruct (App.violates_unique _ _); [now apply Hsame|].
        apply Hdel with (doomed := doomed); [|reflexivity].
        intros s Hs.
        destruct (app_spots_to_remove_available _ _ _ _ s E Hs) as (? & ? & _).
        auto.
      * destruct (App.violates_unique _ _); now apply Hsame.
  - apply Hreserve.
  - apply (Hrelease max0).
  - (* controllers.py, create *)
    unfold Controllers.create_parking_lot.
    destruct (negb _); [now apply Hsame|].
    destruct (add_spots_spec (next_id (map Parking_lot.id (lots d)))
                (fun i => Controllers.format_spot_number (Py.Int i))
                (Py.range 1 (form_max_no_spots f + 1)) (spots d))
      as (new & E & _ & _ & Hn).
    apply Hadd with (new := new); [exact E | now apply Hn].
  - (* controllers.py, resize *)
    unfold Controllers.edit_parking_lot.
    destruct (negb _); [now apply Hsame|].
    destruct (get_lot _ _) as [lot|]; [|now apply Hsame].
    destruct (_ <? _); [now apply Hsame|].
    destruct (_ >? _).
    + destruct (controllers_grow_spots lot (form_max_no_spots f) d)
        as (new & E & _ & _ & Hn).
      unfold snd. split.
      * unfold keys_unique. rewrite renumber_ids. cbn [spots]. now apply Hn.
      * rewrite deleted_spots_none; [constructor|].
        rewrite renumber_ids. cbn [spots].
        rewrite E, map_app, normalize_ids. apply incl_appl, incl_refl.
    + destruct (_ <? _).
      * apply Hdel with (doomed := Controllers.spots_to_remove lot (form_max_no_spots f) d).
        -- intros s Hs.
           destruct (controllers_spots_to_remove_available _ _ _ s Hs) as (? & ? & _).
           auto.
        -- unfold snd. now rewrite renumber_ids.
      * apply Hsame. unfold snd. now rewrite renumber_ids.
  - apply Hreserve.
  - apply (Hrelease (fun x => x)).
Qed.

End Deletions.

(** C2: from any database whose spot keys are unique, along any list of
    create, resize, reserve and release requests, in [app.py] and in
    [controllers.py], every spot row a request deletes has status 'A' at
    that moment; none has status 'O'. *)
Theorem resize_never_deletes_occupied (a : application) (rs : list request) (d : db) :
  keys_unique d ->
  Forall (fun s => Parking_spot.status s = "A" /\ Parking_spot.status s <> "O")
         (deleted_along a rs d).
Proof.
  revert d. induction rs as [|r rs IH]; intros d Hu; simpl; [constructor|].
  destruct (handle_keys a r d Hu) as [Hu' Hdel].
  apply Forall_app. split; [|now apply IH].
  eapply Forall_impl; [|exact Hdel].
  intros s E. split; [exact E|]. rewrite E. discriminate.
Qed.

Lemma resize_never_deletes_occupied_witness :
  deleted_along ControllersPy (fill_and_free ++ [ResizeLot admin 1 (form_of 2)]) empty_db
  = [Parking_spot.mk 2 1 "S2" "A" None]
  /\ Forall (fun s => Parking_spot.status s = "A" /\ Parking_spot.status s <> "O")
            (deleted_along ControllersPy
               (fill_and_free ++ [ResizeLot admin 1 (form_of 2)]) empty_db).
Proof.
  split; [reflexivity|].
  apply (resize_never_deletes_occupied ControllersPy
           (fill_and_free ++ [ResizeLot admin 1 (form_of 2)]) empty_db).
  unfold keys_unique. simpl. constructor.
Defined.

(** C1, in [app.py]: a lot has S1 and S2 Available and S3 Occupied; an
    admin resizes it from 3 to 2.  The request succeeds and deletes S2,
    the highest Available spot; the lot now has capacity 2 and the
    ordinals 1 and 3.  [controllers.py], which renumbers, leaves the
    ordinals 1 and 2 on the same requests. *)
Theorem app_edit_parking_lot_leaves_gap :
  let d := last_spot_taken AppPy in
  let r := App.edit_parking_lot admin POST 1 (form_of 2) d in
  ordinals 1 d = [1; 2; 3]
  /\ fst r = LotUpdated
  /\ capacity 1 (snd r) = Some 2
  /\ ordinals 1 (snd r) = [1; 3]
  /\ ordinals 1 (snd (Controllers.edit_parking_lot admin POST 1 (form_of 2)
                        (last_spot_taken ControllersPy))) = [1; 2].
Proof. vm_compute. repeat split; reflexivity. Qed.

(** C4, in [app.py]: the lot of capacity 2 with the spots S1 and S3 is
    resized to 3.  The new spot is numbered from the recorded capacity:
    it is a second S3, next to the S3 that is in use.  [controllers.py]
    numbers the new spot after the highest number in use. *)
Theorem app_edit_parking_lot_reuses_number :
  let d := run AppPy [ResizeLot admin 1 (form_of 2)] (last_spot_taken AppPy) in
  let r := App.edit_parking_lot admin POST 1 (form_of 3) d in
  map Parking_spot.spot_number (spots_of 1 d) = ["S1"; "S3"]
  /\ capacity 1 d = Some 2
  /\ fst r = LotUpdated
  /\ map Parking_spot.spot_number (spots_of 1 (snd r)) = ["S1"; "S3"; "S3"]
  /\ map Parking_spot.spot_number
         (spots_of 1 (Controllers.grow (Parking_lot.mk 1 "Central" "1 Main Road"
                                                        "600001" 60 2) 3 d))
     = ["S1"; "S3"; "S4"].
Proof. vm_compute. repeat split; reflexivity. Qed.

(* ================================================================== *)
(** * Sorting by spot number *)
(* ================================================================== *)

Section SortedFacts.

Context {A : Type} (key : A -> Z).

Lemma insert_asc_sorted (x : A) (l : list A) :
  StronglySorted (key_le key) l -> StronglySorted (key_le key) (Py.insert_asc key x l).
Proof.
  induction l as [|y l IH]; intros Hs; cbn [Py.insert_asc].
  - repeat constructor.
  - apply StronglySorted_inv in Hs. destruct Hs as [Hl Hy].
    destruct (Z.leb_spec (key x) (key y)) as [Hle|Hgt].
    + constructor; [constructor; trivial|].
      constructor; [exact Hle|].
      eapply Forall_impl; [|exact Hy]. unfold key_le. intros z Hz. lia.
    + constructor; [now apply IH|].
      eapply Permutation_Forall.
      * symmetry. apply insert_asc_perm.
      * constructor; [unfold key_le; lia | exact Hy].
Qed.

Lemma sort_asc_sorted (l : list A) :
  StronglySorted (key_le key) (Py.sort key false l).
Proof.
  unfold Py.sort. induction l as [|x l IH]; cbn [fold_right].
  - constructor.
  - now apply insert_asc_sorted.
Qed.

(** Sorting leaves a list alone that is in ascending order already:
    the sort is stable. *)
Lemma sort_asc_of_sorted (l : list A) :
  StronglySorted (key_le key) l -> Py.sort key false l = l.
Proof.
  unfold Py.sort. induction l as [|x l IH]; intros Hs; cbn [fold_right]; trivial.
  apply StronglySorted_inv in Hs. destruct Hs as [Hl Hx].
  rewrite IH by trivial. destruct l as [|y l]; trivial.
  cbn [Py.insert_asc]. apply Forall_inv in Hx. unfold key_le in Hx.
  destruct (Z.leb_spec (key x) (key y)); [trivial|lia].
Qed.

End SortedFacts.

(* ================================================================== *)
(** * The renumbering loop of [controllers.py] *)
(* ================================================================== *)

Section Renumbering.

Lemma index_of_not_in (k : Z) (ids : list Z) : ~ In k ids -> index_of k ids = None.
Proof.
  induction ids as [|x ids IH]; intros Hk; cbn [index_of]; trivial.
  destruct (Z.eqb_spec x k) as [->|Hne]; [exfalso; apply Hk; now left|].
  rewrite IH; [reflexivity|]. intros H. apply Hk. now right.
Qed.

Lemma index_of_in (k : Z) (ids : list Z) :
  In k ids -> exists j, index_of k ids = Some j /\ 0 <= j < Z.of_nat (List.length ids).
Proof.
  induction ids as [|x ids IH]; intros Hk; [destruct Hk|].
  cbn [index_of List.length]. destruct (Z.eqb_spec x k) as [->|Hne].
  - exists 0. split; [reflexivity|lia].
  - destruct Hk as [->|Hk]; [congruence|].
    destruct (IH Hk) as (j & -> & Hj). exists (Z.succ j). split; [reflexivity|lia].
Qed.

Lemma index_of_some_in (k j : Z) (ids : list Z) : index_of k ids = Some j -> In k ids.
Proof.
  intros H. destruct (in_dec Z.eq_dec k ids) as [Hin|Hout]; trivial.
  rewrite index_of_not_in in H by trivial. discriminate.
Qed.

(** The places of the keys of a duplicate-free list are 0, 1, 2, ... *)
Lemma index_of_own_keys (ids : list Z) :
  NoDup ids ->
  map (fun k => index_of k ids) ids
  = map (fun i => Some (Z.of_nat i)) (seq 0 (List.length ids)).
Proof.
  induction ids as [|x ids IH]; intros Hn; trivial.
  apply NoDup_cons_iff in Hn. destruct Hn as [Hx Hn].
  cbn [map List.length seq index_of]. rewrite Z.eqb_refl. f_equal.
  rewrite <- seq_shift, map_map.
  transitivity (map (option_map Z.succ) (map (fun k => index_of k ids) ids)).
  - rewrite map_map. apply map_ext_in. intros k Hk.
    destruct (Z.eqb_spec x k) as [->|_]; [contradiction|reflexivity].
  - rewrite IH by trivial. rewrite map_map. apply map_ext. intros i.
    cbn [option_map]. f_equal. lia.
Qed.

Lemma ordinal_set_number (n : Z) (s : Parking_spot.t) :
  ordinal (Parking_spot.set_spot_number (Controllers.format_spot_number (Py.Int n)) s) = n.
Proof.
  unfold ordinal, Controllers.get_spot_number, Controllers.format_spot_number.
  cbn [Parking_spot.spot_number Parking_spot.set_spot_number].
  change (Py.remove_char "S" (Py.upper (String "S" (Py.str n))))
    with (Py.remove_char "S" (Py.upper (Py.str n))).
  now rewrite strip_tag_str, int_str.
Qed.

Lemma renumbered_id (sorted : list Parking_spot.t) (start : Z) (s : Parking_spot.t) :
  Parking_spot.id (renumbered sorted start s) = Parking_spot.id s
  /\ Parking_spot.parking_lot_id (renumbered sorted start s)
     = Parking_spot.parking_lot_id s
  /\ Parking_spot.status (renumbered sorted start s) = Parking_spot.status s
  /\ Parking_spot.user_id (renumbered sorted start s) = Parking_spot.user_id s.
Proof. unfold renumbered. destruct (index_of _ _); auto. Qed.

Lemma ordinal_renumbered (sorted : list Parking_spot.t) (start j : Z)
      (s : Parking_spot.t) :
  index_of (Parking_spot.id s) (map Parking_spot.id sorted) = Some j ->
  ordinal (renumbered sorted start s) = start + j.
Proof. intros E. unfold renumbered. rewrite E. apply ordinal_set_number. Qed.

(** The loop [for i, spot in enumerate(all_spots, start)] over rows with
    distinct keys rewrites the table row by row. *)
Lemma renumber_fold (sorted : list Parking_spot.t) :
  NoDup (map Parking_spot.id sorted) ->
  forall start tbl,
    fold_left
      (fun tbl '(i, spot) =>
         update_spot (Parking_spot.id spot)
           (Parking_spot.set_spot_number (Controllers.format_spot_number (Py.Int i))) tbl)
      (Py.enumerate start sorted) tbl
    = map (renumbered sorted start) tbl.
Proof.
  induction sorted as [|x sorted IH]; intros Hn start tbl.
  - cbn [Py.enumerate fold_left]. unfold renumbered. cbn [map index_of].
    symmetry. apply map_id.
  - cbn [map] in Hn. apply NoDup_cons_iff in Hn. destruct Hn as [Hx Hn].
    cbn [Py.enumerate fold_left]. rewrite IH by trivial.
    unfold update_spot. rewrite map_map. apply map_ext. intros s.
    unfold renumbered. cbn [map index_of].
    destruct (Z.eqb_spec (Parking_spot.id s) (Parking_spot.id x)) as [E|Hne].
    + cbn [Parking_spot.id Parking_spot.set_spot_number].
      rewrite E, Z.eqb_refl, index_of_not_in by trivial.
      now rewrite Z.add_0_r.
    + destruct (Z.eqb_spec (Parking_spot.id x) (Parking_spot.id s)) as [E|_];
        [congruence|].
      destruct (index_of _ _) as [j|]; cbn [option_map]; trivial.
      do 3 f_equal. lia.
Qed.

Lemma sorted_spots_keys (lot_id : Z) (d : db) :
  keys_unique d ->
  NoDup (map Parking_spot.id (Py.sort ordinal false (spots_of lot_id d))).
Proof.
  intros Hu. eapply Permutation_NoDup.
  - apply Permutation_map. symmetry. apply sort_perm.
  - unfold spots_of. now apply keys_unique_filter.
Qed.

(** What the renumbering does to the spot table. *)
Lemma renumber_spots (lot_id : Z) (d : db) :
  keys_unique d ->
  spots (Controllers.renumber lot_id d)
  = map (renumbered (Py.sort ordinal false (spots_of lot_id d)) 1) (spots d).
Proof.
  intros Hu. unfold Controllers.renumber. cbn [spots].
  apply (renumber_fold (Py.sort ordinal false (spots_of lot_id d))).
  now apply sorted_spots_keys.
Qed.

Lemma filter_map_same {A} (p : A -> bool) (g : A -> A) (l : list A) :
  (forall x, p (g x) = p x) -> filter p (map g l) = map g (filter p l).
Proof.
  intros Hp. induction l as [|x l IH]; cbn [map filter]; trivial.
  rewrite Hp. destruct (p x); cbn [map]; now rewrite IH.
Qed.

Lemma spots_of_renumber (lot_id other : Z) (d : db) :
  keys_unique d ->
  spots_of other (Controllers.renumber lot_id d)
  = map (renumbered (Py.sort ordinal false (spots_of lot_id d)) 1) (spots_of other d).
Proof.
  intros Hu. unfold spots_of. rewrite renumber_spots by trivial.
  apply filter_map_same. intros s.
  now destruct (renumbered_id (Py.sort ordinal false
                                 (filter (fun s0 => Parking_spot.parking_lot_id s0 =? lot_id)
                                         (spots d))) 1 s) as (_ & -> & _).
Qed.

(** Rows of another lot keep their number. *)
Lemma renumbered_other_lot (lot_id : Z) (d : db) (s : Parking_spot.t) :
  Parking_spot.parking_lot_id s <> lot_id ->
  In s (spots d) -> keys_unique d ->
  renumbered (Py.sort ordinal false (spots_of lot_id d)) 1 s = s.
Proof.
  intros Hl Hin Hu. unfold renumbered.
  rewrite index_of_not_in; trivial.
  intros H. apply in_map_iff in H. destruct H as (t & E & Ht).
  apply sort_In in Ht. unfold spots_of in Ht. apply filter_In in Ht.
  destruct Ht as [Ht Hlt]. apply Z.eqb_eq in Hlt.
  rewrite (same_key_same_row (spots d) s t Hu Hin Ht (eq_sym E)) in Hl.
  contradiction.
Qed.

Lemma range_from_1 (n : nat) :
  Py.range 1 (Z.of_nat n + 1) = map (fun i => 1 + Z.of_nat i) (seq 0 n).
Proof.
  unfold Py.range. replace (Z.to_nat (Z.of_nat n + 1 - 1)) with n by lia.
  reflexivity.
Qed.

(** Read in sorted order, the new numbers are 1, 2, ..., n. *)
Lemma ordinals_renumbered_sorted (sorted : list Parking_spot.t) :
  NoDup (map Parking_spot.id sorted) ->
  map ordinal (map (renumbered sorted 1) sorted)
  = Py.range 1 (Z.of_nat (List.length sorted) + 1).
Proof.
  intros Hn. rewrite range_from_1.
  pose proof (index_of_own_keys (map Parking_spot.id sorted) Hn) as E.
  rewrite map_map in E. rewrite length_map in E.
  rewrite map_map.
  transitivity (map (fun o => match o with Some j => 1 + j | None => 0 end)
                    (map (fun s => index_of (Parking_spot.id s)
                                            (map Parking_spot.id sorted)) sorted)).
  - rewrite map_map. apply map_ext_in. intros s Hs.
    destruct (index_of_in (Parking_spot.id s) (map Parking_spot.id sorted))
      as (j & Ej & _); [now apply in_map|].
    rewrite Ej. now apply ordinal_renumbered.
  - rewrite E, map_map. reflexivity.
Qed.

End Renumbering.

Section RenumberedLot.

Lemma renumber_perm (lot_id : Z) (d : db) :
  keys_unique d ->
  Permutation (ordinals lot_id (Controllers.renumber lot_id d))
              (Py.range 1 (Z.of_nat (List.length (spots_of lot_id d)) + 1)).
Proof.
  intros Hu. unfold ordinals. rewrite spots_of_renumber by trivial.
  set (S := Py.sort ordinal false (spots_of lot_id d)).
  rewrite <- (sort_length ordinal false (spots_of lot_id d)). fold S.
  rewrite <- ordinals_renumbered_sorted by (now apply sorted_spots_keys).
  do 2 apply Permutation_map. symmetry. apply sort_perm.
Qed.

Lemma renumber_other (lot_id other : Z) (d : db) :
  keys_unique d -> other <> lot_id ->
  spots_of other (Controllers.renumber lot_id d) = spots_of other d.
Proof.
  intros Hu Hne. rewrite spots_of_renumber by trivial.
  rewrite <- (map_id (spots_of other d)) at 2.
  apply map_ext_in. intros s Hs. unfold spots_of in Hs.
  apply filter_In in Hs. destruct Hs as [Hin Hl]. apply Z.eqb_eq in Hl.
  apply renumbered_other_lot; trivial. congruence.
Qed.

End RenumberedLot.

(** After the renumbering loop of [controllers.py], on a table with
    unique keys, the ordinals of the lot's spots are 1, ..., n, each
    once, where n is the number of spots of the lot; no row of the table
    is added or dropped, and rows of other lots are left as they were. *)
Theorem renumber_ordinals (lot_id : Z) (d : db) :
  keys_unique d ->
  Permutation (ordinals lot_id (Controllers.renumber lot_id d))
              (Py.range 1 (Z.of_nat (List.length (spots_of lot_id d)) + 1))
  /\ map Parking_spot.id (spots (Controllers.renumber lot_id d))
     = map Parking_spot.id (spots d)
  /\ forall other, other <> lot_id ->
                   spots_of other (Controllers.renumber lot_id d) = spots_of other d.
Proof.
  intros Hu. split; [|split].
  - now apply renumber_perm.
  - apply renumber_ids.
  - intros other Hne. now apply renumber_other.
Qed.

Lemma renumber_ordinals_witness :
  ordinals 1 (last_spot_taken AppPy) = [1; 2; 3]
  /\ Permutation
       (ordinals 1 (Controllers.renumber 1
                      (run AppPy [ResizeLot admin 1 (form_of 2)] (last_spot_taken AppPy))))
       [1; 2].
Proof.
  split; [reflexivity|].
  apply (renumber_ordinals 1
           (run AppPy [ResizeLot admin 1 (form_of 2)] (last_spot_taken AppPy))).
  unfold keys_unique. vm_compute. repeat constructor; simpl; intuition discriminate.
Defined.

Section OrderKept.

Lemma sorted_index_lt (key : Parking_spot.t -> Z) (sorted : list Parking_spot.t)
      (s t : Parking_spot.t) :
  StronglySorted (key_le key) sorted ->
  NoDup (map Parking_spot.id sorted) ->
  In s sorted -> In t sorted -> key s < key t ->
  exists i j,
    index_of (Parking_spot.id s) (map Parking_spot.id sorted) = Some i
    /\ index_of (Parking_spot.id t) (map Parking_spot.id sorted) = Some j
    /\ i < j.
Proof.
  induction sorted as [|x sorted IH]; intros Hs Hn Hins Hint Hlt; [destruct Hins|].
  apply StronglySorted_inv in Hs. destruct Hs as [Hs Hx].
  cbn [map] in Hn. apply NoDup_cons_iff in Hn. destruct Hn as [Hfresh Hn].
  rewrite Forall_forall in Hx. unfold key_le in Hx.
  assert (Hin_id : forall r, In r sorted -> Parking_spot.id x <> Parking_spot.id r).
  { intros r Hr E. apply Hfresh. rewrite E. now apply in_map. }
  cbn [map index_of].
  destruct Hins as [<-|Hins], Hint as [<-|Hint].
  - lia.
  - rewrite Z.eqb_refl.
    destruct (Z.eqb_spec (Parking_spot.id x) (Parking_spot.id t)) as [E|_];
      [now apply Hin_id in E|].
    destruct (index_of_in (Parking_spot.id t) (map Parking_spot.id sorted))
      as (j & -> & Hj); [now apply in_map|].
    exists 0, (Z.succ j). repeat split; trivial. lia.
  - specialize (Hx s Hins). lia.
  - destruct (Z.eqb_spec (Parking_spot.id x) (Parking_spot.id s)) as [E|_];
      [now apply Hin_id in E|].
    destruct (Z.eqb_spec (Parking_spot.id x) (Parking_spot.id t)) as [E|_];
      [now apply Hin_id in E|].
    destruct (IH Hs Hn Hins Hint Hlt) as (i & j & -> & -> & Hij).
    exists (Z.succ i), (Z.succ j). repeat split; trivial. lia.
Qed.

Lemma get_spot_row (d : db) (s : Parking_spot.t) :
  keys_unique d -> In s (spots d) -> get_spot (Parking_spot.id s) d = Some s.
Proof.
  intros Hu Hin. unfold get_spot.
  destruct (find_In_some (fun r => Parking_spot.id r =? Parking_spot.id s)
                         (spots d) s Hin (Z.eqb_refl _)) as (r & E).
  rewrite E. f_equal. apply find_some in E. destruct E as [Hr E].
  apply Z.eqb_eq in E. symmetry.
  now apply (same_key_same_row (spots d) s r Hu Hin Hr).
Qed.

Lemma get_spot_renumber (k lot_id : Z) (d : db) :
  keys_unique d ->
  get_spot k (Controllers.renumber lot_id d)
  = option_map (renumbered (Py.sort ordinal false (spots_of lot_id d)) 1)
               (get_spot k d).
Proof.
  intros Hu. unfold get_spot. rewrite renumber_spots by trivial.
  generalize (spots d). intros l. induction l as [|x l IH]; cbn [map find]; trivial.
  destruct (renumbered_id (Py.sort ordinal false (spots_of lot_id d)) 1 x) as (-> & _).
  destruct (Parking_spot.id x =? k); trivial.
Qed.

End OrderKept.

(** The renumbering keeps the spots of the lot in the order of their
    previous ordinals: of two spots of the lot, the one whose ordinal was
    lower has the lower ordinal afterwards; and every spot keeps its lot,
    its status and its occupant. *)
Theorem renumber_keeps_order (lot_id : Z) (d : db) (s t : Parking_spot.t) :
  keys_unique d ->
  In s (spots_of lot_id d) -> In t (spots_of lot_id d) ->
  ordinal s < ordinal t ->
  exists s' t',
    get_spot (Parking_spot.id s) (Controllers.renumber lot_id d) = Some s'
    /\ get_spot (Parking_spot.id t) (Controllers.renumber lot_id d) = Some t'
    /\ ordinal s' < ordinal t'
    /\ Parking_spot.status s' = Parking_spot.status s
    /\ Parking_spot.user_id s' = Parking_spot.user_id s
    /\ Parking_spot.status t' = Parking_spot.status t
    /\ Parking_spot.user_id t' = Parking_spot.user_id t.
Proof.
  intros Hu Hs Ht Hlt.
  set (S := Py.sort ordinal false (spots_of lot_id d)).
  assert (Hs' : In s (spots d)) by (unfold spots_of in Hs; now apply filter_In in Hs).
  assert (Ht' : In t (spots d)) by (unfold spots_of in Ht; now apply filter_In in Ht).
  destruct (sorted_index_lt ordinal S s t) as (i & j & Ei & Ej & Hij); trivial.
  - apply sort_asc_sorted.
  - now apply sorted_spots_keys.
  - now apply sort_In.
  - now apply sort_In.
  - exists (renumbered S 1 s), (renumbered S 1 t).
    rewrite !get_spot_renumber, !get_spot_row by trivial. fold S.
    split; [reflexivity|]. split; [reflexivity|].
    rewrite (ordinal_renumbered S 1 i s Ei), (ordinal_renumbered S 1 j t Ej).
    split; [lia|].
    destruct (renumbered_id S 1 s) as (_ & _ & -> & ->).
    destruct (renumbered_id S 1 t) as (_ & _ & -> & ->). auto.
Qed.

Lemma renumber_keeps_order_witness :
  exists s' t',
    get_spot 1 (Controllers.renumber 1
                  (run AppPy [ResizeLot admin 1 (form_of 2)] (last_spot_taken AppPy)))
    = Some s'
    /\ get_spot 3 (Controllers.renumber 1
                     (run AppPy [ResizeLot admin 1 (form_of 2)] (last_spot_taken AppPy)))
       = Some t'
    /\ ordinal s' < ordinal t'.
Proof.
  destruct (renumber_keeps_order 1
              (run AppPy [ResizeLot admin 1 (form_of 2)] (last_spot_taken AppPy))
              (Parking_spot.mk 1 1 "S1" "A" None)
              (Parking_spot.mk 3 1 "S3" "O" (Some 4)))
    as (s' & t' & E1 & E2 & H & _).
  - unfold keys_unique. vm_compute. repeat constructor; simpl; intuition discriminate.
  - vm_compute. auto.
  - vm_compute. auto.
  - reflexivity.
  - exists s', t'. auto.
Defined.

(* ================================================================== *)
(** * Counting the spots of a lot through a resize *)
(* ================================================================== *)

Section Counting.

Lemma filter_perm_length {A} (p : A -> bool) (l l' : list A) :
  Permutation l l' -> List.length (filter p l) = List.length (filter p l').
Proof.
  induction 1 as [|x l l' _ IH|x y l|l l' l'' _ IH1 _ IH2]; cbn [filter]; trivial.
  - destruct (p x); cbn [List.length]; now rewrite IH.
  - destruct (p x), (p y); reflexivity.
  - now rewrite IH1.
Qed.

Lemma filter_swap {A} (p q : A -> bool) (l : list A) :
  filter p (filter q l) = filter q (filter p l).
Proof.
  induction l as [|x l IH]; trivial. cbn [filter].
  destruct (q x) eqn:Eq, (p x) eqn:Ep; cbn [filter]; rewrite ?Eq, ?Ep, IH; reflexivity.
Qed.

Lemma filter_both {A} (p q : A -> bool) (l : list A) :
  filter q (filter p l) = filter (fun x => p x && q x) l.
Proof.
  induction l as [|x l IH]; trivial. cbn [filter].
  destruct (p x); cbn [filter andb]; [destruct (q x)|]; now rewrite IH.
Qed.

(** Available and Occupied rows make up a list of rows that are one or
    the other. *)
Lemma status_partition (l : list Parking_spot.t) :
  (forall s, In s l -> Parking_spot.status s = "A" \/ Parking_spot.status s = "O") ->
  (List.length (filter (fun s => String.eqb (Parking_spot.status s) "O") l)
   + List.length (filter (fun s => String.eqb (Parking_spot.status s) "A") l)
   = List.length l)%nat.
Proof.
  induction l as [|x l IH]; intros H; trivial.
  cbn [filter]. specialize (IH (fun s Hs => H s (or_intror Hs))).
  destruct (H x (or_introl eq_refl)) as [E|E]; rewrite E; cbn [String.eqb];
    cbn; cbn [List.length]; lia.
Qed.

Lemma keys_unique_firstn (n : nat) (l : list Parking_spot.t) :
  NoDup (map Parking_spot.id l) -> NoDup (map Parking_spot.id (firstn n l)).
Proof.
  intros H. rewrite <- (firstn_skipn n l), map_app in H.
  now apply NoDup_app_remove_r in H.
Qed.

(** Deleting [doomed], rows of [l] with distinct keys, leaves as many
    rows as [l] has more than [doomed]. *)
Lemma length_after_delete (l doomed : list Parking_spot.t) :
  NoDup (map Parking_spot.id l) -> NoDup (map Parking_spot.id doomed) ->
  incl doomed l ->
  (List.length
     (filter (fun s => negb (mem (Parking_spot.id s) (map Parking_spot.id doomed))) l)
   + List.length doomed = List.length l)%nat.
Proof.
  intros Hl Hd Hincl.
  set (kept := filter _ l).
  assert (P : Permutation (map Parking_spot.id kept ++ map Parking_spot.id doomed)
                          (map Parking_spot.id l)).
  { apply NoDup_Permutation; trivial.
    - apply NoDup_app; trivial.
      + unfold kept. now apply keys_unique_filter.
      + intros k Hk Hk'. apply in_map_iff in Hk. destruct Hk as (s & <- & Hs).
        unfold kept in Hs. apply filter_In in Hs. destruct Hs as [_ Hs].
        apply negb_true_iff in Hs. apply mem_In in Hk'. congruence.
    - intros k. rewrite in_app_iff. split.
      + intros [H|H]; apply in_map_iff in H; destruct H as (s & <- & Hs);
          apply in_map.
        * unfold kept in Hs. now apply filter_In in Hs.
        * now apply Hincl.
      + intros H. apply in_map_iff in H. destruct H as (s & <- & Hs).
        destruct (mem (Parking_spot.id s) (map Parking_spot.id doomed)) eqn:E.
        * right. now apply mem_In.
        * left. apply in_map. unfold kept. apply filter_In. now rewrite E. }
  apply Permutation_length in P. rewrite length_app, !length_map in P. exact P.
Qed.

Lemma spots_of_delete (lot_id : Z) (doomed : list Parking_spot.t) (d : db) :
  spots_of lot_id (delete_spots doomed d)
  = filter (fun s => negb (mem (Parking_spot.id s) (map Parking_spot.id doomed)))
           (spots_of lot_id d).
Proof. unfold spots_of, delete_spots. cbn [spots]. apply filter_swap. Qed.

Lemma occupied_count_sorted (lot_id : Z) (d : db) :
  Z.of_nat (List.length (filter (fun s => String.eqb (Parking_spot.status s) "O")
                                (Py.sort Controllers.get_spot_number false
                                         (spots_of lot_id d))))
  = occupied_count lot_id d.
Proof.
  unfold occupied_count, spots_with_status. f_equal.
  rewrite (filter_perm_length _ _ _ (sort_perm _ false (spots_of lot_id d))).
  unfold spots_of. now rewrite filter_both.
Qed.

(** The shrinking branch of [controllers.py] leaves exactly the target
    number of spots in a lot that had as many spots as its capacity. *)
Lemma controllers_shrink_count (lot : Parking_lot.t) (n : Z) (d : db) :
  keys_unique d -> statuses_ok d ->
  occupied_count (Parking_lot.id lot) d <= n ->
  n < Z.of_nat (List.length (spots_of (Parking_lot.id lot) d)) ->
  Z.of_nat (List.length (spots_of (Parking_lot.id lot) (Controllers.shrink lot n d))) = n.
Proof.
  intros Hu Hst Hocc Hn.
  unfold Controllers.shrink. rewrite spots_of_delete.
  assert (Hincl : incl (Controllers.spots_to_remove lot n d)
                       (spots_of (Parking_lot.id lot) d)).
  { intros s Hs.
    destruct (controllers_spots_to_remove_available lot n d s Hs) as (Hin & _ & Hl).
    unfold spots_of. apply filter_In. split; trivial. now apply Z.eqb_eq. }
  assert (HL : NoDup (map Parking_spot.id (spots_of (Parking_lot.id lot) d)))
    by (unfold spots_of; now apply keys_unique_filter).
  set (L := spots_of (Parking_lot.id lot) d) in *.
  pose proof (occupied_count_sorted (Parking_lot.id lot) d) as Eocc. fold L in Eocc.
  assert (Hpart : (List.length
                     (filter (fun s => String.eqb (Parking_spot.status s) "O")
                             (Py.sort Controllers.get_spot_number false L))
                   + List.length
                       (filter (fun s => String.eqb (Parking_spot.status s) "A")
                               (Py.sort Controllers.get_spot_number false L))
                   = List.length L)%nat).
  { rewrite status_partition; [apply sort_length|].
    intros s Hs. apply sort_In in Hs. apply Hst. unfold L, spots_of in Hs.
    now apply filter_In in Hs. }
  assert (Hlen : Z.of_nat (List.length (Controllers.spots_to_remove lot n d))
                 = Z.of_nat (List.length L) - n).
  { unfold Controllers.spots_to_remove. fold L.
    set (occ := filter _ (Py.sort Controllers.get_spot_number false L)) in *.
    set (av := filter (fun s => String.eqb (Parking_spot.status s) "A")
                      (Py.sort Controllers.get_spot_number false L)) in *.
    rewrite sort_length.
    destruct (Z.ltb_spec (n - Z.of_nat (List.length occ)) (Z.of_nat (List.length av)))
      as [_|Hge]; [|lia].
    unfold Py.slice_to.
    destruct (Z.ltb_spec (Z.of_nat (List.length av) - (n - Z.of_nat (List.length occ))) 0)
      as [Hneg|_]; [lia|].
    rewrite length_firstn, sort_length. lia. }
  assert (HD : NoDup (map Parking_spot.id (Controllers.spots_to_remove lot n d))).
  { unfold Controllers.spots_to_remove. fold L.
    destruct (_ <? _); [|constructor].
    unfold Py.slice_to. destruct (_ <? 0); apply keys_unique_firstn;
      (eapply Permutation_NoDup;
       [apply Permutation_map; symmetry; apply sort_perm|]);
      apply keys_unique_filter;
      (eapply Permutation_NoDup;
       [apply Permutation_map; symmetry; apply sort_perm|]); exact HL. }
  pose proof (length_after_delete L _ HL HD Hincl). lia.
Qed.

(** The growing branch of [controllers.py] adds the difference between
    the target and the recorded capacity. *)
Lemma controllers_grow_count (lot : Parking_lot.t) (n : Z) (d : db) :
  Parking_lot.max_no_spots lot < n ->
  Z.of_nat (List.length (spots_of (Parking_lot.id lot) (Controllers.grow lot n d)))
  = Z.of_nat (List.length (spots_of (Parking_lot.id lot) d))
    + (n - Parking_lot.max_no_spots lot).
Proof.
  intros Hn.
  destruct (controllers_grow_spots lot n d) as (new & E & Hnum & Hall & _).
  unfold spots_of. rewrite E, filter_app, length_app.
  assert (Hnew : filter (fun s => Parking_spot.parking_lot_id s =? Parking_lot.id lot) new
                 = new).
  { apply forallb_filter_id, forallb_forall. rewrite Forall_forall in Hall.
    intros s Hs. apply Z.eqb_eq. now apply Hall. }
  rewrite Hnew.
  assert (Hlen : List.length new = Z.to_nat (n - Parking_lot.max_no_spots lot)).
  { rewrite <- (length_map Parking_spot.spot_number), Hnum, length_map.
    unfold Py.range. rewrite length_map, length_seq. f_equal. lia. }
  unfold Controllers.normalize_spots.
  rewrite filter_map_same, length_map.
  - lia.
  - intros s. now destruct (Parking_spot.parking_lot_id s =? Parking_lot.id lot) eqn:Es;
      cbn [Parking_spot.parking_lot_id Parking_spot.set_spot_number]; rewrite ?Es.
Qed.

Lemma capacity_after_update (lot_id : Z) (lot : Parking_lot.t)
      (ls : list Parking_lot.t) (ss : list Parking_spot.t) (bs : list Booking.t)
      (f : Parking_lot.t -> Parking_lot.t) :
  find (fun l => Parking_lot.id l =? lot_id) ls = Some lot ->
  (forall l, Parking_lot.id (f l) = Parking_lot.id l) ->
  get_lot lot_id (mkdb (update_lot (Parking_lot.id lot) f ls) ss bs) = Some (f lot).
Proof.
  intros Hl Hf. unfold get_lot, update_lot. cbn [lots].
  rewrite (find_update Parking_lot.id f lot_id (Parking_lot.id lot) ls Hf), Hl.
  cbn [option_map]. now rewrite Z.eqb_refl.
Qed.

End Counting.

(** [controllers.py], [edit_parking_lot]: on a database with unique spot
    keys whose spots are Available or Occupied, for a lot that has as many
    spots as its recorded capacity, an admin's POST with a target not
    below the number of occupied spots succeeds; afterwards the recorded
    capacity is the target, the lot has that many spots, and their
    ordinals are 1, ..., target, each once. *)
Theorem controllers_edit_parking_lot_contiguous
  (current_user : User.t) (lot_id : Z) (form : lot_form) (d : db)
  (lot : Parking_lot.t) :
  User.is_admin current_user = true ->
  get_lot lot_id d = Some lot ->
  keys_unique d -> statuses_ok d ->
  Parking_lot.max_no_spots lot = Z.of_nat (List.length (spots_of lot_id d)) ->
  occupied_count lot_id d <= form_max_no_spots form ->
  fst (Controllers.edit_parking_lot current_user POST lot_id form d) = LotUpdated
  /\ capacity lot_id (snd (Controllers.edit_parking_lot current_user POST lot_id form d))
     = Some (form_max_no_spots form)
  /\ Z.of_nat (List.length
                 (spots_of lot_id
                    (snd (Controllers.edit_parking_lot current_user POST lot_id form d))))
     = form_max_no_spots form
  /\ Permutation
       (ordinals lot_id
          (snd (Controllers.edit_parking_lot current_user POST lot_id form d)))
       (Py.range 1 (form_max_no_spots form + 1)).
Proof.
  intros Ha Hl Hu Hst Hcap Hocc.
  pose proof (get_lot_id _ _ _ Hl) as Hid.
  unfold Controllers.edit_parking_lot. rewrite Ha, Hl. cbn [negb].
  rewrite Hid. fold (occupied_count lot_id d).
  destruct (Z.ltb_spec (form_max_no_spots form) (occupied_count lot_id d)) as [?|_];
    [lia|].
  set (n := form_max_no_spots form) in *.
  set (d1 := if n >? Parking_lot.max_no_spots lot then Controllers.grow lot n d
             else if n <? Parking_lot.max_no_spots lot then Controllers.shrink lot n d
                  else d).
  assert (H1 : keys_unique d1 /\ Z.of_nat (List.length (spots_of lot_id d1)) = n).
  { unfold d1. rewrite Z.gtb_ltb.
    destruct (Z.ltb_spec (Parking_lot.max_no_spots lot) n) as [Hgrow|Hle].
    - split.
      + destruct (controllers_grow_spots lot n d) as (_ & _ & _ & _ & H). now apply H.
      + rewrite <- Hid, controllers_grow_count by trivial. rewrite Hid. lia.
    - destruct (Z.ltb_spec n (Parking_lot.max_no_spots lot)) as [Hshrink|Hge].
      + split.
        * unfold keys_unique, Controllers.shrink, delete_spots. cbn [spots].
          now apply keys_unique_filter.
        * rewrite <- Hid. apply controllers_shrink_count; trivial; rewrite Hid; lia.
      + split; [trivial|lia]. }
  destruct H1 as [Hu1 Hn1].
  set (d2 := mkdb _ (spots d1) (bookings d1)).
  assert (Hu2 : keys_unique d2) by exact Hu1.
  cbn [fst snd]. split; [reflexivity|]. split; [|split].
  - unfold capacity, Controllers.renumber.
    change (get_lot lot_id (mkdb (lots d2) _ (bookings d2)))
      with (get_lot lot_id d2).
    unfold d2.
    assert (Hlots : lots d1 = lots d).
    { unfold d1. destruct (_ >? _); [reflexivity|]. now destruct (_ <? _). }
    rewrite Hlots.
    pose proof (capacity_after_update lot_id lot (lots d) (spots d1) (bookings d1)
                  (fun l => set_max_no_spots n (apply_form form l)) Hl
                  (fun l => eq_refl)) as C.
    rewrite Hid in C. rewrite C. reflexivity.
  - pose proof (renumber_perm lot_id d2 Hu2) as P.
    apply Permutation_length in P. unfold ordinals in P.
    rewrite length_map in P. rewrite P.
    change (spots_of lot_id d2) with (spots_of lot_id d1).
    unfold Py.range. rewrite length_map, length_seq. lia.
  - pose proof (renumber_perm lot_id d2 Hu2) as P.
    change (spots_of lot_id d2) with (spots_of lot_id d1) in P.
    now rewrite Hn1 in P.
Qed.

Lemma controllers_edit_parking_lot_contiguous_witness :
  ordinals 1 (snd (Controllers.edit_parking_lot admin POST 1 (form_of 2)
                     (last_spot_taken ControllersPy))) = [1; 2]
  /\ Permutation
       (ordinals 1 (snd (Controllers.edit_parking_lot admin POST 1 (form_of 2)
                           (last_spot_taken ControllersPy))))
       (Py.range 1 (2 + 1)).
Proof.
  split; [reflexivity|].
  apply (controllers_edit_parking_lot_contiguous admin 1 (form_of 2)
           (last_spot_taken ControllersPy)
           (Parking_lot.mk 1 "Central" "1 Main Road" "600001" 60 3)).
  - reflexivity.
  - reflexivity.
  - unfold keys_unique. vm_compute. repeat constructor; simpl; intuition discriminate.
  - intros s Hs. vm_compute in Hs.
    destruct Hs as [<-|[<-|[<-|[]]]]; vm_compute; auto.
  - reflexivity.
  - vm_compute. discriminate.
Defined.

(* ================================================================== *)
(** * Numbers of the spots a growing lot gets in [controllers.py] *)
(* ================================================================== *)

Section Growing.

(** Standardising a spot number does not change the ordinal read from
    it. *)
Lemma ordinal_normalized (s : Parking_spot.t) :
  ordinal (Parking_spot.set_spot_number
             (Controllers.format_spot_number (Py.Str (Parking_spot.spot_number s))) s)
  = ordinal s.
Proof.
  unfold ordinal, Controllers.get_spot_number, Controllers.format_spot_number.
  cbn [Parking_spot.spot_number Parking_spot.set_spot_number].
  destruct (Py.int (Py.remove_char "S" (Py.upper (Parking_spot.spot_number s))))
    as [num|] eqn:E.
  - change (Py.remove_char "S" (Py.upper (String "S" (Py.str num))))
      with (Py.remove_char "S" (Py.upper (Py.str num))).
    now rewrite strip_tag_str, int_str.
  - change (Py.remove_char "S" (Py.upper (String "S" (Parking_spot.spot_number s))))
      with (Py.remove_char "S" (Py.upper (Parking_spot.spot_number s))).
    now rewrite E.
Qed.

Lemma ordinals_normalized (lot_id : Z) (l : list Parking_spot.t) :
  map ordinal (Controllers.normalize_spots lot_id l) = map ordinal l.
Proof.
  unfold Controllers.normalize_spots. rewrite map_map. apply map_ext. intros s.
  destruct (_ =? _); [apply ordinal_normalized | reflexivity].
Qed.

Lemma highest_number_from (l : list Parking_spot.t) :
  forall h,
    let r := fold_left
               (fun highest spot =>
                  match Py.int (Py.remove_char "S"
                                  (Py.upper (Parking_spot.spot_number spot))) with
                  | Some num => if num >? highest then num else highest
                  | None => highest
                  end) l h in
    h <= r /\ forall s, In s l -> 0 <= h -> ordinal s <= r.
Proof.
  induction l as [|x l IH]; intros h; cbn [fold_left].
  - split; [lia | intros s []].
  - set (h' := match Py.int _ with Some num => _ | None => h end).
    destruct (IH h') as [Hle Hall].
    assert (Hh : h <= h' /\ (0 <= h -> ordinal x <= h')).
    { unfold h', ordinal, Controllers.get_spot_number.
      destruct (Py.int _) as [num|]; [|lia].
      rewrite Z.gtb_ltb. destruct (Z.ltb_spec h num); lia. }
    split; [lia|]. intros s [<-|Hs] H0; [lia|]. apply Hall; trivial. lia.
Qed.

Lemma highest_number_bound (l : list Parking_spot.t) :
  0 <= Controllers.highest_number l
  /\ forall s, In s l -> ordinal s <= Controllers.highest_number l.
Proof.
  unfold Controllers.highest_number.
  destruct (highest_number_from l 0) as [H0 Hall]. split; trivial.
  intros s Hs. apply Hall; trivial. lia.
Qed.

Lemma range_shift (h k : Z) :
  map (fun i => h + i) (Py.range 1 (k + 1)) = Py.range (h + 1) (h + 1 + k).
Proof.
  unfold Py.range. rewrite map_map.
  replace (Z.to_nat (k + 1 - 1)) with (Z.to_nat k) by (f_equal; lia).
  replace (Z.to_nat (h + 1 + k - (h + 1))) with (Z.to_nat k) by (f_equal; lia).
  apply map_ext. intros i. lia.
Qed.

(** The ordinals of the spots the growing branch appends. *)
Lemma controllers_grow_ordinals (lot : Parking_lot.t) (n : Z) (d : db) :
  exists new,
    spots (Controllers.grow lot n d)
    = Controllers.normalize_spots (Parking_lot.id lot) (spots d) ++ new
    /\ Forall (fun s => Parking_spot.parking_lot_id s = Parking_lot.id lot
                        /\ Parking_spot.status s = "A"
                        /\ Parking_spot.user_id s = None) new
    /\ map ordinal new
       = Py.range (Controllers.highest_number
                     (filter (fun s => Parking_spot.parking_lot_id s =? Parking_lot.id lot)
                             (Controllers.normalize_spots (Parking_lot.id lot) (spots d)))
                   + 1)
                  (Controllers.highest_number
                     (filter (fun s => Parking_spot.parking_lot_id s =? Parking_lot.id lot)
                             (Controllers.normalize_spots (Parking_lot.id lot) (spots d)))
                   + 1 + (n - Parking_lot.max_no_spots lot)).
Proof.
  destruct (controllers_grow_spots lot n d) as (new & E & Hnum & Hall & _).
  exists new. split; [exact E|]. split; [exact Hall|].
  rewrite <- range_shift.
  transitivity (map (fun t => ordinal (spot_numbered (Parking_spot.spot_number t))) new).
  { apply map_ext. intros t. reflexivity. }
  rewrite <- (map_map Parking_spot.spot_number
                      (fun sn => ordinal (spot_numbered sn))), Hnum, !map_map.
  apply map_ext. intros i.
  apply (ordinal_set_number _ (spot_numbered "")).
Qed.

(** Every spot the lot already has is numbered at most [highest_number]. *)
Lemma controllers_highest_covers (lot : Parking_lot.t) (d : db) (s : Parking_spot.t) :
  In s (spots_of (Parking_lot.id lot) d) ->
  ordinal s
  <= Controllers.highest_number
       (filter (fun s => Parking_spot.parking_lot_id s =? Parking_lot.id lot)
               (Controllers.normalize_spots (Parking_lot.id lot) (spots d))).
Proof.
  intros Hs. unfold spots_of in Hs. apply filter_In in Hs. destruct Hs as [Hin Hl].
  rewrite <- ordinal_normalized. apply highest_number_bound. apply filter_In.
  split; [|exact Hl].
  unfold Controllers.normalize_spots. apply in_map_iff. exists s.
  rewrite Hl. auto.
Qed.

End Growing.

(** [controllers.py], growing branch of [edit_parking_lot]: the table
    keeps its rows, each with the ordinal it had, and gets the new spots
    at its end; they belong to the lot, are Available, and their ordinals
    are h + 1, h + 2, ... up to the number of spots to add, where h is not
    below the ordinal of any spot the lot already has.  So no new ordinal
    is one in use. *)
Theorem controllers_grow_above_highest (lot : Parking_lot.t) (n : Z) (d : db) :
  exists h new,
    spots (Controllers.grow lot n d)
    = Controllers.normalize_spots (Parking_lot.id lot) (spots d) ++ new
    /\ map ordinal (Controllers.normalize_spots (Parking_lot.id lot) (spots d))
       = map ordinal (spots d)
    /\ (forall s, In s (spots_of (Parking_lot.id lot) d) -> ordinal s <= h)
    /\ map ordinal new = Py.range (h + 1) (h + 1 + (n - Parking_lot.max_no_spots lot))
    /\ Forall (fun t => Parking_spot.parking_lot_id t = Parking_lot.id lot
                        /\ Parking_spot.status t = "A"
                        /\ Parking_spot.user_id t = None
                        /\ forall s, In s (spots_of (Parking_lot.id lot) d) ->
                                     ordinal s < ordinal t) new.
Proof.
  destruct (controllers_grow_ordinals lot n d) as (new & E & Hall & Hord).
  set (h := Controllers.highest_number _) in *.
  exists h, new.
  split; [exact E|]. split; [apply ordinals_normalized|].
  split; [intros s Hs; now apply controllers_highest_covers|].
  split; [exact Hord|].
  apply Forall_forall. intros t Ht.
  rewrite Forall_forall in Hall. destruct (Hall t Ht) as (Hl & Hs & Hn).
  repeat split; trivial. intros s Hs'.
  pose proof (controllers_highest_covers lot d s Hs') as Hle. fold h in Hle.
  assert (Hin : In (ordinal t) (map ordinal new)) by now apply in_map.
  rewrite Hord in Hin. unfold Py.range in Hin. apply in_map_iff in Hin.
  destruct Hin as (i & <- & _). lia.
Qed.


(* ================================================================== *)
(** * Creating a lot *)
(* ================================================================== *)

Section Creating.

Lemma filter_none {A} (p : A -> bool) (l : list A) :
  (forall x, In x l -> p x = false) -> filter p l = [].
Proof.
  induction l as [|x l IH]; intros H; trivial. cbn [filter].
  rewrite (H x (or_introl eq_refl)). apply IH. intros y Hy. apply H. now right.
Qed.

Lemma format_int_label (i : Z) :
  Controllers.format_spot_number (Py.Int i) = App.spot_label i.
Proof. reflexivity. Qed.

Lemma ordinal_label (i : Z) (s : Parking_spot.t) :
  Parking_spot.spot_number s = App.spot_label i -> ordinal s = i.
Proof.
  intros E. unfold ordinal, Controllers.get_spot_number. rewrite E.
  unfold App.spot_label.
  change (Py.remove_char "S" (Py.upper (String "S" (Py.str i))))
    with (Py.remove_char "S" (Py.upper (Py.str i))).
  now rewrite strip_tag_str, int_str.
Qed.

Lemma ordinals_of_labels (new : list Parking_spot.t) (idxs : list Z) :
  map Parking_spot.spot_number new = map App.spot_label idxs ->
  map ordinal new = idxs.
Proof.
  revert idxs. induction new as [|s new IH]; intros [|i idxs] E;
    try discriminate; trivial.
  cbn [map] in *. injection E as E1 E2.
  now rewrite (ordinal_label i s E1), (IH idxs E2).
Qed.

(** The loop of [create_parking_lot] in either file. *)
Lemma created_spots (a : application) (current_user : User.t) (form : lot_form)
      (d : db) (d' : db) :
  handle a (CreateLot current_user form) d = (LotCreated, d') ->
  exists new,
    d' = mkdb (lots d
               ++ [Parking_lot.mk (next_id (map Parking_lot.id (lots d)))
                     (form_name form) (form_address form) (form_pincode form)
                     (form_price_per_hour form) (form_max_no_spots form)])
              (spots d ++ new) (bookings d)
    /\ map Parking_spot.spot_number new
       = map App.spot_label (Py.range 1 (form_max_no_spots form + 1))
    /\ Forall (fun s => Parking_spot.parking_lot_id s
                        = next_id (map Parking_lot.id (lots d))
                        /\ Parking_spot.status s = "A"
                        /\ Parking_spot.user_id s = None) new.
Proof.
  destruct a; cbn [handle];
    unfold App.create_parking_lot, Controllers.create_parking_lot;
    destruct (negb _); try discriminate;
    try (destruct (App.violates_unique _ _); try discriminate);
    cbn [Parking_lot.id Parking_lot.max_no_spots];
    intros E; injection E as <-;
    match goal with
    | |- context [fold_left (fun tbl i => add_spot ?l (@?g i) tbl) ?r ?t] =>
        destruct (add_spots_spec l g r t) as (new & E & Hn & Hall & _)
    end;
    exists new; rewrite E; (split; [reflexivity|]); (split; [exact Hn | exact Hall]).
Qed.

End Creating.

(** [create_parking_lot], in [app.py] and in [controllers.py]: when the
    request succeeds on a database in which every spot belongs to a lot of
    the table, the new lot gets the next key and the capacity of the form,
    and its spots are S1, S2, ... in this order, with the ordinals
    1, ..., capacity, all Available and without occupant; the rows that
    were there stay as they were, and so do the bookings. *)
Theorem create_parking_lot_spots (a : application) (current_user : User.t)
  (form : lot_form) (d d' : db) :
  (forall s, In s (spots d) ->
             In (Parking_spot.parking_lot_id s) (map Parking_lot.id (lots d))) ->
  handle a (CreateLot current_user form) d = (LotCreated, d') ->
  let new_id := next_id (map Parking_lot.id (lots d)) in
  ~ In new_id (map Parking_lot.id (lots d))
  /\ lots d' = lots d ++ [Parking_lot.mk new_id (form_name form) (form_address form)
                            (form_pincode form) (form_price_per_hour form)
                            (form_max_no_spots form)]
  /\ bookings d' = bookings d
  /\ (exists new, spots d' = spots d ++ new /\ spots_of new_id d' = new)
  /\ ordinals new_id d' = Py.range 1 (form_max_no_spots form + 1)
  /\ (forall s, In s (spots_of new_id d') ->
                Parking_spot.status s = "A" /\ Parking_spot.user_id s = None)
  /\ (forall other, other <> new_id -> spots_of other d' = spots_of other d).
Proof.
  intros Href H new_id.
  destruct (created_spots a current_user form d d' H) as (new & -> & Hnum & Hall).
  fold new_id in Hall |- *.
  assert (Hfresh : ~ In new_id (map Parking_lot.id (lots d))).
  { intros Hin. apply next_id_fresh in Hin. unfold new_id in Hin. lia. }
  assert (Hold : filter (fun s => Parking_spot.parking_lot_id s =? new_id) (spots d) = []).
  { apply filter_none. intros r Hr. apply Z.eqb_neq. intros Hl.
    apply Hfresh. rewrite <- Hl. now apply Href. }
  assert (Hnew : filter (fun s => Parking_spot.parking_lot_id s =? new_id) new = new).
  { apply forallb_filter_id, forallb_forall. rewrite Forall_forall in Hall.
    intros s Hs. apply Z.eqb_eq. now apply Hall. }
  assert (Hsp : spots_of new_id (mkdb (lots d ++ [Parking_lot.mk new_id (form_name form)
                                                    (form_address form) (form_pincode form)
                                                    (form_price_per_hour form)
                                                    (form_max_no_spots form)])
                                      (spots d ++ new) (bookings d)) = new).
  { unfold spots_of. cbn [spots]. now rewrite filter_app, Hold, Hnew. }
  split; [exact Hfresh|]. split; [reflexivity|]. split; [reflexivity|].
  split; [exists new; split; [reflexivity | exact Hsp]|].
  split; [|split].
  - unfold ordinals. rewrite Hsp. now apply ordinals_of_labels.
  - intros s Hs. rewrite Hsp in Hs. rewrite Forall_forall in Hall.
    destruct (Hall s Hs) as (_ & ? & ?). auto.
  - intros other Hne. unfold spots_of. cbn [spots]. rewrite filter_app.
    assert (Hnone : filter (fun s => Parking_spot.parking_lot_id s =? other) new = []).
    { apply filter_none. intros r Hr. apply Z.eqb_neq.
      rewrite Forall_forall in Hall. destruct (Hall r Hr) as (Hl' & _). congruence. }
    rewrite Hnone. apply app_nil_r.
Qed.

Lemma create_parking_lot_spots_witness :
  ordinals 1 (snd (handle ControllersPy (CreateLot admin (form_of 3)) empty_db))
  = Py.range 1 (3 + 1).
Proof.
  apply (create_parking_lot_spots ControllersPy admin (form_of 3) empty_db
           (snd (handle ControllersPy (CreateLot admin (form_of 3)) empty_db))).
  - intros s [].
  - reflexivity.
Defined.

(* ================================================================== *)
(** * A reservation *)
(* ================================================================== *)

Section Reserving.

(** Writing through a row of a table with unique keys changes that row
    only. *)
Lemma update_spot_split (f : Parking_spot.t -> Parking_spot.t)
      (before after : list Parking_spot.t) (x : Parking_spot.t) :
  NoDup (map Parking_spot.id (before ++ x :: after)) ->
  update_spot (Parking_spot.id x) f (before ++ x :: after) = before ++ f x :: after.
Proof.
  intros Hn. rewrite map_app in Hn. cbn [map] in Hn.
  pose proof (NoDup_remove_2 _ _ _ Hn) as Hx.
  assert (Hsame : forall l, (forall r, In r l -> In (Parking_spot.id r)
                                                   (map Parking_spot.id before
                                                    ++ map Parking_spot.id after)) ->
                            update_spot (Parking_spot.id x) f l = l).
  { intros l Hl. unfold update_spot. rewrite <- (map_id l) at 2.
    apply map_ext_in. intros r Hr.
    destruct (Z.eqb_spec (Parking_spot.id r) (Parking_spot.id x)) as [E|_]; trivial.
    exfalso. apply Hx. rewrite <- E. now apply Hl. }
  unfold update_spot in *. rewrite map_app. cbn [map]. rewrite Z.eqb_refl.
  rewrite (Hsame before), (Hsame after); trivial.
  - intros r Hr. apply in_or_app. right. now apply in_map.
  - intros r Hr. apply in_or_app. left. now apply in_map.
Qed.

Lemma find_app_none {A} (p : A -> bool) (l : list A) (x : A) :
  find p l = None -> p x = true -> find p (l ++ [x]) = Some x.
Proof.
  induction l as [|y l IH]; cbn [find app]; intros H Hx.
  - now rewrite Hx.
  - destruct (p y); [discriminate | now apply IH].
Qed.

End Reserving.

(** [reserve_spot] (POST), in either file, on a spot table with unique
    keys.  When it answers 'reserved', the spot it names was an Available
    spot of the lot and is now Occupied by the user, every other row of the
    table is as before, the lot has one Available spot less and one
    Occupied spot more, and the new booking is the active booking of the
    user: it starts now, has no [out_time] and no cost.  From then on
    every reservation by this user, in any lot, is answered 'You already
    have an active booking' and changes nothing. *)
Theorem reserve_spot_books
  (a : application) (current_user : User.t) (now : Z) (lot_id : Z)
  (vehicle_number : string) (d d' : db) (spot' : Parking_spot.t) (booking : Booking.t) :
  keys_unique d ->
  handle a (Reserve current_user now lot_id vehicle_number) d
  = (Reserved spot' booking, d') ->
  (exists before spot after,
      spots d = before ++ spot :: after
      /\ spots d' = before ++ spot' :: after
      /\ spot' = Parking_spot.set_occupant "O" (Some (User.id current_user)) spot
      /\ Parking_spot.parking_lot_id spot = lot_id
      /\ Parking_spot.status spot = "A")
  /\ (List.length (spots_with_status lot_id "A" d')
      = List.length (spots_with_status lot_id "A" d) - 1)%nat
  /\ occupied_count lot_id d' = occupied_count lot_id d + 1
  /\ bookings d' = bookings d ++ [booking]
  /\ active_booking_of (User.id current_user) d' = Some booking
  /\ Booking.user_id booking = User.id current_user
  /\ Booking.parking_spot_id booking = Parking_spot.id spot'
  /\ Booking.in_time booking = now
  /\ Booking.out_time booking = None
  /\ Booking.cost booking = None
  /\ forall now' method lot_id' vehicle',
       App.reserve_spot current_user now' method lot_id' vehicle' d' = (AlreadyParked, d')
       /\ Controllers.reserve_spot current_user now' method lot_id' vehicle' d'
          = (AlreadyParked, d').
Proof.
  intros Hu H.
  assert (E : handle a (Reserve current_user now lot_id vehicle_number) d
              = App.reserve_spot current_user now POST lot_id vehicle_number d)
    by (destruct a; reflexivity).
  rewrite E in H. clear E. unfold App.reserve_spot in H.
  destruct (active_booking_of (User.id current_user) d) eqn:Hact; [discriminate|].
  destruct (get_lot lot_id d) as [lot|] eqn:Hl; [|discriminate].
  destruct (spots_with_status lot_id "A" d) as [|spot rest] eqn:Hav; [discriminate|].
  injection H as <- <- <-.
  destruct (filter_head_split _ _ _ _ Hav) as (before & after & Hd & Hbefore & Hp).
  apply andb_true_iff in Hp. destruct Hp as [Hlot Hst].
  apply Z.eqb_eq in Hlot. apply String.eqb_eq in Hst.
  assert (Hsp : update_spot (Parking_spot.id spot)
                  (Parking_spot.set_occupant "O" (Some (User.id current_user))) (spots d)
                = before ++ Parking_spot.set_occupant "O" (Some (User.id current_user)) spot
                         :: after).
  { rewrite Hd. apply update_spot_split. unfold keys_unique in Hu. now rewrite <- Hd. }
  set (booking := Booking.mk _ _ _ _ _ _ _ _).
  assert (Hact' : active_booking_of (User.id current_user)
                    (mkdb (lots d)
                          (update_spot (Parking_spot.id spot)
                             (Parking_spot.set_occupant "O" (Some (User.id current_user)))
                             (spots d))
                          (bookings d ++ [booking])) = Some booking).
  { unfold active_booking_of. cbn [bookings]. apply find_app_none; [exact Hact|].
    unfold booking. cbn [Booking.user_id Booking.active Booking.out_time].
    now rewrite Z.eqb_refl. }
  split.
  { exists before, spot, after. cbn [spots]. rewrite Hsp. auto. }
  split.
  { unfold spots_with_status in *. cbn [spots]. rewrite Hsp.
    rewrite Hd in Hav. rewrite filter_app in Hav |- *.
    rewrite (filter_none _ before Hbefore) in Hav |- *.
    cbn [filter app] in Hav |- *.
    cbn [Parking_spot.parking_lot_id Parking_spot.status Parking_spot.set_occupant].
    rewrite Hlot, Hst, Z.eqb_refl in Hav. rewrite Hlot, Z.eqb_refl.
    change (String.eqb "O" "A") with false. change (String.eqb "A" "A") with true in Hav.
    cbn [andb] in Hav |- *. injection Hav as <-.
    cbn [List.length]. lia. }
  split.
  { unfold occupied_count, spots_with_status. cbn [spots]. rewrite Hsp, Hd.
    rewrite !filter_app. cbn [filter].
    cbn [Parking_spot.parking_lot_id Parking_spot.status Parking_spot.set_occupant].
    rewrite Hlot, Hst, Z.eqb_refl.
    change (String.eqb "O" "O") with true. change (String.eqb "A" "O") with false.
    cbn [andb]. rewrite !length_app. cbn [List.length]. lia. }
  split; [reflexivity|]. split; [exact Hact'|].
  do 5 (split; [reflexivity|]).
  intros now' method lot_id' vehicle'.
  unfold App.reserve_spot, Controllers.reserve_spot. rewrite Hact'. auto.
Qed.

Lemma reserve_spot_books_witness :
  occupied_count 1 (snd (handle AppPy (Reserve (driver 2) 0 1 "TN02")
                           (run AppPy [CreateLot admin (form_of 3)] empty_db)))
  = occupied_count 1 (run AppPy [CreateLot admin (form_of 3)] empty_db) + 1.
Proof.
  apply (reserve_spot_books AppPy (driver 2) 0 1 "TN02"
           (run AppPy [CreateLot admin (form_of 3)] empty_db)
           (snd (handle AppPy (Reserve (driver 2) 0 1 "TN02")
                   (run AppPy [CreateLot admin (form_of 3)] empty_db)))
           (Parking_spot.mk 1 1 "S1" "O" (Some 2))
           (Booking.mk 1 2 1 1 "TN02" 0 None None)).
  - unfold keys_unique. vm_compute. repeat constructor; simpl; intuition discriminate.
  - reflexivity.
Defined.

(* ================================================================== *)
(** * The inventory invariant *)
(* ================================================================== *)

Section Inventory.

Lemma spots_of_update (lot_id k : Z) (f : Parking_spot.t -> Parking_spot.t)
      (ls : list Parking_lot.t) (bs : list Booking.t) (d : db) :
  (forall s, Parking_spot.parking_lot_id (f s) = Parking_spot.parking_lot_id s) ->
  spots_of lot_id (mkdb ls (update_spot k f (spots d)) bs)
  = map (fun s => if Parking_spot.id s =? k then f s else s) (spots_of lot_id d).
Proof.
  intros Hf. unfold spots_of, update_spot. cbn [spots].
  apply filter_map_same. intros s. destruct (_ =? k); [now rewrite Hf|reflexivity].
Qed.

(** A request that writes through one spot, keeping its lot and giving
    it status ['A'] or ['O'], keeps the inventory consistent. *)
Lemma inventory_update (k : Z) (st : string) (u : option Z)
      (bs : list Booking.t) (d : db) :
  st = "A" \/ st = "O" ->
  inventory_ok d ->
  inventory_ok (mkdb (lots d) (update_spot k (Parking_spot.set_occupant st u) (spots d)) bs).
Proof.
  intros Hst (Hu & Hl & Hs & Hr & Hc). repeat split.
  - unfold keys_unique. cbn [spots]. now rewrite map_id_update_spot.
  - exact Hl.
  - intros s Hin. cbn [spots] in Hin. unfold update_spot in Hin.
    apply in_map_iff in Hin. destruct Hin as (r & <- & Hr').
    destruct (_ =? k); [exact Hst | now apply Hs].
  - intros s Hin. cbn [spots lots] in *. unfold update_spot in Hin.
    apply in_map_iff in Hin. destruct Hin as (r & <- & Hr').
    destruct (_ =? k); cbn [Parking_spot.parking_lot_id Parking_spot.set_occupant];
      now apply Hr.
  - intros lot Hlot. cbn [lots] in Hlot.
    rewrite spots_of_update by reflexivity. rewrite length_map. now apply Hc.
Qed.

Lemma spots_of_app_other (lot_id other : Z) (tbl new : list Parking_spot.t) :
  Forall (fun s => Parking_spot.parking_lot_id s = lot_id) new ->
  other <> lot_id ->
  filter (fun s => Parking_spot.parking_lot_id s =? other) (tbl ++ new)
  = filter (fun s => Parking_spot.parking_lot_id s =? other) tbl.
Proof.
  intros Hall Hne. rewrite filter_app, (filter_none _ new), app_nil_r; trivial.
  intros s Hs. rewrite Forall_forall in Hall. apply Z.eqb_neq.
  rewrite (Hall s Hs). congruence.
Qed.

Lemma spots_of_app_same (lot_id : Z) (tbl new : list Parking_spot.t) :
  Forall (fun s => Parking_spot.parking_lot_id s = lot_id) new ->
  filter (fun s => Parking_spot.parking_lot_id s =? lot_id) (tbl ++ new)
  = filter (fun s => Parking_spot.parking_lot_id s =? lot_id) tbl ++ new.
Proof.
  intros Hall. rewrite filter_app. f_equal.
  apply forallb_filter_id, forallb_forall. rewrite Forall_forall in Hall.
  intros s Hs. apply Z.eqb_eq. now apply Hall.
Qed.

(** Deleting spots of one lot leaves the spots of another lot alone. *)
Lemma spots_of_delete_other (lot_id other : Z) (doomed : list Parking_spot.t) (d : db) :
  keys_unique d ->
  (forall s, In s doomed -> In s (spots d) /\ Parking_spot.parking_lot_id s = lot_id) ->
  other <> lot_id ->
  spots_of other (delete_spots doomed d) = spots_of other d.
Proof.
  intros Hu Hd Hne. rewrite spots_of_delete.
  apply forallb_filter_id, forallb_forall. intros s Hs.
  apply negb_true_iff. destruct (mem _ _) eqn:E; trivial.
  apply mem_In, in_map_iff in E. destruct E as (t & E & Ht).
  destruct (Hd t Ht) as [Hin Hl]. unfold spots_of in Hs. apply filter_In in Hs.
  destruct Hs as [Hs Hls]. apply Z.eqb_eq in Hls.
  rewrite (same_key_same_row (spots d) s t Hu Hs Hin (eq_sym E)) in Hls. congruence.
Qed.

Lemma normalize_other (lot_id other : Z) (tbl : list Parking_spot.t) :
  other <> lot_id ->
  filter (fun s => Parking_spot.parking_lot_id s =? other)
         (Controllers.normalize_spots lot_id tbl)
  = filter (fun s => Parking_spot.parking_lot_id s =? other) tbl.
Proof.
  intros Hne. unfold Controllers.normalize_spots.
  rewrite filter_map_same.
  - rewrite <- (map_id (filter _ tbl)) at 2. apply map_ext_in.
    intros s Hs. apply filter_In in Hs. destruct Hs as [_ Hs]. apply Z.eqb_eq in Hs.
    destruct (Z.eqb_spec (Parking_spot.parking_lot_id s) lot_id); [congruence|reflexivity].
  - intros s. now destruct (Parking_spot.parking_lot_id s =? lot_id).
Qed.

Lemma normalize_row (lot_id : Z) (tbl : list Parking_spot.t) (s : Parking_spot.t) :
  In s (Controllers.normalize_spots lot_id tbl) ->
  exists r, In r tbl
            /\ Parking_spot.id s = Parking_spot.id r
            /\ Parking_spot.parking_lot_id s = Parking_spot.parking_lot_id r
            /\ Parking_spot.status s = Parking_spot.status r
            /\ Parking_spot.user_id s = Parking_spot.user_id r.
Proof.
  unfold Controllers.normalize_spots. intros H. apply in_map_iff in H.
  destruct H as (r & <- & Hr). exists r. destruct (_ =? lot_id); auto.
Qed.

Lemma update_lot_ids (k : Z) (f : Parking_lot.t -> Parking_lot.t) (ls : list Parking_lot.t) :
  (forall l, Parking_lot.id (f l) = Parking_lot.id l) ->
  map Parking_lot.id (update_lot k f ls) = map Parking_lot.id ls.
Proof.
  intros Hf. unfold update_lot. rewrite map_map. apply map_ext.
  intros l. destruct (_ =? k); auto.
Qed.

(** The inventory after one lot got the spots [tbl'] and the capacity
    [n]: it is consistent if the lot now has [n] spots and nothing else
    moved. *)
Lemma inventory_resized (lot_id n : Z) (f : Parking_lot.t -> Parking_lot.t)
      (tbl' : list Parking_spot.t) (bs : list Booking.t) (d : db) :
  inventory_ok d ->
  In lot_id (map Parking_lot.id (lots d)) ->
  (forall l, Parking_lot.id (f l) = Parking_lot.id l) ->
  (forall l, Parking_lot.max_no_spots (f l) = n) ->
  NoDup (map Parking_spot.id tbl') ->
  (forall s, In s tbl' ->
             (Parking_spot.status s = "A" \/ Parking_spot.status s = "O")
             /\ In (Parking_spot.parking_lot_id s) (map Parking_lot.id (lots d))) ->
  Z.of_nat (List.length (filter (fun s => Parking_spot.parking_lot_id s =? lot_id) tbl')) = n ->
  (forall other, other <> lot_id ->
                 filter (fun s => Parking_spot.parking_lot_id s =? other) tbl'
                 = spots_of other d) ->
  inventory_ok (mkdb (update_lot lot_id f (lots d)) tbl' bs).
Proof.
  intros (Hu & Hl & Hs & Hr & Hc) Hin Hfid Hfn Hk Hrows Hcount Hother.
  repeat split.
  - exact Hk.
  - cbn [lots]. now rewrite update_lot_ids.
  - intros s Hs'. now apply Hrows.
  - intros s Hs'. cbn [lots]. rewrite update_lot_ids by trivial. now apply Hrows.
  - intros lot Hlot. cbn [lots] in Hlot. unfold update_lot in Hlot.
    apply in_map_iff in Hlot. destruct Hlot as (l0 & <- & Hl0).
    unfold spots_of. cbn [spots].
    destruct (Z.eqb_spec (Parking_lot.id l0) lot_id) as [E|Hne].
    + rewrite Hfn, Hfid, E. now rewrite Hcount.
    + rewrite (Hother _ Hne). now apply Hc.
Qed.

End Inventory.

Section Resizing.

Variables (lot : Parking_lot.t) (n : Z) (d : db).
Hypothesis Hinv : inventory_ok d.
Hypothesis Hlot : In lot (lots d).
Hypothesis Hocc : occupied_count (Parking_lot.id lot) d <= n.

Let lot_id := Parking_lot.id lot.

Lemma lot_count : Parking_lot.max_no_spots lot = Z.of_nat (List.length (spots_of lot_id d)).
Proof. destruct Hinv as (_ & _ & _ & _ & Hc). now apply Hc. Qed.

Lemma lot_known : In lot_id (map Parking_lot.id (lots d)).
Proof. now apply in_map. Qed.

(** The spots of [controllers.py] before the renumbering. *)
Lemma controllers_resized :
  let d1 := if n >? Parking_lot.max_no_spots lot then Controllers.grow lot n d
            else if n <? Parking_lot.max_no_spots lot then Controllers.shrink lot n d
                 else d in
  lots d1 = lots d
  /\ keys_unique d1
  /\ (forall s, In s (spots d1) ->
                (Parking_spot.status s = "A" \/ Parking_spot.status s = "O")
                /\ In (Parking_spot.parking_lot_id s) (map Parking_lot.id (lots d)))
  /\ Z.of_nat (List.length (spots_of lot_id d1)) = n
  /\ (forall other, other <> lot_id -> spots_of other d1 = spots_of other d).
Proof.
  destruct Hinv as (Hu & Hl & Hs & Hr & Hc).
  pose proof lot_count as Hcount. pose proof lot_known as Hknown.
  cbv zeta. rewrite Z.gtb_ltb.
  destruct (Z.ltb_spec (Parking_lot.max_no_spots lot) n) as [Hgrow|Hle].
  - destruct (controllers_grow_spots lot n d) as (new & E & Hnum & Hall & Hk).
    split; [reflexivity|]. split; [now apply Hk|]. split; [|split].
    + intros s Hin. rewrite E in Hin. apply in_app_or in Hin. destruct Hin as [Hin|Hin].
      * apply normalize_row in Hin. destruct Hin as (r & Hr' & _ & -> & -> & _).
        split; [now apply Hs | now apply Hr].
      * rewrite Forall_forall in Hall. destruct (Hall s Hin) as (-> & -> & _). auto.
    + unfold lot_id. rewrite controllers_grow_count by trivial.
      fold lot_id. lia.
    + intros other Hne. unfold spots_of. rewrite E.
      rewrite spots_of_app_other with (lot_id := lot_id); trivial.
      * now apply normalize_other.
      * eapply Forall_impl; [|exact Hall]. intros s (H & _). exact H.
  - destruct (Z.ltb_spec n (Parking_lot.max_no_spots lot)) as [Hshrink|Hge].
    + assert (Hd : forall s, In s (Controllers.spots_to_remove lot n d) ->
                             In s (spots d) /\ Parking_spot.parking_lot_id s = lot_id).
      { intros s Hin.
        destruct (controllers_spots_to_remove_available lot n d s Hin) as (? & _ & ?).
        auto. }
      split; [reflexivity|]. split; [|split; [|split]].
      * unfold keys_unique, Controllers.shrink, delete_spots. cbn [spots].
        now apply keys_unique_filter.
      * intros s Hin. unfold Controllers.shrink, delete_spots in Hin. cbn [spots] in Hin.
        apply filter_In in Hin. destruct Hin as [Hin _].
        split; [now apply Hs | now apply Hr].
      * unfold lot_id. apply controllers_shrink_count; trivial. fold lot_id. lia.
      * intros other Hne. unfold Controllers.shrink.
        now apply spots_of_delete_other with (lot_id := lot_id).
    + split; [reflexivity|]. split; [exact Hu|]. split; [|split].
      * intros s Hin. split; [now apply Hs | now apply Hr].
      * lia.
      * reflexivity.
Qed.

Lemma app_grow_spots :
  exists new,
    spots (App.grow lot n d) = spots d ++ new
    /\ map Parking_spot.spot_number new
       = map App.spot_label (Py.range (Parking_lot.max_no_spots lot + 1) (n + 1))
    /\ Forall (fun s => Parking_spot.parking_lot_id s = lot_id
                        /\ Parking_spot.status s = "A"
                        /\ Parking_spot.user_id s = None) new
    /\ keys_unique (App.grow lot n d).
Proof.
  destruct Hinv as (Hu & _).
  unfold App.grow, keys_unique. cbn [spots].
  destruct (add_spots_spec lot_id App.spot_label
              (Py.range (Parking_lot.max_no_spots lot + 1) (n + 1)) (spots d))
    as (new & E & Hn & Hall & Hnd).
  exists new. fold lot_id. rewrite E. repeat split; trivial. now apply Hnd.
Qed.

Lemma available_count :
  Z.of_nat (List.length (spots_with_status lot_id "A" d))
  = Z.of_nat (List.length (spots_of lot_id d)) - occupied_count lot_id d.
Proof.
  destruct Hinv as (_ & _ & Hs & _).
  unfold occupied_count, spots_with_status.
  rewrite <- !filter_both. fold (spots_of lot_id d).
  assert (H : forall s, In s (spots_of lot_id d) ->
                        Parking_spot.status s = "A" \/ Parking_spot.status s = "O").
  { intros s Hin. apply Hs. unfold spots_of in Hin. now apply filter_In in Hin. }
  pose proof (status_partition (spots_of lot_id d) H). lia.
Qed.

(** The spots [app.py] deletes when it shrinks the lot: as many as the
    capacity goes down. *)
Lemma app_doomed (doomed : list Parking_spot.t) :
  n < Parking_lot.max_no_spots lot ->
  App.spots_to_remove lot n d = Some doomed ->
  Z.of_nat (List.length doomed) = Parking_lot.max_no_spots lot - n
  /\ NoDup (map Parking_spot.id doomed)
  /\ incl doomed (spots_of lot_id d).
Proof.
  intros Hshrink H.
  assert (Hincl : incl doomed (spots_of lot_id d)).
  { intros s Hin.
    destruct (app_spots_to_remove_available lot n d doomed s H Hin) as (? & _ & Hl).
    unfold spots_of. apply filter_In. split; trivial. now apply Z.eqb_eq. }
  pose proof available_count as Hav. pose proof lot_count as Hcount.
  destruct Hinv as (Hu & _).
  unfold App.spots_to_remove in H. fold lot_id in H.
  destruct (App.sort_keys _) as [keyed|] eqn:E; [|discriminate].
  injection H as <-.
  pose proof (sort_keys_snd _ _ E) as Hsnd.
  assert (Hperm : Permutation (map snd (Py.sort fst true keyed))
                              (spots_with_status lot_id "A" d)).
  { rewrite <- Hsnd. apply Permutation_map, sort_perm. }
  unfold Py.slice_to in *.
  destruct (Z.ltb_spec (Parking_lot.max_no_spots lot - n) 0) as [?|_]; [lia|].
  split; [|split; [|exact Hincl]].
  - rewrite length_firstn, (Permutation_length Hperm).
    pose proof Hocc as Ho. unfold lot_id in *. lia.
  - apply keys_unique_firstn. eapply Permutation_NoDup.
    + apply Permutation_map. symmetry. exact Hperm.
    + unfold spots_with_status. now apply keys_unique_filter.
Qed.

(** The spots of [app.py] after a resize that went through. *)
Lemma app_resized (d1 : db) :
  1 <= n ->
  (if n >? Parking_lot.max_no_spots lot then Some (App.grow lot n d)
   else if n <? Parking_lot.max_no_spots lot
        then option_map (fun doomed => delete_spots doomed d)
                        (App.spots_to_remove lot n d)
        else Some d) = Some d1 ->
  lots d1 = lots d
  /\ keys_unique d1
  /\ (forall s, In s (spots d1) ->
                (Parking_spot.status s = "A" \/ Parking_spot.status s = "O")
                /\ In (Parking_spot.parking_lot_id s) (map Parking_lot.id (lots d)))
  /\ Z.of_nat (List.length (spots_of lot_id d1)) = n
  /\ (forall other, other <> lot_id -> spots_of other d1 = spots_of other d).
Proof.
  intros Hn1.
  pose proof lot_count as Hcount. pose proof lot_known as Hknown.
  rewrite Z.gtb_ltb.
  destruct (Z.ltb_spec (Parking_lot.max_no_spots lot) n) as [Hgrow|Hle].
  - intros H. injection H as <-.
    destruct app_grow_spots as (new & E & Hnum & Hall & Hk).
    destruct Hinv as (Hu & Hl & Hs & Hr & Hc).
    assert (Hall' : Forall (fun s => Parking_spot.parking_lot_id s = lot_id) new).
    { eapply Forall_impl; [|exact Hall]. intros s (H & _). exact H. }
    split; [reflexivity|]. split; [exact Hk|]. split; [|split].
    + intros s Hin. rewrite E in Hin. apply in_app_or in Hin. destruct Hin as [Hin|Hin].
      * split; [now apply Hs | now apply Hr].
      * rewrite Forall_forall in Hall. destruct (Hall s Hin) as (-> & -> & _). auto.
    + unfold spots_of. rewrite E, spots_of_app_same, length_app by trivial.
      fold (spots_of lot_id d).
      assert (Hlen : List.length new = Z.to_nat (n - Parking_lot.max_no_spots lot)).
      { rewrite <- (length_map Parking_spot.spot_number), Hnum, length_map.
        unfold Py.range. rewrite length_map, length_seq. f_equal. lia. }
      lia.
    + intros other Hne. unfold spots_of. rewrite E.
      now apply spots_of_app_other with (lot_id := lot_id).
  - destruct (Z.ltb_spec n (Parking_lot.max_no_spots lot)) as [Hshrink|Hge].
    + destruct (App.spots_to_remove lot n d) as [doomed|] eqn:E; [|discriminate].
      cbn [option_map]. intros H. injection H as <-.
      destruct (app_doomed doomed Hshrink E) as (Hlen & Hnd & Hincl).
      destruct Hinv as (Hu & Hl & Hs & Hr & Hc).
      split; [reflexivity|]. split; [|split; [|split]].
      * unfold keys_unique, delete_spots. cbn [spots]. now apply keys_unique_filter.
      * intros s Hin. unfold delete_spots in Hin. cbn [spots] in Hin.
        apply filter_In in Hin. destruct Hin as [Hin _].
        split; [now apply Hs | now apply Hr].
      * rewrite spots_of_delete.
        assert (HL : NoDup (map Parking_spot.id (spots_of lot_id d)))
          by (unfold spots_of; now apply keys_unique_filter).
        pose proof (length_after_delete _ _ HL Hnd Hincl). lia.
      * intros other Hne. apply spots_of_delete_other with (lot_id := lot_id); trivial.
        intros s Hin. apply Hincl in Hin. unfold spots_of in Hin.
        apply filter_In in Hin. destruct Hin as [Hin Hl']. apply Z.eqb_eq in Hl'. auto.
    + intros H. injection H as <-.
      destruct Hinv as (Hu & Hl & Hs & Hr & Hc).
      split; [reflexivity|]. split; [exact Hu|]. split; [|split].
      * intros s Hin. split; [now apply Hs | now apply Hr].
      * lia.
      * reflexivity.
Qed.

End Resizing.

Section InventoryKept.

Lemma get_lot_in (lot_id : Z) (d : db) (lot : Parking_lot.t) :
  get_lot lot_id d = Some lot -> In lot (lots d) /\ Parking_lot.id lot = lot_id.
Proof.
  unfold get_lot. intros H. apply find_some in H. destruct H as [H E].
  apply Z.eqb_eq in E. auto.
Qed.

Lemma inventory_created (a : application) (current_user : User.t) (form : lot_form)
      (d : db) :
  0 <= form_max_no_spots form ->
  inventory_ok d ->
  inventory_ok (snd (handle a (CreateLot current_user form) d)).
Proof.
  intros Hcap Hinv.
  destruct (handle a (CreateLot current_user form) d) as [o d'] eqn:E.
  assert (Ho : o = LotCreated \/ d' = d).
  { destruct a; cbn [handle] in E;
      unfold App.create_parking_lot, Controllers.create_parking_lot in E;
      destruct (negb _); try (injection E as <- <-; now right);
      try (destruct (App.violates_unique _ _); [injection E as <- <-; now right|]);
      injection E as <- _; now left. }
  cbn [snd]. destruct Ho as [->| ->]; [|exact Hinv].
  pose proof (handle_keys a (CreateLot current_user form) d) as Hk.
  rewrite E in Hk. cbn [snd] in Hk.
  destruct (created_spots a current_user form d d' E) as (new & -> & Hnum & Hall).
  destruct Hinv as (Hu & Hl & Hs & Hr & Hc).
  set (new_id := next_id (map Parking_lot.id (lots d))) in *.
  assert (Hfresh : ~ In new_id (map Parking_lot.id (lots d))).
  { intros Hin. apply next_id_fresh in Hin. unfold new_id in Hin. lia. }
  assert (Hall' : Forall (fun s => Parking_spot.parking_lot_id s = new_id) new).
  { eapply Forall_impl; [|exact Hall]. intros s (H & _). exact H. }
  rewrite Forall_forall in Hall.
  repeat split.
  - now apply Hk.
  - cbn [lots]. rewrite map_app. cbn [map Parking_lot.id].
    apply NoDup_app; trivial.
    + repeat constructor. intros [].
    + intros k Hk1 [<-|[]]. contradiction.
  - intros s Hin. cbn [spots] in Hin. apply in_app_or in Hin.
    destruct Hin as [Hin|Hin]; [now apply Hs|].
    destruct (Hall s Hin) as (_ & -> & _). now left.
  - intros s Hin. cbn [spots lots] in *. rewrite map_app. apply in_or_app.
    apply in_app_or in Hin. destruct Hin as [Hin|Hin].
    + left. now apply Hr.
    + right. destruct (Hall s Hin) as (-> & _). now left.
  - intros lot Hlot. cbn [lots] in Hlot. unfold spots_of. cbn [spots].
    apply in_app_or in Hlot. destruct Hlot as [Hlot|[<-|[]]].
    + rewrite spots_of_app_other with (lot_id := new_id); trivial.
      * now apply Hc.
      * intros E'. apply Hfresh. rewrite <- E'. now apply in_map.
    + cbn [Parking_lot.id Parking_lot.max_no_spots].
      rewrite spots_of_app_same by trivial.
      rewrite (filter_none _ (spots d)), app_nil_l.
      * rewrite <- (length_map Parking_spot.spot_number), Hnum, length_map.
        unfold Py.range. rewrite length_map, length_seq. lia.
      * intros r Hr'. apply Z.eqb_neq. intros Hl'. apply Hfresh.
        rewrite <- Hl'. now apply Hr.
Qed.

Lemma inventory_reserved (current_user : User.t) (now : Z) (lot_id : Z)
      (vehicle_number : string) (d : db) :
  inventory_ok d ->
  inventory_ok (snd (App.reserve_spot current_user now POST lot_id vehicle_number d)).
Proof.
  intros Hinv. unfold App.reserve_spot.
  destruct (active_booking_of _ _); [exact Hinv|].
  destruct (get_lot _ _); [|exact Hinv].
  destruct (spots_with_status _ _ _); [exact Hinv|].
  cbn [snd]. apply inventory_update; auto.
Qed.

Lemma inventory_released (a : application) (current_user : User.t) (now : Z)
      (booking_id : Z) (d : db) :
  inventory_ok d ->
  inventory_ok (snd (handle a (Release current_user now booking_id) d)).
Proof.
  intros Hinv.
  destruct a; cbn [handle]; unfold App.release_spot, Controllers.release_spot;
    (destruct (get_booking _ _); [|exact Hinv]);
    (destruct (negb _); [exact Hinv|]);
    (destruct (get_spot _ _); [|exact Hinv]);
    (destruct (get_lot _ _); [|exact Hinv]);
    cbn [snd]; apply inventory_update; auto.
Qed.

Lemma inventory_resized_controllers (current_user : User.t) (lot_id : Z)
      (form : lot_form) (d : db) :
  inventory_ok d ->
  inventory_ok (snd (Controllers.edit_parking_lot current_user POST lot_id form d)).
Proof.
  intros Hinv. unfold Controllers.edit_parking_lot.
  destruct (negb _); [exact Hinv|].
  destruct (get_lot lot_id d) as [lot|] eqn:Hl; [|exact Hinv].
  destruct (get_lot_in _ _ _ Hl) as [Hin Hid].
  fold (occupied_count (Parking_lot.id lot) d).
  destruct (Z.ltb_spec (form_max_no_spots form) (occupied_count (Parking_lot.id lot) d))
    as [?|Hocc]; [exact Hinv|].
  destruct (controllers_resized lot (form_max_no_spots form) d Hinv Hin Hocc)
    as (Hlots & Hk & Hrows & Hcount & Hother).
  set (d1 := if _ >? _ then _ else _) in *.
  cbn [snd].
  set (F := fun l => set_max_no_spots (form_max_no_spots form) (apply_form form l)).
  set (d2 := mkdb (update_lot (Parking_lot.id lot) F (lots d1)) (spots d1) (bookings d1)).
  assert (Hk2 : keys_unique d2) by exact Hk.
  change (Controllers.renumber (Parking_lot.id lot) d2)
    with (mkdb (update_lot (Parking_lot.id lot) F (lots d1))
               (spots (Controllers.renumber (Parking_lot.id lot) d2))
               (bookings d1)).
  rewrite Hlots.
  apply inventory_resized with (n := form_max_no_spots form); trivial.
  - now apply in_map.
  - unfold keys_unique in Hk2 |- *. now rewrite renumber_ids.
  - intros s Hs. rewrite renumber_spots in Hs by trivial.
    apply in_map_iff in Hs. destruct Hs as (r & <- & Hr).
    destruct (renumbered_id (Py.sort ordinal false (spots_of (Parking_lot.id lot) d2)) 1 r)
      as (_ & -> & -> & _).
    now apply Hrows.
  - fold (spots_of (Parking_lot.id lot) (Controllers.renumber (Parking_lot.id lot) d2)).
    rewrite spots_of_renumber, length_map by trivial. exact Hcount.
  - intros other Hne.
    fold (spots_of other (Controllers.renumber (Parking_lot.id lot) d2)).
    rewrite renumber_other by trivial. now apply Hother.
Qed.

Lemma same_key_same_lot (ls : list Parking_lot.t) (x y : Parking_lot.t) :
  NoDup (map Parking_lot.id ls) -> In x ls -> In y ls ->
  Parking_lot.id x = Parking_lot.id y -> x = y.
Proof.
  induction ls as [|l ls IH]; cbn [map]; intros Hn Hx Hy E; [destruct Hx|].
  apply NoDup_cons_iff in Hn. destruct Hn as [Hl Hn].
  destruct Hx as [<-|Hx], Hy as [<-|Hy]; trivial.
  - exfalso. apply Hl. rewrite E. now apply in_map.
  - exfalso. apply Hl. rewrite <- E. now apply in_map.
  - now apply IH.
Qed.

(** [app.py] writes the lot it loaded; with unique keys this is the row
    of the table. *)
Lemma update_lot_loaded (ls : list Parking_lot.t) (lot : Parking_lot.t)
      (g : Parking_lot.t -> Parking_lot.t) :
  NoDup (map Parking_lot.id ls) -> In lot ls ->
  update_lot (Parking_lot.id lot) (fun _ => g lot) ls
  = update_lot (Parking_lot.id lot) g ls.
Proof.
  intros Hn Hin. unfold update_lot. apply map_ext_in. intros l Hl.
  destruct (Z.eqb_spec (Parking_lot.id l) (Parking_lot.id lot)) as [E|_]; trivial.
  now rewrite (same_key_same_lot ls l lot Hn Hl Hin E).
Qed.

Lemma inventory_resized_app (current_user : User.t) (lot_id : Z)
      (form : lot_form) (d : db) :
  inventory_ok d ->
  inventory_ok (snd (App.edit_parking_lot current_user POST lot_id form d)).
Proof.
  intros Hinv. unfold App.edit_parking_lot.
  destruct (negb _); [exact Hinv|].
  destruct (get_lot lot_id d) as [lot|] eqn:Hl; [|exact Hinv].
  destruct (get_lot_in _ _ _ Hl) as [Hin Hid].
  fold (occupied_count (Parking_lot.id lot) d).
  destruct (Z.ltb_spec (form_max_no_spots form) 1) as [?|Hn1]; [exact Hinv|].
  destruct (Z.ltb_spec (form_max_no_spots form) (occupied_count (Parking_lot.id lot) d))
    as [?|Hocc]; [exact Hinv|].
  destruct (if _ >? _ then _ else _) as [d1|] eqn:E; [|exact Hinv].
  destruct (App.violates_unique _ _); [exact Hinv|].
  destruct (app_resized lot (form_max_no_spots form) d Hinv Hin Hocc d1 Hn1 E)
    as (Hlots & Hk & Hrows & Hcount & Hother).
  cbn [snd]. rewrite Hlots.
  rewrite (update_lot_loaded (lots d) lot
             (fun l => set_max_no_spots (form_max_no_spots form) (apply_form form l)));
    trivial; [|now destruct Hinv as (_ & ? & _)].
  apply inventory_resized with (n := form_max_no_spots form); trivial.
  now apply in_map.
Qed.

(** Every request keeps the inventory consistent. *)
Lemma handle_inventory (a : application) (r : request) (d : db) :
  sane r -> inventory_ok d -> inventory_ok (snd (handle a r d)).
Proof.
  intros Hsane Hinv. destruct r as [u f|u l f|u now l v|u now b].
  - now apply inventory_created.
  - destruct a; cbn [handle];
      [now apply inventory_resized_app | now apply inventory_resized_controllers].
  - destruct a; cbn [handle]; now apply inventory_reserved.
  - now apply inventory_released.
Qed.

End InventoryKept.

Lemma run_inventory (a : application) (rs : list request) (d : db) :
  Forall sane rs -> inventory_ok d -> inventory_ok (run a rs d).
Proof.
  unfold run. revert d. induction rs as [|r rs IH]; intros d Hs Hinv; [exact Hinv|].
  apply Forall_cons_iff in Hs. destruct Hs as [Hr Hs].
  cbn [fold_left]. apply IH; trivial. now apply handle_inventory.
Qed.

Lemma inventory_empty : inventory_ok empty_db.
Proof.
  unfold inventory_ok, keys_unique, statuses_ok, spots_have_lots, capacities_met.
  cbn [empty_db spots lots map].
  split; [constructor|]. split; [constructor|].
  split; [intros ? []|]. split; [intros ? [] | intros ? []].
Qed.

(** In [app.py] and in [controllers.py] alike, a run of create, resize,
    reserve and release requests that starts from a consistent inventory
    ends in one, as long as no lot is created with a negative number of
    spots: spot keys and lot keys stay unique, every spot is Available or
    Occupied and belongs to a lot, and every lot has exactly as many spots
    as its recorded capacity.  The empty database is such a start. *)
Theorem run_keeps_inventory (a : application) (rs : list request) (d : db) :
  Forall sane rs -> inventory_ok d ->
  inventory_ok (run a rs d) /\ inventory_ok (run a rs empty_db).
Proof.
  intros Hs Hinv. split.
  - now apply run_inventory.
  - apply run_inventory; [exact Hs | exact inventory_empty].
Qed.

Lemma run_keeps_inventory_witness : inventory_ok shuffled_lot.
Proof.
  apply (run_keeps_inventory AppPy
           [CreateLot admin (form_of 3);
            Reserve (driver 2) 0 1 "TN02"; Reserve (driver 3) 0 1 "TN03";
            Reserve (driver 4) 0 1 "TN04";
            Release (driver 2) hour 1; Release (driver 3) hour 2;
            ResizeLot admin 1 (form_of 1); ResizeLot admin 1 (form_of 2);
            Release (driver 4) hour 3] empty_db).
  - repeat constructor; vm_compute; discriminate.
  - exact inventory_empty.
Defined.

(* ================================================================== *)
(** * [controllers.py] keeps the lots numbered 1, ..., capacity *)
(* ================================================================== *)

Section Numbered.

Lemma sorted_by_key {A} (key : A -> Z) (l : list A) :
  StronglySorted Z.le (map key l) <-> StronglySorted (key_le key) l.
Proof.
  induction l as [|x l IH]; cbn [map].
  - split; constructor.
  - split; intros H; apply StronglySorted_inv in H; destruct H as [Hl Hx];
      constructor; try (now apply IH).
    + rewrite Forall_forall in *. intros y Hy. apply Hx. now apply in_map.
    + rewrite Forall_forall in *. intros k Hk. apply in_map_iff in Hk.
      destruct Hk as (y & <- & Hy). now apply Hx.
Qed.

Lemma range_sorted (a b : Z) : StronglySorted Z.le (Py.range a b).
Proof.
  unfold Py.range. generalize (Z.to_nat (b - a)) as k. generalize 0%nat as s.
  intros s k. revert s. induction k as [|k IH]; intros s; cbn [seq map].
  - constructor.
  - constructor; [apply IH|].
    apply Forall_forall. intros v Hv. apply in_map_iff in Hv.
    destruct Hv as (i & <- & Hi). apply in_seq in Hi. lia.
Qed.

Lemma sorted_app (l1 l2 : list Z) :
  StronglySorted Z.le l1 -> StronglySorted Z.le l2 ->
  (forall x y, In x l1 -> In y l2 -> x <= y) ->
  StronglySorted Z.le (l1 ++ l2).
Proof.
  induction l1 as [|x l1 IH]; intros H1 H2 H; cbn [app]; trivial.
  apply StronglySorted_inv in H1. destruct H1 as [H1 Hx].
  constructor.
  - apply IH; trivial. intros a b Ha Hb. apply H; trivial. now right.
  - apply Forall_app. split; trivial.
    apply Forall_forall. intros y Hy. apply H; trivial. now left.
Qed.

Lemma sorted_filter {A} (key : A -> Z) (p : A -> bool) (l : list A) :
  StronglySorted (key_le key) l -> StronglySorted (key_le key) (filter p l).
Proof.
  induction l as [|x l IH]; intros H; cbn [filter]; trivial.
  apply StronglySorted_inv in H. destruct H as [Hl Hx].
  destruct (p x); [|now apply IH]. constructor; [now apply IH|].
  rewrite Forall_forall in *. intros y Hy. apply filter_In in Hy. now apply Hx.
Qed.

Lemma ordinals_update (lot_id k : Z) (st : string) (u : option Z)
      (ls : list Parking_lot.t) (bs : list Booking.t) (d : db) :
  ordinals lot_id (mkdb ls (update_spot k (Parking_spot.set_occupant st u) (spots d)) bs)
  = ordinals lot_id d.
Proof.
  unfold ordinals. rewrite spots_of_update by reflexivity.
  rewrite map_map. apply map_ext. intros s. now destruct (_ =? k).
Qed.

Lemma ordinals_lot_normalized (lot_id : Z) (tbl : list Parking_spot.t) :
  map ordinal (filter (fun s => Parking_spot.parking_lot_id s =? lot_id)
                      (Controllers.normalize_spots lot_id tbl))
  = map ordinal (filter (fun s => Parking_spot.parking_lot_id s =? lot_id) tbl).
Proof.
  unfold Controllers.normalize_spots. rewrite filter_map_same.
  - rewrite map_map. apply map_ext. intros s.
    destruct (_ =? lot_id); [apply ordinal_normalized | reflexivity].
  - intros s. destruct (Parking_spot.parking_lot_id s =? lot_id) eqn:E;
      cbn [Parking_spot.parking_lot_id Parking_spot.set_spot_number]; now rewrite ?E.
Qed.

(** A lot whose spots are stored in ascending order of their ordinals
    comes out of the renumbering with the ordinals 1, 2, ... in table
    order. *)
Lemma renumber_sorted_lot (lot_id : Z) (d : db) :
  keys_unique d ->
  StronglySorted Z.le (ordinals lot_id d) ->
  ordinals lot_id (Controllers.renumber lot_id d)
  = Py.range 1 (Z.of_nat (List.length (spots_of lot_id d)) + 1).
Proof.
  intros Hu Hs. unfold ordinals in *. rewrite spots_of_renumber by trivial.
  apply (proj1 (sorted_by_key ordinal _)) in Hs.
  rewrite (sort_asc_of_sorted ordinal (spots_of lot_id d) Hs).
  apply ordinals_renumbered_sorted. unfold spots_of. now apply keys_unique_filter.
Qed.

Variables (lot : Parking_lot.t) (n : Z) (d : db).
Hypothesis Hinv : inventory_ok d.
Hypothesis Hnum : numbered d.
Hypothesis Hlot : In lot (lots d).

(** Before the renumbering, the spots of the resized lot are still in
    ascending order. *)
Lemma controllers_resized_sorted :
  StronglySorted Z.le
    (ordinals (Parking_lot.id lot)
       (if n >? Parking_lot.max_no_spots lot then Controllers.grow lot n d
        else if n <? Parking_lot.max_no_spots lot then Controllers.shrink lot n d
             else d)).
Proof.
  assert (Hsorted : StronglySorted Z.le (ordinals (Parking_lot.id lot) d)).
  { rewrite (Hnum lot Hlot). apply range_sorted. }
  destruct (n >? Parking_lot.max_no_spots lot).
  - destruct (controllers_grow_ordinals lot n d) as (new & E & Hall & Hord).
    unfold ordinals, spots_of. rewrite E, spots_of_app_same.
    + rewrite map_app. apply sorted_app.
      * rewrite ordinals_lot_normalized. exact Hsorted.
      * rewrite Hord. apply range_sorted.
      * intros x y Hx Hy. rewrite Hord in Hy. unfold Py.range in Hy.
        apply in_map_iff in Hy. destruct Hy as (i & <- & _).
        apply in_map_iff in Hx. destruct Hx as (s & <- & Hs).
        apply highest_number_bound in Hs. lia.
    + eapply Forall_impl; [|exact Hall]. intros s (H & _). exact H.
  - destruct (n <? Parking_lot.max_no_spots lot); [|exact Hsorted].
    unfold ordinals, Controllers.shrink. rewrite spots_of_delete.
    apply (proj2 (sorted_by_key ordinal _)), sorted_filter,
      (proj1 (sorted_by_key ordinal _)). exact Hsorted.
Qed.

End Numbered.

Section NumberedKept.

Lemma numbered_created (current_user : User.t) (form : lot_form) (d : db) :
  inventory_ok d -> numbered d ->
  numbered (snd (Controllers.create_parking_lot current_user POST form d)).
Proof.
  intros Hinv Hnum.
  destruct (Controllers.create_parking_lot current_user POST form d) as [o d'] eqn:E.
  assert (Ho : o = LotCreated \/ d' = d).
  { unfold Controllers.create_parking_lot in E.
    destruct (negb _); injection E as <- <-; auto. }
  cbn [snd]. destruct Ho as [->| ->]; [|exact Hnum].
  destruct (created_spots ControllersPy current_user form d d' E)
    as (new & -> & Hlabels & Hall).
  destruct Hinv as (Hu & Hl & Hs & Hr & Hc).
  set (new_id := next_id (map Parking_lot.id (lots d))) in *.
  assert (Hfresh : ~ In new_id (map Parking_lot.id (lots d))).
  { intros Hin. apply next_id_fresh in Hin. unfold new_id in Hin. lia. }
  assert (Hall' : Forall (fun s => Parking_spot.parking_lot_id s = new_id) new).
  { eapply Forall_impl; [|exact Hall]. intros s (H & _). exact H. }
  intros lot Hlot. cbn [lots] in Hlot. unfold ordinals, spots_of. cbn [spots].
  apply in_app_or in Hlot. destruct Hlot as [Hlot|[<-|[]]].
  - rewrite spots_of_app_other with (lot_id := new_id); trivial.
    + now apply Hnum.
    + intros E'. apply Hfresh. rewrite <- E'. now apply in_map.
  - cbn [Parking_lot.id Parking_lot.max_no_spots].
    rewrite spots_of_app_same by trivial.
    rewrite (filter_none _ (spots d)), app_nil_l.
    + now apply ordinals_of_labels.
    + intros r Hr'. apply Z.eqb_neq. intros Hl'. apply Hfresh.
      rewrite <- Hl'. now apply Hr.
Qed.

Lemma numbered_resized (current_user : User.t) (lot_id : Z) (form : lot_form) (d : db) :
  inventory_ok d -> numbered d ->
  numbered (snd (Controllers.edit_parking_lot current_user POST lot_id form d)).
Proof.
  intros Hinv Hnum. unfold Controllers.edit_parking_lot.
  destruct (negb _); [exact Hnum|].
  destruct (get_lot lot_id d) as [lot|] eqn:Hl; [|exact Hnum].
  destruct (get_lot_in _ _ _ Hl) as [Hin Hid].
  fold (occupied_count (Parking_lot.id lot) d).
  destruct (Z.ltb_spec (form_max_no_spots form) (occupied_count (Parking_lot.id lot) d))
    as [?|Hocc]; [exact Hnum|].
  destruct (controllers_resized lot (form_max_no_spots form) d Hinv Hin Hocc)
    as (Hlots & Hk & Hrows & Hcount & Hother).
  pose proof (controllers_resized_sorted lot (form_max_no_spots form) d Hnum Hin)
    as Hsorted.
  set (d1 := if _ >? _ then _ else _) in *.
  cbn [snd].
  set (F := fun l => set_max_no_spots (form_max_no_spots form) (apply_form form l)).
  set (d2 := mkdb (update_lot (Parking_lot.id lot) F (lots d1)) (spots d1) (bookings d1)).
  assert (Hk2 : keys_unique d2) by exact Hk.
  intros lot' Hlot'.
  change (lots (Controllers.renumber (Parking_lot.id lot) d2))
    with (update_lot (Parking_lot.id lot) F (lots d1)) in Hlot'.
  rewrite Hlots in Hlot'. unfold update_lot in Hlot'. apply in_map_iff in Hlot'.
  destruct Hlot' as (l0 & <- & Hl0).
  destruct (Z.eqb_spec (Parking_lot.id l0) (Parking_lot.id lot)) as [E|Hne].
  - change (Parking_lot.id (F l0)) with (Parking_lot.id l0). rewrite E.
    change (Parking_lot.max_no_spots (F l0)) with (form_max_no_spots form).
    rewrite renumber_sorted_lot; trivial.
    change (spots_of (Parking_lot.id lot) d2) with (spots_of (Parking_lot.id lot) d1).
    now rewrite Hcount.
  - unfold ordinals. rewrite renumber_other by trivial.
    change (spots_of (Parking_lot.id l0) d2) with (spots_of (Parking_lot.id l0) d1).
    rewrite Hother by trivial. now apply Hnum.
Qed.

Lemma numbered_reserved (current_user : User.t) (now : Z) (lot_id : Z)
      (vehicle_number : string) (d : db) :
  numbered d ->
  numbered (snd (Controllers.reserve_spot current_user now POST lot_id vehicle_number d)).
Proof.
  intros Hnum. unfold Controllers.reserve_spot.
  destruct (active_booking_of _ _); [exact Hnum|].
  destruct (get_lot _ _); [|exact Hnum].
  destruct (spots_with_status _ _ _); [exact Hnum|].
  cbn [snd]. intros lot Hlot. rewrite ordinals_update. now apply Hnum.
Qed.

Lemma numbered_released (current_user : User.t) (now : Z) (booking_id : Z) (d : db) :
  numbered d ->
  numbered (snd (Controllers.release_spot current_user now booking_id d)).
Proof.
  intros Hnum. unfold Controllers.release_spot.
  destruct (get_booking _ _); [|exact Hnum].
  destruct (negb _); [exact Hnum|].
  destruct (get_spot _ _); [|exact Hnum].
  destruct (get_lot _ _); [|exact Hnum].
  cbn [snd]. intros lot Hlot. rewrite ordinals_update. now apply Hnum.
Qed.

Lemma run_numbered (rs : list request) (d : db) :
  Forall sane rs -> inventory_ok d -> numbered d ->
  inventory_ok (run ControllersPy rs d) /\ numbered (run ControllersPy rs d).
Proof.
  unfold run. revert d. induction rs as [|r rs IH]; intros d Hs Hinv Hnum; [auto|].
  apply Forall_cons_iff in Hs. destruct Hs as [Hr Hs].
  cbn [fold_left]. apply IH; trivial.
  - now apply handle_inventory.
  - destruct r as [u f|u l f|u now l v|u now b]; cbn [handle].
    + now apply numbered_created.
    + now apply numbered_resized.
    + now apply numbered_reserved.
    + now apply numbered_released.
Qed.

End NumberedKept.

(** [controllers.py]: a run of create, resize, reserve and release
    requests, none creating a lot with a negative number of spots, that
    starts from a consistent inventory in which the spots of every lot are
    numbered 1, ..., capacity in table order, ends in such an inventory.
    In particular, from the empty database the ordinals of every lot are
    always exactly 1, ..., capacity, without gap or duplicate. *)
Theorem controllers_run_numbered (rs : list request) (d : db) :
  Forall sane rs -> inventory_ok d -> numbered d ->
  numbered (run ControllersPy rs d)
  /\ numbered (run ControllersPy rs empty_db).
Proof.
  intros Hs Hinv Hnum. split.
  - now apply run_numbered.
  - apply run_numbered; trivial; [exact inventory_empty | intros ? []].
Qed.

Lemma controllers_run_numbered_witness :
  numbered (run ControllersPy (fill_and_free ++ [ResizeLot admin 1 (form_of 2)]) empty_db).
Proof.
  apply (controllers_run_numbered
           (fill_and_free ++ [ResizeLot admin 1 (form_of 2)]) empty_db).
  - repeat constructor; vm_compute; discriminate.
  - exact inventory_empty.
  - intros ? [].
Defined.

Section LowestOrdinal.

Lemma range_increasing (a b : Z) : StronglySorted Z.lt (Py.range a b).
Proof.
  unfold Py.range. generalize (Z.to_nat (b - a)) as k. generalize 0%nat as s.
  intros s k. revert s. induction k as [|k IH]; intros s; cbn [seq map].
  - constructor.
  - constructor; [apply IH|].
    apply Forall_forall. intros v Hv. apply in_map_iff in Hv.
    destruct Hv as (i & <- & Hi). apply in_seq in Hi. lia.
Qed.

Lemma sorted_after {A} (R : A -> A -> Prop) (l1 l2 : list A) (x : A) :
  StronglySorted R (l1 ++ x :: l2) -> Forall (R x) l2.
Proof.
  induction l1 as [|y l1 IH]; cbn [app]; intros H;
    apply StronglySorted_inv in H; destruct H as [H Hy]; auto.
Qed.

(** In a lot numbered 1, ..., capacity in table order, the first
    Available spot has a lower ordinal than every other Available spot. *)
Lemma first_available_lowest (lot : Parking_lot.t) (d : db)
      (spot : Parking_spot.t) (rest : list Parking_spot.t) :
  numbered d -> In lot (lots d) ->
  spots_with_status (Parking_lot.id lot) "A" d = spot :: rest ->
  forall s, In s rest -> ordinal spot < ordinal s.
Proof.
  intros Hnum Hlot Hav s Hs.
  unfold spots_with_status in Hav. rewrite <- filter_both in Hav.
  fold (spots_of (Parking_lot.id lot) d) in Hav.
  destruct (filter_head_split _ _ _ _ Hav) as (before & after & HL & Hbefore & _).
  pose proof (Hnum lot Hlot) as Hord. unfold ordinals in Hord.
  rewrite HL in Hav, Hord. rewrite filter_app, (filter_none _ before Hbefore) in Hav.
  cbn [filter app] in Hav.
  destruct (String.eqb (Parking_spot.status spot) "A"); [|].
  - injection Hav as <-. apply filter_In in Hs. destruct Hs as [Hs _].
    rewrite map_app in Hord. cbn [map] in Hord.
    pose proof (range_increasing 1 (Parking_lot.max_no_spots lot + 1)) as Hinc.
    rewrite <- Hord in Hinc. apply sorted_after in Hinc.
    rewrite Forall_forall in Hinc. apply Hinc. now apply in_map.
  - assert (Hin : In spot (spot :: rest)) by now left.
    rewrite <- Hav in Hin. apply filter_In in Hin. destruct Hin as [Hin Hst].
    assert (Hs' : In s (spot :: rest)) by now right.
    rewrite <- Hav in Hs'. apply filter_In in Hs'. destruct Hs' as [Hs' _].
    rewrite map_app in Hord. cbn [map] in Hord.
    pose proof (range_increasing 1 (Parking_lot.max_no_spots lot + 1)) as Hinc.
    rewrite <- Hord in Hinc. apply sorted_after in Hinc.
    rewrite Forall_forall in Hinc.
    assert (Hafter : forall t, In t after -> ordinal spot < ordinal t)
      by (intros t Ht; apply Hinc; now apply in_map).
    pose proof (Hafter spot Hin). lia.
Qed.

End LowestOrdinal.

(** [controllers.py]: after any run of requests from the empty database
    (no lot created with a negative number of spots), a reservation that
    succeeds takes the Available spot of the lot with the lowest ordinal:
    every other Available spot of the lot has a higher ordinal. *)
Theorem controllers_reserve_lowest_ordinal
  (rs : list request) (current_user : User.t) (now : Z) (lot_id : Z)
  (vehicle_number : string) (spot' : Parking_spot.t) (booking : Booking.t) (d' : db) :
  Forall sane rs ->
  Controllers.reserve_spot current_user now POST lot_id vehicle_number
    (run ControllersPy rs empty_db) = (Reserved spot' booking, d') ->
  exists spot rest,
    spots_with_status lot_id "A" (run ControllersPy rs empty_db) = spot :: rest
    /\ spot' = Parking_spot.set_occupant "O" (Some (User.id current_user)) spot
    /\ ordinal spot' = ordinal spot
    /\ forall s, In s rest -> ordinal spot' < ordinal s.
Proof.
  intros Hs H.
  destruct (run_numbered rs empty_db Hs inventory_empty) as [_ Hnum];
    [intros ? []|].
  set (d := run ControllersPy rs empty_db) in *.
  unfold Controllers.reserve_spot in H.
  destruct (active_booking_of _ _); [discriminate|].
  destruct (get_lot lot_id d) as [lot|] eqn:Hl; [|discriminate].
  destruct (get_lot_in _ _ _ Hl) as [Hin Hid].
  destruct (spots_with_status lot_id "A" d) as [|spot rest] eqn:Hav; [discriminate|].
  injection H as <- _ _.
  exists spot, rest. split; [reflexivity|]. split; [reflexivity|].
  split; [reflexivity|].
  intros s Hs'. change (ordinal spot < ordinal s).
  rewrite <- Hid in Hav. now apply (first_available_lowest lot d spot rest).
Qed.

Lemma controllers_reserve_lowest_ordinal_witness :
  exists spot rest,
    spots_with_status 1 "A" (run ControllersPy fill_and_free empty_db) = spot :: rest
    /\ ordinal spot = 1
    /\ forall s, In s rest -> ordinal spot < ordinal s.
Proof.
  destruct (controllers_reserve_lowest_ordinal fill_and_free (driver 2) (2 * hour) 1 "TN02"
              (Parking_spot.mk 1 1 "S1" "O" (Some 2))
              (Booking.mk 4 2 1 1 "TN02" (2 * hour) None None)
              (snd (Controllers.reserve_spot (driver 2) (2 * hour) POST 1 "TN02"
                      (run ControllersPy fill_and_free empty_db))))
    as (spot & rest & E & Hs & Ho & Hlow).
  - repeat constructor; vm_compute; discriminate.
  - reflexivity.
  - exists spot, rest. split; [exact E|]. split.
    + rewrite <- Ho. reflexivity.
    + intros s Hin. rewrite <- Ho. now apply Hlow.
Defined.

(* ================================================================== *)
(** * Deleting a lot *)
(* ================================================================== *)

Section Deleting.

Lemma delete_parking_lot_same (current_user : User.t) (lot_id : Z) (d : db) :
  App.delete_parking_lot current_user lot_id d
  = Controllers.delete_parking_lot current_user lot_id d.
Proof. reflexivity. Qed.

Lemma filter_nil_none {A} (p : A -> bool) (l : list A) (x : A) :
  filter p l = [] -> In x l -> p x = false.
Proof.
  intros E Hin. destruct (p x) eqn:Hp; trivial.
  assert (H : In x (filter p l)) by (apply filter_In; auto).
  rewrite E in H. destruct H.
Qed.

End Deleting.

(** [delete_parking_lot], in either file: while one spot of the lot is
    Occupied the request deletes nothing, whoever sends it.  An admin is
    told 'Cannot delete a lot with occupied spots.' *)
Theorem delete_parking_lot_occupied
  (current_user : User.t) (lot_id : Z) (d : db) (s : Parking_spot.t) :
  In s (spots d) -> Parking_spot.parking_lot_id s = lot_id ->
  Parking_spot.status s = "O" ->
  snd (Controllers.delete_parking_lot current_user lot_id d) = d
  /\ snd (App.delete_parking_lot current_user lot_id d) = d
  /\ fst (Controllers.delete_parking_lot current_user lot_id d) <> LotDeleted
  /\ (User.is_admin current_user = true ->
      forall lot, get_lot lot_id d = Some lot ->
                  Controllers.delete_parking_lot current_user lot_id d
                  = (LotHasOccupants, d)).
Proof.
  intros Hin Hl Hst.
  change (App.delete_parking_lot current_user lot_id d)
    with (Controllers.delete_parking_lot current_user lot_id d).
  assert (Hocc : (Z.of_nat (List.length (spots_with_status lot_id "O" d)) >? 0) = true).
  { destruct (spots_with_status lot_id "O" d) as [|x l] eqn:E.
    - exfalso. unfold spots_with_status in E.
      pose proof (filter_nil_none _ _ s E Hin) as H. cbv beta in H.
      rewrite Hl, Hst, Z.eqb_refl in H. discriminate.
    - cbn [List.length]. apply Z.gtb_lt. lia. }
  unfold Controllers.delete_parking_lot. rewrite Hocc.
  destruct (negb (User.is_admin current_user)) eqn:Ha.
  - repeat split; try discriminate.
    intros Ha'. rewrite Ha' in Ha. discriminate.
  - destruct (get_lot lot_id d); repeat split; try discriminate.
Qed.

Lemma delete_parking_lot_occupied_witness :
  Controllers.delete_parking_lot admin 1 one_spot_taken = (LotHasOccupants, one_spot_taken).
Proof.
  destruct (delete_parking_lot_occupied admin 1 one_spot_taken
              (Parking_spot.mk 1 1 "S1" "O" (Some 2)))
    as (_ & _ & _ & H).
  - left. reflexivity.
  - reflexivity.
  - reflexivity.
  - apply (H eq_refl (Parking_lot.mk 1 "Central" "1 Main Road" "600001" 60 1)).
    reflexivity.
Defined.

(** [delete_parking_lot], in either file, on a spot table with unique
    keys: when it answers 'Parking lot deleted successfully.', the caller
    is an admin, no spot of the lot was Occupied, the lot is gone from the
    lot table, no spot of it is left, no booking that remains refers to
    the lot or to one of its spots, and the spots of every other lot are
    as before. *)
Theorem delete_parking_lot_cascade
  (current_user : User.t) (lot_id : Z) (d d' : db) :
  keys_unique d ->
  Controllers.delete_parking_lot current_user lot_id d = (LotDeleted, d') ->
  App.delete_parking_lot current_user lot_id d = (LotDeleted, d')
  /\ User.is_admin current_user = true
  /\ (forall s, In s (spots_of lot_id d) -> Parking_spot.status s <> "O")
  /\ get_lot lot_id d' = None
  /\ lots d' = filter (fun l => negb (Parking_lot.id l =? lot_id)) (lots d)
  /\ spots_of lot_id d' = []
  /\ (forall b, In b (bookings d') ->
                In b (bookings d)
                /\ Booking.parking_lot_id b <> lot_id
                /\ ~ In (Booking.parking_spot_id b)
                        (map Parking_spot.id (spots_of lot_id d)))
  /\ (forall other, other <> lot_id -> spots_of other d' = spots_of other d).
Proof.
  intros Hu H. split; [exact H|].
  unfold Controllers.delete_parking_lot in H.
  destruct (User.is_admin current_user); cbn [negb] in H; [|discriminate].
  destruct (get_lot lot_id d) as [lot|] eqn:Hl; [|discriminate].
  destruct (get_lot_in _ _ _ Hl) as [Hin Hid].
  destruct (Z.gtb_spec (Z.of_nat (List.length (spots_with_status lot_id "O" d))) 0)
    as [?|Hocc]; [discriminate|].
  destruct (delete_lot lot d) as [d1|] eqn:E; [|discriminate].
  injection H as <-. unfold delete_lot in E. rewrite Hid in E.
  destruct (existsb _ _) eqn:Hb; [discriminate|]. injection E as <-.
  split; [reflexivity|]. split; [|split; [|split; [|split; [|split]]]].
  - intros s Hs Hst.
    assert (Hnil : spots_with_status lot_id "O" d = [])
      by (destruct (spots_with_status lot_id "O" d); [trivial | cbn in Hocc; lia]).
    unfold spots_of in Hs. apply filter_In in Hs. destruct Hs as [Hs Hls].
    pose proof (filter_nil_none _ _ s Hnil Hs) as Hf. cbv beta in Hf.
    rewrite Hls, Hst in Hf. discriminate.
  - unfold get_lot. cbn [lots delete_spots].
    destruct (find _ _) as [l|] eqn:F; trivial.
    apply find_some in F. destruct F as [F1 F2]. apply filter_In in F1.
    destruct F1 as [_ F1]. rewrite F2 in F1. discriminate.
  - reflexivity.
  - change (spots_of lot_id (delete_spots (spots_of lot_id d) d) = []).
    rewrite spots_of_delete. apply filter_none. intros s Hs.
    apply negb_false_iff, mem_In. now apply in_map.
  - intros b Hbin. cbn [bookings delete_spots] in Hbin |- *.
    pose proof Hbin as Hbin'. apply filter_In in Hbin'. destruct Hbin' as [Hb1 Hb2].
    split; [exact Hb1|]. split.
    + intros Hbl.
      assert (Hex : existsb (fun b0 => Booking.parking_lot_id b0 =? lot_id)
                            (bookings (delete_spots (spots_of lot_id d) d)) = true).
      { apply existsb_exists. exists b. split; [exact Hbin | now apply Z.eqb_eq]. }
      congruence.
    + intros Hsp. apply mem_In in Hsp. rewrite Hsp in Hb2. discriminate.
  - intros other Hne.
    change (spots_of other (delete_spots (spots_of lot_id d) d) = spots_of other d).
    apply spots_of_delete_other with (lot_id := lot_id); trivial.
    intros s Hs. unfold spots_of in Hs. apply filter_In in Hs.
    destruct Hs as [Hs Hls]. apply Z.eqb_eq in Hls. auto.
Qed.

Lemma delete_parking_lot_cascade_witness :
  get_lot 1 (snd (Controllers.delete_parking_lot admin 1
                    (run ControllersPy [CreateLot admin (form_of 3)] empty_db))) = None.
Proof.
  apply (delete_parking_lot_cascade admin 1
           (run ControllersPy [CreateLot admin (form_of 3)] empty_db)
           (snd (Controllers.delete_parking_lot admin 1
                   (run ControllersPy [CreateLot admin (form_of 3)] empty_db)))).
  - unfold keys_unique. vm_compute. repeat constructor; simpl; intuition discriminate.
  - reflexivity.
Defined.

(* ================================================================== *)
(** * The dashboards *)
(* ================================================================== *)

(** On a consistent inventory the two dashboards of [controllers.py] tell
    the same story: for every lot, [max_no_spots] minus the occupied
    spots, which the admin sees as available, is the number of spots with
    status ['A'] that the user sees; it is not negative, and occupied and
    available spots add up to the capacity. *)
Theorem dashboards_agree (viewer staff : User.t) (d : db) :
  inventory_ok d ->
  User.is_admin staff = true ->
  exists figures totals,
    Controllers.admin_dashboard staff d = Some (figures, totals)
    /\ map (fun f => (figures_lot f, available_spots f)) figures
       = fst (Controllers.user_dashboard viewer d)
    /\ map figures_lot figures = lots d
    /\ Forall (fun f => 0 <= occupied_spots f
                        /\ 0 <= available_spots f
                        /\ occupied_spots f + available_spots f
                           = Parking_lot.max_no_spots (figures_lot f)) figures.
Proof.
  intros Hinv Ha. unfold Controllers.admin_dashboard. rewrite Ha. cbn [negb].
  do 2 eexists. split; [reflexivity|]. split; [|split].
  - unfold Controllers.user_dashboard. cbn [fst]. rewrite map_map.
    apply map_ext_in. intros lot Hlot. cbn [figures_lot available_spots]. f_equal.
    rewrite (available_count lot d Hinv), (lot_count lot d Hinv Hlot).
    reflexivity.
  - rewrite map_map. cbn [figures_lot]. apply map_id.
  - apply Forall_forall. intros f Hf. apply in_map_iff in Hf.
    destruct Hf as (lot & <- & Hlot). cbn [figures_lot available_spots occupied_spots].
    pose proof (available_count lot d Hinv) as Hav.
    pose proof (lot_count lot d Hinv Hlot) as Hc.
    unfold occupied_count in Hav. lia.
Qed.

Lemma dashboards_agree_witness :
  exists figures totals,
    Controllers.admin_dashboard admin shuffled_lot = Some (figures, totals)
    /\ map (fun f => (figures_lot f, available_spots f)) figures
       = fst (Controllers.user_dashboard (driver 2) shuffled_lot).
Proof.
  destruct (dashboards_agree (driver 2) admin shuffled_lot)
    as (figures & totals & E & H & _).
  - apply (run_inventory AppPy).
    + repeat constructor; vm_compute; discriminate.
    + exact inventory_empty.
  - reflexivity.
  - exists figures, totals. auto.
Defined.

(* ================================================================== *)
(** * A release frees the driver *)
(* ================================================================== *)

Section Releasing.

Lemma find_none_all {A} (p : A -> bool) (l : list A) :
  (forall x, In x l -> p x = false) -> find p l = None.
Proof.
  induction l as [|x l IH]; intros H; trivial. cbn [find].
  rewrite (H x (or_introl eq_refl)). apply IH. intros y Hy. apply H. now right.
Qed.

Lemma get_spot_split (spot_id : Z) (d : db) (spot : Parking_spot.t) :
  keys_unique d -> get_spot spot_id d = Some spot ->
  exists before after,
    spots d = before ++ spot :: after
    /\ forall f, update_spot (Parking_spot.id spot) f (spots d)
                 = before ++ f spot :: after.
Proof.
  intros Hu H. unfold get_spot in H. apply find_some in H. destruct H as [Hin _].
  apply in_split in Hin. destruct Hin as (before & after & E).
  exists before, after. split; [exact E|]. intros f. rewrite E.
  apply update_spot_split. unfold keys_unique in Hu. now rewrite <- E.
Qed.

End Releasing.

(** [release_spot], in either file, on a spot table with unique keys.
    When it answers 'Spot released', the booking was the caller's, it now
    has the clock reading as [out_time] and the cost of the answer; the
    spot of the booking is Available and has no occupant, and no other row
    of the spot table or of the lot table changed.  If the booking was the
    caller's only active one, the caller has no active booking left, so
    that a reservation is no longer refused for that reason. *)
Theorem release_spot_frees
  (a : application) (current_user : User.t) (now : Z) (booking_id : Z)
  (d d' : db) (cost : Q) :
  keys_unique d ->
  handle a (Release current_user now booking_id) d = (Released cost, d') ->
  (exists booking spot before after,
      get_booking booking_id d = Some booking
      /\ Booking.user_id booking = User.id current_user
      /\ Parking_spot.id spot = Booking.parking_spot_id booking
      /\ spots d = before ++ spot :: after
      /\ spots d' = before ++ Parking_spot.set_occupant "A" None spot :: after
      /\ get_booking booking_id d' = Some (Booking.close now cost booking))
  /\ lots d' = lots d
  /\ map Booking.id (bookings d') = map Booking.id (bookings d)
  /\ ((forall b, In b (bookings d) ->
                 Booking.user_id b = User.id current_user ->
                 Booking.out_time b = None -> Booking.id b = booking_id) ->
      active_booking_of (User.id current_user) d' = None
      /\ forall now' lot_id vehicle_number,
           fst (handle a (Reserve current_user now' lot_id vehicle_number) d')
           <> AlreadyParked).
Proof.
  intros Hu H.
  assert (Hshape : exists booking spot lot,
             get_booking booking_id d = Some booking
             /\ Booking.user_id booking = User.id current_user
             /\ get_spot (Booking.parking_spot_id booking) d = Some spot
             /\ get_lot (Booking.parking_lot_id booking) d = Some lot
             /\ d' = mkdb (lots d)
                          (update_spot (Parking_spot.id spot)
                             (Parking_spot.set_occupant "A" None) (spots d))
                          (update_booking booking_id (Booking.close now cost)
                                          (bookings d))).
  { destruct a; cbn [handle] in H; unfold App.release_spot, Controllers.release_spot in H;
      (destruct (get_booking booking_id d) as [booking|] eqn:Eb; [|discriminate]);
      (destruct (Z.eqb_spec (Booking.user_id booking) (User.id current_user)) as [Eu|];
       cbn [negb] in H; [|discriminate]);
      (destruct (get_spot _ d) as [spot|] eqn:Es; [|discriminate]);
      (destruct (get_lot _ d) as [lot|] eqn:El; [|discriminate]);
      injection H as <- <-; exists booking, spot, lot; repeat split; auto. }
  destruct Hshape as (booking & spot & lot & Hb & Hown & Hsp & Hl & ->).
  destruct (get_spot_split _ _ _ Hu Hsp) as (before & after & E & Hupd).
  pose proof (get_booking_id _ _ _ Hb) as Hbid.
  split; [|split; [|split]].
  - exists booking, spot, before, after. cbn [spots].
    split; [exact Hb|]. split; [exact Hown|].
    split; [now apply get_spot_id in Hsp|]. split; [exact E|].
    split; [apply Hupd|].
    rewrite get_booking_update, Hb by reflexivity. cbn [option_map].
    now rewrite Hbid, Z.eqb_refl.
  - reflexivity.
  - cbn [bookings]. unfold update_booking. rewrite map_map. apply map_ext.
    intros b. now destruct (_ =? booking_id).
  - intros Honly.
    assert (Hnone : active_booking_of (User.id current_user)
                      (mkdb (lots d)
                            (update_spot (Parking_spot.id spot)
                               (Parking_spot.set_occupant "A" None) (spots d))
                            (update_booking booking_id (Booking.close now cost)
                                            (bookings d))) = None).
    { unfold active_booking_of. cbn [bookings]. apply find_none_all.
      intros b Hin. unfold update_booking in Hin. apply in_map_iff in Hin.
      destruct Hin as (b0 & <- & Hb0).
      destruct (Z.eqb_spec (Booking.id b0) booking_id) as [Eid|Hne].
      - cbn [Booking.active Booking.out_time Booking.close]. apply andb_false_r.
      - destruct (Z.eqb_spec (Booking.user_id b0) (User.id current_user)) as [Eu|];
          cbn [andb]; trivial.
        unfold Booking.active. destruct (Booking.out_time b0) eqn:Eo; trivial.
        exfalso. apply Hne. now apply Honly. }
    split; [exact Hnone|].
    intros now' lot_id vehicle_number.
    assert (Er : handle a (Reserve current_user now' lot_id vehicle_number)
                   (mkdb (lots d)
                         (update_spot (Parking_spot.id spot)
                            (Parking_spot.set_occupant "A" None) (spots d))
                         (update_booking booking_id (Booking.close now cost)
                                         (bookings d)))
                 = App.reserve_spot current_user now' POST lot_id vehicle_number
                     (mkdb (lots d)
                           (update_spot (Parking_spot.id spot)
                              (Parking_spot.set_occupant "A" None) (spots d))
                           (update_booking booking_id (Booking.close now cost)
                                           (bookings d))))
      by (destruct a; reflexivity).
    rewrite Er. unfold App.reserve_spot. rewrite Hnone.
    destruct (get_lot lot_id _); [|discriminate].
    destruct (spots_with_status lot_id "A" _); discriminate.
Qed.

Lemma release_spot_frees_witness :
  active_booking_of 2 (snd (handle AppPy (Release (driver 2) hour 1) one_spot_taken))
  = None.
Proof.
  destruct (release_spot_frees AppPy (driver 2) hour 1 one_spot_taken
              (snd (handle AppPy (Release (driver 2) hour 1) one_spot_taken))
              (6000 # 100))
    as (_ & _ & _ & H).
  - unfold keys_unique. vm_compute. repeat constructor; simpl; intuition discriminate.
  - reflexivity.
  - apply H. intros b [<-|[]] _ _. reflexivity.
Defined.

(* ================================================================== *)
(** * A shrinking lot loses its highest Available spots *)
(* ================================================================== *)

Section Highest.

Lemma insert_desc_sorted {A} (key : A -> Z) (x : A) (l : list A) :
  StronglySorted (key_ge key) l -> StronglySorted (key_ge key) (Py.insert_desc key x l).
Proof.
  induction l as [|y l IH]; intros Hs; cbn [Py.insert_desc].
  - repeat constructor.
  - apply StronglySorted_inv in Hs. destruct Hs as [Hl Hy].
    destruct (Z.leb_spec (key y) (key x)) as [Hle|Hgt].
    + constructor; [constructor; trivial|].
      constructor; [exact Hle|].
      eapply Forall_impl; [|exact Hy]. unfold key_ge. intros z Hz. lia.
    + constructor; [now apply IH|].
      eapply Permutation_Forall.
      * symmetry. apply insert_desc_perm.
      * constructor; [unfold key_ge; lia | exact Hy].
Qed.

Lemma sort_desc_sorted {A} (key : A -> Z) (l : list A) :
  StronglySorted (key_ge key) (Py.sort key true l).
Proof.
  unfold Py.sort. induction l as [|x l IH]; cbn [fold_right].
  - constructor.
  - now apply insert_desc_sorted.
Qed.

(** In a list sorted downwards, what the slice [l[:n]] takes is not
    below what it leaves. *)
Lemma sorted_firstn_skipn {A} (key : A -> Z) (n : nat) (l : list A) (x y : A) :
  StronglySorted (key_ge key) l ->
  In x (firstn n l) -> In y (skipn n l) -> key y <= key x.
Proof.
  revert n. induction l as [|z l IH]; intros n Hs Hx Hy.
  - rewrite firstn_nil in Hx. destruct Hx.
  - destruct n as [|n]; [destruct Hx|].
    apply StronglySorted_inv in Hs. destruct Hs as [Hl Hz].
    cbn [firstn skipn] in Hx, Hy. destruct Hx as [<-|Hx].
    + rewrite Forall_forall in Hz. apply (Hz y).
      rewrite <- (firstn_skipn n l). apply in_or_app. now right.
    + now apply (IH n).
Qed.

Lemma in_firstn_or_skipn {A} (n : nat) (l : list A) (x : A) :
  In x l -> In x (firstn n l) \/ In x (skipn n l).
Proof. intros H. rewrite <- (firstn_skipn n l) in H. now apply in_app_or in H. Qed.

Lemma sort_keys_key (l : list Parking_spot.t) (keyed : list (Z * Parking_spot.t)) :
  App.sort_keys l = Some keyed ->
  forall k s, In (k, s) keyed -> app_key s = Some k.
Proof.
  revert keyed. induction l as [|x l IH]; cbn [App.sort_keys]; intros keyed H k s Hin.
  - injection H as <-. destruct Hin.
  - destruct (Py.int _) as [kx|] eqn:E; [|discriminate].
    destruct (App.sort_keys l) as [r|]; [|discriminate].
    injection H as <-. destruct Hin as [Hin|Hin].
    + injection Hin as <- <-. exact E.
    + now apply (IH r).
Qed.

End Highest.

(** [controllers.py], shrinking branch of [edit_parking_lot]: the spots
    it deletes are Available spots of the lot, and each of them has an
    ordinal not below that of any Available spot the lot keeps: the
    highest numbers go first. *)
Theorem controllers_shrink_removes_highest
  (lot : Parking_lot.t) (n : Z) (d : db) (r s : Parking_spot.t) :
  In r (Controllers.spots_to_remove lot n d) ->
  In s (spots_with_status (Parking_lot.id lot) "A" (Controllers.shrink lot n d)) ->
  Parking_spot.status r = "A"
  /\ Parking_spot.parking_lot_id r = Parking_lot.id lot
  /\ In s (spots d)
  /\ ordinal s <= ordinal r.
Proof.
  intros Hr Hs.
  destruct (controllers_spots_to_remove_available lot n d r Hr) as (_ & Hst & Hl).
  unfold spots_with_status, Controllers.shrink, delete_spots in Hs. cbn [spots] in Hs.
  apply filter_In in Hs. destruct Hs as [Hs Hp]. apply filter_In in Hs.
  destruct Hs as [Hin Hkeep]. apply negb_true_iff in Hkeep.
  apply andb_true_iff in Hp. destruct Hp as [Hsl Hsa].
  split; [exact Hst|]. split; [exact Hl|]. split; [exact Hin|].
  unfold Controllers.spots_to_remove in Hr, Hkeep.
  set (av := filter (fun s => String.eqb (Parking_spot.status s) "A")
                    (Py.sort Controllers.get_spot_number false
                             (spots_of (Parking_lot.id lot) d))) in *.
  destruct (_ <? _); [|destruct Hr].
  assert (Hsav : In s (Py.sort Controllers.get_spot_number true av)).
  { apply sort_In. unfold av. apply filter_In. split; [|exact Hsa].
    apply sort_In. unfold spots_of. apply filter_In. auto. }
  unfold Py.slice_to in Hr, Hkeep.
  destruct (_ <? 0);
    (match type of Hr with
     | In _ (firstn ?k ?l) =>
         destruct (in_firstn_or_skipn k l s Hsav) as [Hfirst|Hskip];
         [apply (in_map Parking_spot.id) in Hfirst; apply mem_In in Hfirst; congruence
         |exact (sorted_firstn_skipn Controllers.get_spot_number k l r s
                   (sort_desc_sorted _ _) Hr Hskip)]
     end).
Qed.

Lemma controllers_shrink_removes_highest_witness :
  ordinal (Parking_spot.mk 1 1 "S1" "A" None) <= ordinal (Parking_spot.mk 2 1 "S2" "A" None).
Proof.
  apply (controllers_shrink_removes_highest
           (Parking_lot.mk 1 "Central" "1 Main Road" "600001" 60 3) 2
           (last_spot_taken ControllersPy)
           (Parking_spot.mk 2 1 "S2" "A" None) (Parking_spot.mk 1 1 "S1" "A" None)).
  - vm_compute. auto.
  - vm_compute. auto.
Defined.

(** [app.py], shrinking branch of [edit_parking_lot]: the spots it
    deletes are Available spots of the lot, and the number after the first
    character of each is not below that of any Available spot the lot
    keeps. *)
Theorem app_shrink_removes_highest
  (lot : Parking_lot.t) (n : Z) (d : db) (doomed : list Parking_spot.t)
  (r s : Parking_spot.t) :
  App.spots_to_remove lot n d = Some doomed ->
  In r doomed ->
  In s (spots_with_status (Parking_lot.id lot) "A" (delete_spots doomed d)) ->
  Parking_spot.status r = "A"
  /\ Parking_spot.parking_lot_id r = Parking_lot.id lot
  /\ exists kr ks, app_key r = Some kr /\ app_key s = Some ks /\ ks <= kr.
Proof.
  intros E Hr Hs.
  destruct (app_spots_to_remove_available lot n d doomed r E Hr) as (_ & Hst & Hl).
  split; [exact Hst|]. split; [exact Hl|].
  unfold spots_with_status, delete_spots in Hs. cbn [spots] in Hs.
  apply filter_In in Hs. destruct Hs as [Hs Hp]. apply filter_In in Hs.
  destruct Hs as [Hin Hkeep]. apply negb_true_iff in Hkeep.
  unfold App.spots_to_remove in E.
  destruct (App.sort_keys _) as [keyed|] eqn:Ek; [|discriminate].
  injection E as <-.
  pose proof (sort_keys_snd _ _ Ek) as Hsnd.
  pose proof (sort_keys_key _ _ Ek) as Hkey.
  set (S := Py.sort fst true keyed) in *.
  assert (HS : forall k x, In (k, x) S -> app_key x = Some k).
  { intros k x Hx. apply (Hkey k x). unfold S in Hx. now apply sort_In in Hx. }
  assert (Hsav : exists ks, In (ks, s) S).
  { assert (H : In s (map snd keyed)).
    { rewrite Hsnd. unfold spots_with_status. apply filter_In. auto. }
    apply in_map_iff in H. destruct H as ([ks x] & Ex & Hx). cbn [snd] in Ex. subst x.
    exists ks. unfold S. now apply sort_In. }
  destruct Hsav as (ks & Hks).
  unfold Py.slice_to in Hr, Hkeep.
  destruct (_ <? 0);
    (match type of Hr with
     | In _ (firstn ?k (map snd S)) =>
         rewrite firstn_map in Hr, Hkeep;
         apply in_map_iff in Hr; destruct Hr as ([kr x] & Ex & Hx);
         cbn [snd] in Ex; subst x;
         destruct (in_firstn_or_skipn k S (ks, s) Hks) as [Hfirst|Hskip];
         [exfalso;
          assert (Hm : mem (Parking_spot.id s)
                           (map Parking_spot.id (map snd (firstn k S))) = true)
            by (apply mem_In, in_map; apply (in_map snd) in Hfirst; exact Hfirst);
          congruence
         |exists kr, ks; split; [apply HS; rewrite <- (firstn_skipn k S); apply in_or_app; now left|];
          split; [now apply HS|];
          exact (sorted_firstn_skipn fst k S (kr, r) (ks, s)
                   (sort_desc_sorted _ _) Hx Hskip)]
     end).
Qed.

Lemma app_shrink_removes_highest_witness :
  exists kr ks,
    app_key (Parking_spot.mk 2 1 "S2" "A" None) = Some kr
    /\ app_key (Parking_spot.mk 1 1 "S1" "A" None) = Some ks
    /\ ks <= kr.
Proof.
  apply (app_shrink_removes_highest
           (Parking_lot.mk 1 "Central" "1 Main Road" "600001" 60 3) 2
           (last_spot_taken AppPy)
           [Parking_spot.mk 2 1 "S2" "A" None]
           (Parking_spot.mk 2 1 "S2" "A" None) (Parking_spot.mk 1 1 "S1" "A" None)).
  - reflexivity.
  - left. reflexivity.
  - vm_compute. auto.
Defined.

(* ================================================================== *)
(** * Spot numbers of [app.py] *)
(* ================================================================== *)

Section AppLabels.

(** [int(f"S{i}"[1:]) == i] *)
Lemma app_key_label (i : Z) (s : Parking_spot.t) :
  Parking_spot.spot_number s = App.spot_label i -> app_key s = Some i.
Proof.
  intros E. unfold app_key. rewrite E. unfold App.spot_label. cbn [Py.tail].
  apply int_str.
Qed.

Lemma sort_keys_labelled (l : list Parking_spot.t) :
  (forall s, In s l -> exists i, Parking_spot.spot_number s = App.spot_label i) ->
  exists keyed, App.sort_keys l = Some keyed.
Proof.
  induction l as [|x l IH]; intros H; cbn [App.sort_keys]; [now eexists|].
  destruct (H x (or_introl eq_refl)) as (i & Ei).
  pose proof (app_key_label i x Ei) as Ek. unfold app_key in Ek. rewrite Ek.
  destruct IH as (r & ->); [intros s Hs; apply H; now right|]. now eexists.
Qed.

Lemma labelled_added (lot_id : Z) (idxs : list Z) (tbl : list Parking_spot.t) :
  (forall s, In s tbl -> exists i, Parking_spot.spot_number s = App.spot_label i) ->
  forall s, In s (fold_left (fun tbl i => add_spot lot_id (App.spot_label i) tbl) idxs tbl) ->
            exists i, Parking_spot.spot_number s = App.spot_label i.
Proof.
  revert tbl. induction idxs as [|i idxs IH]; intros tbl H s Hs; cbn [fold_left] in Hs.
  - now apply H.
  - apply (IH (add_spot lot_id (App.spot_label i) tbl)); trivial.
    intros r Hr. unfold add_spot in Hr. apply in_app_or in Hr.
    destruct Hr as [Hr|[<-|[]]]; [now apply H | now exists i].
Qed.

Lemma labelled_updated (k : Z) (st : string) (u : option Z) (tbl : list Parking_spot.t) :
  (forall s, In s tbl -> exists i, Parking_spot.spot_number s = App.spot_label i) ->
  forall s, In s (update_spot k (Parking_spot.set_occupant st u) tbl) ->
            exists i, Parking_spot.spot_number s = App.spot_label i.
Proof.
  intros H s Hs. unfold update_spot in Hs. apply in_map_iff in Hs.
  destruct Hs as (r & <- & Hr). destruct (H r Hr) as (i & Ei). exists i.
  now destruct (_ =? k).
Qed.

Lemma labelled_handle (r : request) (d : db) :
  labelled d -> labelled (snd (handle AppPy r d)).
Proof.
  intros H. destruct r as [u f|u l f|u now l v|u now b]; cbn [handle].
  - unfold App.create_parking_lot.
    destruct (negb _); [exact H|]. destruct (App.violates_unique _ _); [exact H|].
    cbn [snd]. intros s Hs. cbn [spots] in Hs. now apply labelled_added in Hs.
  - unfold App.edit_parking_lot.
    destruct (negb _); [exact H|]. destruct (get_lot l d) as [lot|]; [|exact H].
    destruct (_ <? 1); [exact H|]. destruct (_ <? _); [exact H|].
    destruct (_ >? _).
    + destruct (App.violates_unique _ _); [exact H|].
      cbn [snd]. intros s Hs. cbn [spots App.grow] in Hs.
      now apply labelled_added in Hs.
    + destruct (_ <? _).
      * destruct (App.spots_to_remove _ _ _) as [doomed|]; cbn [option_map]; [|exact H].
        destruct (App.violates_unique _ _); [exact H|].
        cbn [snd]. intros s Hs. cbn [spots delete_spots] in Hs.
        apply filter_In in Hs. now apply H.
      * destruct (App.violates_unique _ _); exact H.
  - unfold App.reserve_spot.
    destruct (active_booking_of _ _); [exact H|]. destruct (get_lot _ _); [|exact H].
    destruct (spots_with_status _ _ _); [exact H|].
    cbn [snd]. intros s Hs. cbn [spots] in Hs. now apply labelled_updated in Hs.
  - unfold App.release_spot.
    destruct (get_booking _ _); [|exact H]. destruct (negb _); [exact H|].
    destruct (get_spot _ _); [|exact H]. destruct (get_lot _ _); [|exact H].
    cbn [snd]. intros s Hs. cbn [spots] in Hs. now apply labelled_updated in Hs.
Qed.

Lemma labelled_run (rs : list request) (d : db) :
  labelled d -> labelled (run AppPy rs d).
Proof.
  unfold run. revert d. induction rs as [|r rs IH]; intros d H; [exact H|].
  cbn [fold_left]. apply IH. now apply labelled_handle.
Qed.

Lemma range_app (a b c : Z) :
  a <= b <= c -> Py.range a b ++ Py.range b c = Py.range a c.
Proof.
  intros H. unfold Py.range.
  replace (Z.to_nat (c - a)) with (Z.to_nat (b - a) + Z.to_nat (c - b))%nat by lia.
  rewrite seq_app, map_app. f_equal. cbn [Nat.add].
  assert (G : forall k s,
             map (fun i => b + Z.of_nat i) (seq s k)
             = map (fun i => a + Z.of_nat i) (seq (Z.to_nat (b - a) + s) k)).
  { induction k as [|k IH]; intros s; cbn [seq map]; trivial.
    f_equal; [lia|]. rewrite (IH (S s)). now rewrite Nat.add_succ_r. }
  rewrite (G _ 0%nat). now rewrite Nat.add_0_r.
Qed.

End AppLabels.

(** [app.py]: the number its shrinking branch reads from a spot,
    [int(x.spot_number[1:])], is i for the label [f"S{i}"] of any integer
    i.  All spot numbers in a database [app.py] built from the empty one are
    such labels, so that the sort of the shrinking branch never raises
    [ValueError] there: the spots to delete are always computed. *)
Theorem app_sort_never_raises (rs : list request) (lot : Parking_lot.t) (n : Z) :
  (forall i s, Parking_spot.spot_number s = App.spot_label i -> app_key s = Some i)
  /\ labelled (run AppPy rs empty_db)
  /\ exists doomed, App.spots_to_remove lot n (run AppPy rs empty_db) = Some doomed.
Proof.
  assert (Hl : labelled (run AppPy rs empty_db))
    by (apply labelled_run; intros ? []).
  split; [exact app_key_label|]. split; [exact Hl|].
  unfold App.spots_to_remove.
  destruct (sort_keys_labelled
              (spots_with_status (Parking_lot.id lot) "A" (run AppPy rs empty_db)))
    as (keyed & ->).
  - intros s Hs. unfold spots_with_status in Hs. apply filter_In in Hs. now apply Hl.
  - now eexists.
Qed.

(** [app.py], growing branch of [edit_parking_lot]: in a lot whose spots
    are numbered 1, ..., capacity in table order, the new spots continue
    the numbering, and the lot is numbered 1, ..., target. *)
Theorem app_grow_numbered (lot : Parking_lot.t) (n : Z) (d : db) :
  0 <= Parking_lot.max_no_spots lot <= n ->
  ordinals (Parking_lot.id lot) d = Py.range 1 (Parking_lot.max_no_spots lot + 1) ->
  ordinals (Parking_lot.id lot) (App.grow lot n d) = Py.range 1 (n + 1).
Proof.
  intros Hn Hord. unfold App.grow, ordinals, spots_of. cbn [spots].
  destruct (add_spots_spec (Parking_lot.id lot) App.spot_label
              (Py.range (Parking_lot.max_no_spots lot + 1) (n + 1)) (spots d))
    as (new & E & Hnum & Hall & _).
  rewrite E, spots_of_app_same, map_app.
  - fold (spots_of (Parking_lot.id lot) d). fold (ordinals (Parking_lot.id lot) d).
    rewrite Hord, (ordinals_of_labels new _ Hnum). apply range_app. lia.
  - eapply Forall_impl; [|exact Hall]. intros s (H & _). exact H.
Qed.

Lemma app_grow_numbered_witness :
  ordinals 1 (App.grow (Parking_lot.mk 1 "Central" "1 Main Road" "600001" 60 3) 5
                       (last_spot_taken AppPy))
  = Py.range 1 (5 + 1).
Proof.
  apply (app_grow_numbered (Parking_lot.mk 1 "Central" "1 Main Road" "600001" 60 3) 5
           (last_spot_taken AppPy)).
  - simpl. lia.
  - reflexivity.
Defined.


(* ================================================================== *)
(** * What the API reports *)
(* ================================================================== *)

(** On a consistent inventory the API tells the truth about the
    inventory: the capacity [get_lots] reports for a lot is the number of
    spots the lot has, and [get_spot] answers for every spot of the table,
    with its own key, number and lot, 'Available' exactly when its status
    is ['A'] and 'Occupied' exactly when it is ['O']. *)
Theorem api_reports_inventory (d : db) :
  inventory_ok d ->
  Forall (fun j => Api.capacity j
                   = Z.of_nat (List.length (spots_of (Api.id j) d)))
         (Api.get_lots d)
  /\ forall s, In s (spots d) ->
       exists j,
         Api.get_spot (Parking_spot.id s) d = Some j
         /\ Api.spot_id j = Parking_spot.id s
         /\ Api.spot_number j = Parking_spot.spot_number s
         /\ Api.lot_id j = Parking_spot.parking_lot_id s
         /\ (Api.status j = "Available" <-> Parking_spot.status s = "A")
         /\ (Api.status j = "Occupied" <-> Parking_spot.status s = "O").
Proof.
  intros Hinv. pose proof Hinv as (Hu & _ & Hs & _ & Hc). split.
  - apply Forall_forall. intros j Hj. unfold Api.get_lots in Hj.
    apply in_map_iff in Hj. destruct Hj as (lot & <- & Hlot).
    cbn [Api.capacity Api.id]. now apply Hc.
  - intros s Hin. unfold Api.get_spot. rewrite (get_spot_row d s Hu Hin).
    eexists. split; [reflexivity|]. cbn [Api.spot_id Api.spot_number Api.lot_id Api.status].
    do 3 (split; [reflexivity|]).
    destruct (Hs s Hin) as [E|E]; rewrite E; cbn; split; split;
      intros H; try reflexivity; discriminate.
Qed.

Lemma api_reports_inventory_witness :
  Forall (fun j => Api.capacity j
                   = Z.of_nat (List.length (spots_of (Api.id j) shuffled_lot)))
         (Api.get_lots shuffled_lot).
Proof.
  apply (api_reports_inventory shuffled_lot).
  apply (run_inventory AppPy).
  - repeat constructor; vm_compute; discriminate.
  - exact inventory_empty.
Defined.
